(** * Storage backends of the Om Apex MCP server

    A shallow embedding of [src/om_apex_mcp/storage.py]: the local
    filesystem backend ([LocalStorage]) and the Google Drive backend
    ([GoogleDriveStorage]), with the Python string and [pathlib]
    primitives they rely on, and of the numbering of new decisions in
    [src/om_apex_mcp/tools/context.py], followed by the properties of the
    storage contract.

    Conventions.
    - A Python [str] is a [string] holding its UTF-8 encoding, so that
      encoding text as UTF-8 is the identity, decoding bytes as UTF-8 is a
      validity check, and [str] comparison (by code point) is byte-wise
      comparison.  [bytes] are [string]s as well.
    - A Python exception is a value of [exn]; code that can raise has a
      [result] type, and code that also changes state is in [PyM], which
      keeps the state reached when the exception was raised.
    - The host is POSIX: paths are '/'-separated, text files are written
      without newline translation and read with universal newlines. *)

From Stdlib Require Import ZArith NArith Ascii String List Lia.
From stdpp Require Import base option list gmap strings sorting pretty.

Set Warnings "-register-all".
Local Open Scope string_scope.
Local Open Scope list_scope.

(** ** Exceptions and the state-and-exception monad *)

Inductive exn : Type :=
| PermissionError
| FileNotFoundError (msg : string)
| FileExistsError
| IsADirectoryError
| NotADirectoryError
| OSError
| UnicodeDecodeError
| JSONDecodeError
| ValueError
| HttpError.

Inductive result (A : Type) : Type :=
| Ok (a : A)
| Raise (e : exn).
Arguments Ok {A} a.
Arguments Raise {A} e.

Definition is_ok {A} (r : result A) : bool :=
  match r with Ok _ => true | Raise _ => false end.

Definition PyM (S A : Type) : Type := S → result A * S.

Definition ret {S A} (a : A) : PyM S A := λ s, (Ok a, s).
Definition raise {S A} (e : exn) : PyM S A := λ s, (Raise e, s).
Definition bind {S A B} (m : PyM S A) (k : A → PyM S B) : PyM S B :=
  λ s, match m s with
       | (Ok a, s') => k a s'
       | (Raise e, s') => (Raise e, s')
       end.
Definition get {S} : PyM S S := λ s, (Ok s, s).
Definition put {S} (s : S) : PyM S unit := λ _, (Ok tt, s).
Definition modify {S} (f : S → S) : PyM S unit := λ s, (Ok tt, f s).
Definition lift {S A} (r : result A) : PyM S A := λ s, (r, s).
(** [try: m except e: h e] *)
Definition try_except {S A} (m : PyM S A) (h : exn → PyM S A) : PyM S A :=
  λ s, match m s with
       | (Ok a, s') => (Ok a, s')
       | (Raise e, s') => h e s'
       end.

#[global] Instance PyM_ret {S} : MRet (PyM S) := λ A, ret.
#[global] Instance PyM_bind {S} : MBind (PyM S) := λ A B k m, bind m k.

(** ** Python string primitives *)

Module PyStr.

(** [s.lstrip(c)], [s.rstrip(c)] and [s.strip(c)] for a one-character [c]. *)
Fixpoint lstrip (c : ascii) (s : string) : string :=
  match s with
  | String a r => if Ascii.eqb a c then lstrip c r else s
  | EmptyString => EmptyString
  end.

Fixpoint rstrip (c : ascii) (s : string) : string :=
  match s with
  | String a r =>
      match rstrip c r with
      | EmptyString => if Ascii.eqb a c then EmptyString else String a EmptyString
      | r' => String a r'
      end
  | EmptyString => EmptyString
  end.

Definition strip (c : ascii) (s : string) : string := rstrip c (lstrip c s).

(** [s.split(c)]: never empty, ["".split(c) == [""]]. *)
Fixpoint split (c : ascii) (s : string) : list string :=
  match s with
  | EmptyString => [EmptyString]
  | String a r =>
      if Ascii.eqb a c then EmptyString :: split c r
      else match split c r with
           | h :: t => String a h :: t
           | [] => [String a EmptyString]
           end
  end.

(** [sep.join(l)] *)
Fixpoint join (sep : string) (l : list string) : string :=
  match l with
  | [] => ""
  | x :: r => match r with
              | [] => x
              | _ :: _ => x +:+ sep +:+ join sep r
              end
  end.

(** The text before and after the last occurrence of [c], if any. *)
Fixpoint rpartition (c : ascii) (s : string) : option (string * string) :=
  match s with
  | EmptyString => None
  | String a r =>
      match rpartition c r with
      | Some (x, y) => Some (String a x, y)
      | None => if Ascii.eqb a c then Some (EmptyString, r) else None
      end
  end.

(** [s.rsplit(c, 1)]: one or two pieces. *)
Definition rsplit1 (c : ascii) (s : string) : list string :=
  match rpartition c s with
  | Some (x, y) => [x; y]
  | None => [s]
  end.

(** [l.index(x)], the position of the first occurrence; Python raises
    [ValueError] when there is none, which does not happen where the
    storage code calls it (on an element of the list it iterates). *)
Fixpoint index (x : string) (l : list string) : nat :=
  match l with
  | [] => 0
  | y :: r => if String.eqb y x then 0 else S (index x r)
  end.

Definition startswith (s p : string) : bool := String.prefix p s.

Fixpoint endswith (s suf : string) : bool :=
  String.eqb s suf ||
  match s with
  | EmptyString => false
  | String _ r => endswith r suf
  end.

(** [sub in s] *)
Fixpoint contains (s sub : string) : bool :=
  String.prefix sub s ||
  match s with
  | EmptyString => false
  | String _ r => contains r sub
  end.

(** [s[1:]] *)
Definition tail (s : string) : string :=
  match s with
  | EmptyString => EmptyString
  | String _ r => r
  end.

(** [s[:k]] *)
Definition take (k : nat) (s : string) : string := String.substring 0 k s.

(** [sorted(l, reverse=True)] on strings. *)
Definition ge (a b : string) : Prop := String.le b a.
#[global] Instance ge_dec : RelDecision ge := λ a b, decide (String.le b a).
Definition sorted_reverse (l : list string) : list string := merge_sort ge l.

End PyStr.

(** ** Text encodings *)

Module Codec.

Definition byte (a : ascii) : N := N_of_ascii a.
Definition between (lo hi : N) (a : ascii) : bool :=
  ((lo <=? byte a) && (byte a <=? hi))%N.
Definition continuation : ascii → bool := between 128 191.

(** Strict UTF-8 well-formedness, as checked by [bytes.decode("utf-8")]:
    no overlong forms, no surrogates, nothing above U+10FFFF. *)
Fixpoint valid_utf8 (s : string) : bool :=
  match s with
  | EmptyString => true
  | String b0 s1 =>
      if (byte b0 <? 128)%N then valid_utf8 s1
      else if between 194 223 b0 then
        match s1 with
        | String b1 s2 => continuation b1 && valid_utf8 s2
        | _ => false
        end
      else if between 224 239 b0 then
        match s1 with
        | String b1 (String b2 s3) =>
            between (if (byte b0 =? 224)%N then 160 else 128)
                    (if (byte b0 =? 237)%N then 159 else 191) b1
            && continuation b2 && valid_utf8 s3
        | _ => false
        end
      else if between 240 244 b0 then
        match s1 with
        | String b1 (String b2 (String b3 s4)) =>
            between (if (byte b0 =? 240)%N then 144 else 128)
                    (if (byte b0 =? 244)%N then 143 else 191) b1
            && continuation b2 && continuation b3 && valid_utf8 s4
        | _ => false
        end
      else false
  end.

(** [b.decode("latin-1")]: byte [n] is code point [n]; total. *)
Fixpoint latin1_to_text (s : string) : string :=
  match s with
  | EmptyString => EmptyString
  | String b r =>
      if (byte b <? 128)%N then String b (latin1_to_text r)
      else String (ascii_of_N (192 + byte b / 64))
             (String (ascii_of_N (128 + byte b mod 64)) (latin1_to_text r))
  end.

Inductive encoding := Utf8 | Latin1.

Definition decode (enc : encoding) (b : string) : result string :=
  match enc with
  | Utf8 => if valid_utf8 b then Ok b else Raise UnicodeDecodeError
  | Latin1 => Ok (latin1_to_text b)
  end.

Definition CR : ascii := ascii_of_nat 13.
Definition LF : ascii := ascii_of_nat 10.

(** Reading in text mode with [newline=None]: CR LF and CR become LF. *)
Fixpoint universal_newlines (s : string) : string :=
  match s with
  | EmptyString => EmptyString
  | String a r =>
      if Ascii.eqb a CR then
        match r with
        | String b r' =>
            if Ascii.eqb b LF then String LF (universal_newlines r')
            else String LF (universal_newlines r)
        | EmptyString => String LF EmptyString
        end
      else String a (universal_newlines r)
  end.

End Codec.

(** ** [pathlib] on POSIX *)

Module PurePath.

(** An absolute path, as its components below the filesystem root. *)
Abbreviation path := (list string).

(** The components of a path string: empty and "." components vanish,
    ".." is kept as it is. *)
Definition parse (s : string) : list string :=
  filter (λ x, x ≠ "" ∧ x ≠ ".") (PyStr.split "/" s).

Definition is_absolute (s : string) : bool := PyStr.startswith s "/".

(** [base / s]: an absolute [s] replaces [base]. *)
Definition joinpath (base : path) (s : string) : path :=
  if is_absolute s then parse s else base ++ parse s.

Definition name (p : path) : string := List.last p "".

Definition parent (p : path) : path := removelast p.

(** [PurePath.suffix] of a final component: the text from the last dot,
    unless that dot is the first or the last character
    ([0 < i < len(name) - 1] for [i = name.rfind(".")]). *)
Definition name_suffix (n : string) : string :=
  match PyStr.rpartition "." n with
  | Some (stem, ext) =>
      if bool_decide (stem ≠ "" ∧ ext ≠ "") then String "." ext else ""
  | None => ""
  end.

Definition name_stem (n : string) : string :=
  match PyStr.rpartition "." n with
  | Some (stem, ext) =>
      if bool_decide (stem ≠ "" ∧ ext ≠ "") then stem else n
  | None => n
  end.

Definition suffix (p : path) : string := name_suffix (name p).

(** [p.with_suffix(suf)] for a well-formed [suf] such as ".tmp". *)
Definition with_suffix (p : path) (suf : string) : result path :=
  if bool_decide (name p = "") then Raise ValueError
  else Ok (parent p ++ [name_stem (name p) +:+ suf]).

(** [p.relative_to(root)] *)
Fixpoint relative_to (p root : path) : result (list string) :=
  match root with
  | [] => Ok p
  | r :: root' =>
      match p with
      | x :: p' => if bool_decide (x = r) then relative_to p' root' else Raise ValueError
      | [] => Raise ValueError
      end
  end.

(** [str(p)] of a relative path. *)
Definition str_rel (p : list string) : string :=
  match p with
  | [] => "."
  | _ => PyStr.join "/" p
  end.

End PurePath.

(** ** A POSIX filesystem *)

Module Posix.
Import PurePath.

Inductive node : Type :=
| File (readable writable : bool) (data : string)
| Dir.

(** What lives at each absolute path; the root is always a directory.
    Nothing lives below a path that is not a directory. *)
Abbreviation filesystem := (gmap (list string) node).

Definition stat (fs : filesystem) (p : path) : option node :=
  match p with
  | [] => Some Dir
  | _ :: _ => fs !! p
  end.

(** [p.exists()] *)
Definition path_exists (fs : filesystem) (p : path) : bool :=
  bool_decide (is_Some (stat fs p)).

(** The bytes behind [open(p, "r")]. *)
Definition read_bytes (p : path) : PyM filesystem string := λ fs,
  match stat fs p with
  | None => (Raise (FileNotFoundError (str_rel p)), fs)
  | Some Dir => (Raise IsADirectoryError, fs)
  | Some (File r _ d) => if r then (Ok d, fs) else (Raise PermissionError, fs)
  end.

(** [with open(p, "r", encoding=enc) as f: return f.read()] *)
Definition open_read_text (p : path) (enc : Codec.encoding) : PyM filesystem string :=
  b ← read_bytes p;
  t ← lift (Codec.decode enc b);
  mret (Codec.universal_newlines t).

(** [with open(p, mode, encoding="utf-8") as f: f.write(text)], where
    [upd] gives the new content from the old one: [mode="w"] truncates,
    [mode="a"] appends. *)
Definition open_write_with (upd : string → string) (p : path) : PyM filesystem unit := λ fs,
  match stat fs (parent p) with
  | None => (Raise (FileNotFoundError (str_rel p)), fs)
  | Some (File _ _ _) => (Raise NotADirectoryError, fs)
  | Some Dir =>
      match stat fs p with
      | Some Dir => (Raise IsADirectoryError, fs)
      | Some (File r w old) =>
          if w then (Ok tt, <[p := File r w (upd old)]> fs)
          else (Raise PermissionError, fs)
      | None => (Ok tt, <[p := File true true (upd "")]> fs)
      end
  end.

Definition open_write_text (p : path) (text : string) : PyM filesystem unit :=
  open_write_with (λ _, text) p.

Definition open_append_text (p : path) (text : string) : PyM filesystem unit :=
  open_write_with (λ old, old +:+ text) p.

(** [src.replace(dst)], that is [os.replace]: an atomic rename.  The
    storage code only renames regular files. *)
Definition replace (src dst : path) : PyM filesystem unit := λ fs,
  match stat fs src with
  | None => (Raise (FileNotFoundError (str_rel src)), fs)
  | Some Dir => (Raise OSError, fs)
  | Some (File r w d) =>
      if bool_decide (src = dst) then (Ok tt, fs)
      else match stat fs (parent dst) with
           | None => (Raise (FileNotFoundError (str_rel dst)), fs)
           | Some (File _ _ _) => (Raise NotADirectoryError, fs)
           | Some Dir =>
               match stat fs dst with
               | Some Dir => (Raise IsADirectoryError, fs)
               | _ => (Ok tt, <[dst := File r w d]> (delete src fs))
               end
           end
  end.

(** [p.mkdir(parents=True, exist_ok=True)] for [p = base / todo]: every
    missing directory on the way is created; a regular file in the way
    is an error. *)
Fixpoint mkdir_from (base : path) (todo : list string) : PyM filesystem unit :=
  match todo with
  | [] => mret tt
  | x :: r => λ fs,
      match stat fs (base ++ [x]) with
      | Some Dir => mkdir_from (base ++ [x]) r fs
      | Some (File _ _ _) =>
          (Raise (match r with [] => FileExistsError | _ => NotADirectoryError end), fs)
      | None => mkdir_from (base ++ [x]) r (<[base ++ [x] := Dir]> fs)
      end
  end.

Definition mkdir_parents (p : path) : PyM filesystem unit := mkdir_from [] p.

(** [fnmatch]: '*' matches any run of characters, '?' any one character
    and every other character itself (bracket classes are not modelled);
    [pathlib]'s '*' also matches names that start with a dot. *)
Fixpoint fnmatch (pat name : string) : bool :=
  match pat with
  | EmptyString => bool_decide (name = "")
  | String c pat' =>
      if Ascii.eqb c "*" then
        (fix star (n : string) : bool :=
           fnmatch pat' n ||
           match n with
           | EmptyString => false
           | String _ n' => star n'
           end) name
      else
        match name with
        | EmptyString => false
        | String d name' => (Ascii.eqb c "?" || Ascii.eqb c d) && fnmatch pat' name'
        end
  end.


(** The names of the entries of directory [d]. *)
Definition listdir (fs : filesystem) (d : path) : list string :=
  omap (λ kv, match relative_to kv.1 d with
              | Ok [n] => Some n
              | _ => None
              end) (map_to_list fs).

(** [d.glob(pattern)] for a pattern of one component: non-recursive;
    nothing when [d] is not a directory. *)
Definition glob (fs : filesystem) (d : path) (pattern : string) : list path :=
  match stat fs d with
  | Some Dir => (λ n, d ++ [n]) <$> filter (λ n, fnmatch pattern n = true) (listdir fs d)
  | _ => []
  end.

End Posix.

(** ** The [json] module, as far as the storage code uses it *)

(** [json.dump]/[json.dumps] with [indent=2] and the given [ensure_ascii],
    on the values the server stores, and [json.load]/[json.loads], which
    raise [JSONDecodeError] on malformed text. *)
Class Json : Type := {
  pyobj : Type;
  empty_dict : pyobj;
  json_dumps : bool → pyobj → string;
  json_loads : string → result pyobj
}.

(** The result of a sequence of fallible steps. *)
Fixpoint traverse {A B} (f : A → result B) (l : list A) : result (list B) :=
  match l with
  | [] => Ok []
  | x :: r =>
      match f x with
      | Raise e => Raise e
      | Ok y => match traverse f r with
                | Raise e => Raise e
                | Ok ys => Ok (y :: ys)
                end
      end
  end.

(** ** [class LocalStorage(StorageBackend)] *)

Module LocalStorage.
Import PurePath Posix.

Record self_ : Type := {
  data_dir : path;
  shared_drive_root : path
}.

Section methods.
Context `{Json}.
Variable self : self_.

Definition load_json (filename : string) : PyM filesystem pyobj :=
  let filepath := joinpath (data_dir self) filename in
  try_except
    (fs ← get;
     if path_exists fs filepath then
       text ← open_read_text filepath Codec.Utf8;
       lift (json_loads text)
     else mret empty_dict)
    (λ e, match e with
          | JSONDecodeError => mret empty_dict
          | PermissionError => mret empty_dict
          | _ => mret empty_dict
          end).

Definition save_json (filename : string) (data : pyobj) : PyM filesystem unit :=
  let filepath := joinpath (data_dir self) filename in
  try_except
    (mkdir_parents (parent filepath);;
     temp_path ← lift (with_suffix filepath ".tmp");
     open_write_text temp_path (json_dumps false data);;
     replace temp_path filepath)
    (λ e, raise e).

Definition read_text (path : string) : PyM filesystem (option string) :=
  let filepath := joinpath (shared_drive_root self) path in
  try_except
    (fs ← get;
     if path_exists fs filepath then
       text ← open_read_text filepath Codec.Utf8;
       mret (Some text)
     else mret None)
    (λ e, match e with
          | PermissionError => mret None
          | UnicodeDecodeError =>
              try_except
                (text ← open_read_text filepath Codec.Latin1;
                 mret (Some text))
                (λ _, mret None)
          | _ => mret None
          end).

Definition write_text (path content : string) : PyM filesystem unit :=
  let filepath := joinpath (shared_drive_root self) path in
  try_except
    (mkdir_parents (parent filepath);;
     open_write_text filepath content)
    (λ e, raise e).

Definition append_text (path content : string) : PyM filesystem unit :=
  let filepath := joinpath (shared_drive_root self) path in
  try_except
    (mkdir_parents (parent filepath);;
     open_append_text filepath content)
    (λ e, raise e).

Definition list_files (directory pattern : string) : PyM filesystem (list string) :=
  let dir_path := joinpath (shared_drive_root self) directory in
  try_except
    (fs ← get;
     if negb (path_exists fs dir_path) then mret []
     else
       names ← lift (traverse
                       (λ f, match relative_to f (shared_drive_root self) with
                             | Ok rel => Ok (str_rel rel)
                             | Raise e => Raise e
                             end)
                       (glob fs dir_path pattern));
       mret (PyStr.sorted_reverse names))
    (λ _, mret []).

Definition file_exists (path : string) : PyM filesystem bool :=
  try_except
    (fs ← get; mret (path_exists fs (joinpath (shared_drive_root self) path)))
    (λ _, mret false).

(** The states an interruption of [save_json] can leave on disk, in the
    order they are reached: the directories appear one by one, the
    temporary file is created empty and grows to the full text, and the
    rename puts it in place. *)
Fixpoint mkdir_trace (base : path) (todo : list string) (fs : filesystem)
  : list filesystem :=
  match todo with
  | [] => []
  | x :: r =>
      match stat fs (base ++ [x]) with
      | Some Dir => mkdir_trace (base ++ [x]) r fs
      | Some (File _ _ _) => []
      | None =>
          let fs' := <[base ++ [x] := Dir]> fs in
          fs' :: mkdir_trace (base ++ [x]) r fs'
      end
  end.

Definition save_json_trace (filename : string) (data : pyobj) (fs : filesystem)
  : list filesystem :=
  let filepath := joinpath (data_dir self) filename in
  fs :: mkdir_trace [] (parent filepath) fs ++
  match mkdir_parents (parent filepath) fs with
  | (Raise _, _) => []
  | (Ok _, fs1) =>
      match with_suffix filepath ".tmp" with
      | Raise _ => []
      | Ok temp_path =>
          let text := json_dumps false data in
          match open_write_text temp_path text fs1 with
          | (Raise _, _) => []
          | (Ok _, fs2) =>
              ((λ k, (open_write_text temp_path (PyStr.take k text) fs1).2)
                 <$> seq 0 (S (String.length text)))
              ++ [(replace temp_path filepath fs2).2]
          end
      end
  end.

End methods.
End LocalStorage.

(** ** The Google Drive service *)

Module Drive.

Definition folder_mime : string := "application/vnd.google-apps.folder".

(** An object of the drive.  Identifiers are numbers here; Drive's are
    non-empty strings, so that the test [if file_id] of the backend is
    the test for [None]. *)
Record file : Type := {
  id : N;
  name : string;
  parent : N;
  mime_type : string;
  trashed : bool;
  data : string
}.

Definition is_folder (f : file) : bool := bool_decide (mime_type f = folder_mime).

(** The [q] strings the backend sends to [files().list].  Names that
    would need quoting inside the query text are outside the model. *)
Inductive query : Type :=
| NameInParent (n : string) (parent_id : N) (folders_only : bool)
    (** name = 'n' and 'parent_id' in parents [and mimeType = folder] and trashed = false *)
| ChildrenOf (parent_id : N) (name_contains : option string)
    (** 'parent_id' in parents and trashed = false [and name contains 's'] *).

(** [name contains 's'] is read as a substring test. *)
Definition matches (q : query) (f : file) : bool :=
  match q with
  | NameInParent n p folders_only =>
      bool_decide (name f = n) && bool_decide (parent f = p)
      && (negb folders_only || is_folder f) && negb (trashed f)
  | ChildrenOf p sub =>
      bool_decide (parent f = p) && negb (trashed f)
      && match sub with
         | Some s => PyStr.contains (name f) s
         | None => true
         end
  end.

Definition select (q : query) (files : list file) : list file :=
  filter (λ f, matches q f = true) files.

Definition cons_head {A} (x : A) (pages : list (list A)) : list (list A) :=
  match pages with
  | p :: ps => (x :: p) :: ps
  | [] => [[x]]
  end.

(** The pages of a listing, [S size] entries each; [room] is what is left
    of the page being filled.  A listing always has a first page. *)
Fixpoint paginate {A} (size room : nat) (l : list A) : list (list A) :=
  match l with
  | [] => [[]]
  | x :: r =>
      match room with
      | S k => cons_head x (paginate size k r)
      | O => [] :: cons_head x (paginate size size r)
      end
  end.

Definition lookup_id (files : list file) (i : N) : option file :=
  List.find (λ f, bool_decide (id f = i)) files.

(** An identifier no object has yet. *)
Definition fresh_id (files : list file) : N :=
  (1 + foldr (λ f m, N.max (id f) m) 0 files)%N.

Definition set_data (i : N) (d : string) (f : file) : file :=
  if bool_decide (id f = i)
  then {| id := id f; name := name f; parent := parent f;
          mime_type := mime_type f; trashed := trashed f; data := d |}
  else f.

Inductive request : Type :=
| FilesList (q : query) (page : nat)
| FilesGetMedia (file_id : N)
| FilesUpdate (file_id : N)
| FilesCreate (n : string) (parent_id : N).

End Drive.

(** ** [class GoogleDriveStorage(StorageBackend)] *)

Module GoogleDriveStorage.
Import Drive.

(** The backend object together with the remote state it talks to:
    [service_files] are the objects of the shared drive in the order the
    listing returns them, [page_size] the listing's page size (minus
    one), [requests] the API requests issued so far, latest first. *)
Record self_ : Type := {
  service_files : list file;
  page_size : nat;
  requests : list request;
  shared_drive_id : N;
  _file_id_cache : gmap string N;
  _folder_id_cache : gmap string N
}.

Definition with_files (fl : list file) (st : self_) : self_ :=
  {| service_files := fl; page_size := page_size st; requests := requests st;
     shared_drive_id := shared_drive_id st;
     _file_id_cache := _file_id_cache st; _folder_id_cache := _folder_id_cache st |}.
Definition with_request (r : request) (st : self_) : self_ :=
  {| service_files := service_files st; page_size := page_size st;
     requests := r :: requests st; shared_drive_id := shared_drive_id st;
     _file_id_cache := _file_id_cache st; _folder_id_cache := _folder_id_cache st |}.
Definition cache_file (path : string) (i : N) (st : self_) : self_ :=
  {| service_files := service_files st; page_size := page_size st;
     requests := requests st; shared_drive_id := shared_drive_id st;
     _file_id_cache := <[path := i]> (_file_id_cache st);
     _folder_id_cache := _folder_id_cache st |}.
Definition cache_folder (path : string) (i : N) (st : self_) : self_ :=
  {| service_files := service_files st; page_size := page_size st;
     requests := requests st; shared_drive_id := shared_drive_id st;
     _file_id_cache := _file_id_cache st;
     _folder_id_cache := <[path := i]> (_folder_id_cache st) |}.

(** *** The requests *)

(** [service.files().list(q=...).execute().get("files", [])] where the
    backend reads one page only. *)
Definition files_list (q : query) : PyM self_ (list file) := λ st,
  (Ok (select q (service_files st)), with_request (FilesList q 0) st).

(** [get_media] with the chunked download run to its end. *)
Definition files_get_media (file_id : N) : PyM self_ string := λ st,
  let st' := with_request (FilesGetMedia file_id) st in
  match lookup_id (service_files st) file_id with
  | Some f => if is_folder f then (Raise HttpError, st') else (Ok (data f), st')
  | None => (Raise HttpError, st')
  end.

Definition files_update (file_id : N) (content : string) : PyM self_ unit := λ st,
  let st' := with_request (FilesUpdate file_id) st in
  match lookup_id (service_files st) file_id with
  | Some f =>
      if is_folder f then (Raise HttpError, st')
      else (Ok tt, with_files (set_data file_id content <$> service_files st) st')
  | None => (Raise HttpError, st')
  end.

Definition folder_exists (st : self_) (i : N) : bool :=
  bool_decide (i = shared_drive_id st) ||
  match lookup_id (service_files st) i with
  | Some f => is_folder f
  | None => false
  end.

Definition files_create (n : string) (parent_id : N) (mime content : string)
  : PyM self_ N := λ st,
  let st' := with_request (FilesCreate n parent_id) st in
  if folder_exists st parent_id then
    let new_id := fresh_id (service_files st) in
    (Ok new_id,
     with_files (service_files st ++
                 [{| id := new_id; name := n; parent := parent_id;
                     mime_type := mime; trashed := false; data := content |}]) st')
  else (Raise HttpError, st').

(** *** Path resolution *)

Definition folder_not_found (folder_path part : string) : exn :=
  FileNotFoundError ("Folder not found: " +:+ folder_path +:+ " (missing: " +:+ part +:+ ")").

(** ["/".join(parts[:parts.index(part) + 1])] *)
Definition current_path (parts : list string) (part : string) : string :=
  PyStr.join "/" (take (PyStr.index part parts + 1) parts).

(** [for part in parts: ...] of [_resolve_folder_id], with [rest] the
    parts still to visit. *)
Fixpoint resolve_parts (folder_path : string) (parts rest : list string) (parent_id : N)
  : PyM self_ N :=
  match rest with
  | [] => mret parent_id
  | part :: rest' =>
      st ← get;
      match _folder_id_cache st !! current_path parts part with
      | Some cached => resolve_parts folder_path parts rest' cached
      | None =>
          files ← files_list (NameInParent part parent_id true);
          match files with
          | [] => raise (folder_not_found folder_path part)
          | f :: _ =>
              modify (cache_folder (current_path parts part) (id f));;
              resolve_parts folder_path parts rest' (id f)
          end
      end
  end.

(** The walk as the design describes it, to compare [_resolve_folder_id]
    with: from the folder reached so far, take the first folder among
    its children that has the name of the next part; fail, naming the
    part, when there is none. *)
Fixpoint walk_folders (files : list file) (folder_path : string) (parent_id : N)
    (parts : list string) : result N :=
  match parts with
  | [] => Ok parent_id
  | part :: rest =>
      match select (NameInParent part parent_id true) files with
      | [] => Raise (folder_not_found folder_path part)
      | f :: _ => walk_folders files folder_path (id f) rest
      end
  end.

Definition _resolve_folder_id (folder_path : string) : PyM self_ N :=
  st ← get;
  if bool_decide (folder_path = "" ∨ folder_path = ".") then mret (shared_drive_id st)
  else
    match _folder_id_cache st !! folder_path with
    | Some cached => mret cached
    | None =>
        let parts := PyStr.split "/" (PyStr.strip "/" folder_path) in
        resolve_parts folder_path parts parts (shared_drive_id st)
    end.

(** [parts = path.strip("/").rsplit("/", 1)] and the unpacking that
    follows it. *)
Definition folder_and_name (path : string) : string * string :=
  match PyStr.rsplit1 "/" (PyStr.strip "/" path) with
  | [folder_path; filename] => (folder_path, filename)
  | parts => ("", hd "" parts)
  end.

(** [try: return f() except FileNotFoundError: return None] *)
Definition unless_not_found {A} (m : PyM self_ A) : PyM self_ (option A) :=
  try_except (a ← m; mret (Some a))
    (λ e, match e with
          | FileNotFoundError _ => mret None
          | _ => raise e
          end).

Definition _resolve_file_id (path : string) : PyM self_ (option N) :=
  st ← get;
  match _file_id_cache st !! path with
  | Some cached => mret (Some cached)
  | None =>
      let '(folder_path, filename) := folder_and_name path in
      found ← unless_not_found (_resolve_folder_id folder_path);
      match found with
      | None => mret None
      | Some parent_id =>
          files ← files_list (NameInParent filename parent_id false);
          match files with
          | [] => mret None
          | f :: _ =>
              modify (cache_file path (id f));;
              mret (Some (id f))
          end
      end
  end.

Definition _download_content (file_id : N) : PyM self_ string :=
  buffer ← files_get_media file_id;
  lift (Codec.decode Codec.Utf8 buffer).

Definition _upload_content (path content mime : string) : PyM self_ N :=
  file_id ← _resolve_file_id path;
  match file_id with
  | Some i =>
      files_update i content;;
      mret i
  | None =>
      let '(folder_path, filename) := folder_and_name path in
      parent_id ← _resolve_folder_id folder_path;
      new_id ← files_create filename parent_id mime content;
      modify (cache_file path new_id);;
      mret new_id
  end.

(** *** The seven operations *)

Section methods.
Context `{Json}.

Definition load_json (filename : string) : PyM self_ pyobj :=
  let path := "mcp-data/" +:+ filename in
  file_id ← _resolve_file_id path;
  match file_id with
  | None => mret empty_dict
  | Some i =>
      content ← _download_content i;
      lift (json_loads content)
  end.

Definition save_json (filename : string) (d : pyobj) : PyM self_ unit :=
  let path := "mcp-data/" +:+ filename in
  let content := json_dumps true d in
  _upload_content path content "application/json";;
  mret tt.

End methods.

Definition read_text (path : string) : PyM self_ (option string) :=
  file_id ← _resolve_file_id path;
  match file_id with
  | None => mret None
  | Some i =>
      content ← _download_content i;
      mret (Some content)
  end.

Definition write_text (path content : string) : PyM self_ unit :=
  _upload_content path content "text/plain";;
  mret tt.

Definition append_text (path content : string) : PyM self_ unit :=
  existing ← read_text path;
  let content :=
    match existing with
    | Some (String a e) => String a e +:+ content
    | _ => content
    end in
  _upload_content path content "text/plain";;
  mret tt.

(** [f"{directory}/{f['name']}"] *)
Definition rel_path (directory : string) (f : file) : string :=
  directory +:+ "/" +:+ name f.

(** [not suffix or f["name"].endswith(suffix)] *)
Definition keeps (suffix : string) (f : file) : bool :=
  bool_decide (suffix = "") || PyStr.endswith (name f) suffix.

(** One response of the listing loop of [list_files]: every child is
    cached, the ones whose name ends with [suffix] are kept. *)
Fixpoint scan_page (directory suffix : string) (page : list file) (results : list string)
  : PyM self_ (list string) :=
  match page with
  | [] => mret results
  | f :: page' =>
      modify (cache_file (rel_path directory f) (id f));;
      scan_page directory suffix page'
        (if keeps suffix f then results ++ [rel_path directory f] else results)
  end.

(** [while True: ...] of [list_files]: one request per page, until a
    response carries no [nextPageToken]. *)
Fixpoint scan_pages (q : query) (directory suffix : string)
    (pages : list (list file)) (page_no : nat) (results : list string)
  : PyM self_ (list string) :=
  match pages with
  | [] => mret results
  | page :: pages' =>
      modify (with_request (FilesList q page_no));;
      results' ← scan_page directory suffix page results;
      scan_pages q directory suffix pages' (S page_no) results'
  end.

Definition list_files (directory pattern : string) : PyM self_ (list string) :=
  found ← unless_not_found (_resolve_folder_id directory);
  match found with
  | None => mret []
  | Some folder_id =>
      let suffix := if PyStr.startswith pattern "*" then PyStr.tail pattern else "" in
      let q := ChildrenOf folder_id (if bool_decide (suffix = "") then None else Some suffix) in
      st ← get;
      results ← scan_pages q directory suffix
                  (paginate (page_size st) (S (page_size st)) (select q (service_files st)))
                  0 [];
      mret (PyStr.sorted_reverse results)
  end.

Definition file_exists (path : string) : PyM self_ bool :=
  file_id ← _resolve_file_id path;
  mret (bool_decide (is_Some file_id)).

(** *** What a caller can observe *)

(** The drive and the caches, without the log of requests. *)
Definition store (st : self_)
  : list file * nat * N * gmap string N * gmap string N :=
  (service_files st, page_size st, shared_drive_id st,
   _file_id_cache st, _folder_id_cache st).

(** Two runs end alike: same outcome, same drive, same caches. *)
Definition same_outcome {A} (x y : result A * self_) : Prop :=
  x.1 = y.1 ∧ store x.2 = store y.2.

(** Code whose outcome does not depend on the requests made before. *)
Definition respects {A} (m : PyM self_ A) : Prop :=
  ∀ st st', store st = store st' → same_outcome (m st) (m st').

(** Code that, whatever its outcome, ends in a state related by [R] to
    the state it started in. *)
Definition maintains {A} (R : relation self_) (m : PyM self_ A) : Prop :=
  ∀ st, R st (m st).2.

(** The backend object after some calls: the configuration is the same
    and no entry of a cache was removed or changed. *)
Definition cache_grows (st st' : self_) : Prop :=
  page_size st' = page_size st
  ∧ shared_drive_id st' = shared_drive_id st
  ∧ _folder_id_cache st ⊆ _folder_id_cache st'
  ∧ _file_id_cache st ⊆ _file_id_cache st'.

(** The same, with the objects of the drive as they were. *)
Definition reads_only (st st' : self_) : Prop :=
  service_files st' = service_files st ∧ cache_grows st st'.

End GoogleDriveStorage.

(** ** A small JSON codec

    An instance of [Json] for the examples: JSON documents whose strings
    are printable ASCII and whose numbers are integers, printed the way
    [json.dumps(..., indent=2)] prints them. *)

Module MiniJson.

Inductive value : Type :=
| Null
| Bool (b : bool)
| Int (z : Z)
| Str (s : string)
| List (l : list value)
| Dict (l : list (string * value)).

Definition dquote : ascii := ascii_of_nat 34.
Definition backslash : ascii := ascii_of_nat 92.

Fixpoint quote_body (s : string) : string :=
  match s with
  | EmptyString => EmptyString
  | String a r =>
      if Ascii.eqb a dquote || Ascii.eqb a backslash
      then String backslash (String a (quote_body r))
      else String a (quote_body r)
  end.

Definition quote (s : string) : string :=
  String dquote (quote_body s +:+ String dquote EmptyString).

Definition newline : string := String Codec.LF EmptyString.

Fixpoint spaces (n : nat) : string :=
  match n with
  | O => EmptyString
  | S k => String " " (spaces k)
  end.

Definition block (opening closing : string) (level : nat) (items : list string) : string :=
  match items with
  | [] => opening +:+ closing
  | _ => opening +:+ newline +:+ spaces (2 * S level)
         +:+ PyStr.join ("," +:+ newline +:+ spaces (2 * S level)) items
         +:+ newline +:+ spaces (2 * level) +:+ closing
  end.

Fixpoint dumps_at (level : nat) (v : value) : string :=
  match v with
  | Null => "null"
  | Bool true => "true"
  | Bool false => "false"
  | Int z => pretty z
  | Str s => quote s
  | List l => block "[" "]" level (List.map (dumps_at (S level)) l)
  | Dict l =>
      block "{" "}" level
        (List.map (λ kv, quote (fst kv) +:+ ": " +:+ dumps_at (S level) (snd kv)) l)
  end.

Definition dumps (ensure_ascii : bool) (v : value) : string := dumps_at 0 v.

Definition is_ws (a : ascii) : bool :=
  Ascii.eqb a " " || Ascii.eqb a Codec.LF || Ascii.eqb a Codec.CR
  || Ascii.eqb a (ascii_of_nat 9).

Fixpoint skip_ws (s : string) : string :=
  match s with
  | String a r => if is_ws a then skip_ws r else s
  | EmptyString => EmptyString
  end.

Definition digit (a : ascii) : option Z :=
  let n := Z.of_N (N_of_ascii a) in
  if ((48 <=? n) && (n <=? 57))%Z then Some (n - 48)%Z else None.

Fixpoint scan_digits (s : string) (acc : option Z) : option Z * string :=
  match s with
  | String a r =>
      match digit a with
      | Some d => scan_digits r (Some (10 * default 0%Z acc + d)%Z)
      | None => (acc, s)
      end
  | EmptyString => (acc, s)
  end.

(** The text of a string literal after its opening quote. *)
Fixpoint scan_string (s : string) : option (string * string) :=
  match s with
  | EmptyString => None
  | String a r =>
      if Ascii.eqb a dquote then Some (EmptyString, r)
      else if Ascii.eqb a backslash then
        match r with
        | String b r' =>
            if Ascii.eqb b dquote || Ascii.eqb b backslash then
              match scan_string r' with
              | Some (t, rest) => Some (String b t, rest)
              | None => None
              end
            else None
        | EmptyString => None
        end
      else
        match scan_string r with
        | Some (t, rest) => Some (String a t, rest)
        | None => None
        end
  end.

Definition drop_prefix (p s : string) : option string :=
  if String.prefix p s
  then Some (String.substring (String.length p) (String.length s - String.length p) s)
  else None.

Fixpoint parse_value (fuel : nat) (s : string) : option (value * string) :=
  match fuel with
  | O => None
  | S fuel' =>
      match skip_ws s with
      | EmptyString => None
      | String a r =>
          if Ascii.eqb a dquote then
            match scan_string r with
            | Some (t, rest) => Some (Str t, rest)
            | None => None
            end
          else if Ascii.eqb a "[" then
            match skip_ws r with
            | String b r' =>
                if Ascii.eqb b "]" then Some (List [], r')
                else match parse_items fuel' r with
                     | Some (l, rest) => Some (List l, rest)
                     | None => None
                     end
            | EmptyString => None
            end
          else if Ascii.eqb a "{" then
            match skip_ws r with
            | String b r' =>
                if Ascii.eqb b "}" then Some (Dict [], r')
                else match parse_members fuel' r with
                     | Some (l, rest) => Some (Dict l, rest)
                     | None => None
                     end
            | EmptyString => None
            end
          else if Ascii.eqb a "-" then
            match scan_digits r None with
            | (Some n, rest) => Some (Int (- n), rest)
            | (None, _) => None
            end
          else
            match drop_prefix "null" (String a r), drop_prefix "true" (String a r),
                  drop_prefix "false" (String a r) with
            | Some rest, _, _ => Some (Null, rest)
            | _, Some rest, _ => Some (Bool true, rest)
            | _, _, Some rest => Some (Bool false, rest)
            | _, _, _ =>
                match scan_digits (String a r) None with
                | (Some n, rest) => Some (Int n, rest)
                | (None, _) => None
                end
            end
      end
  end
with parse_items (fuel : nat) (s : string) : option (list value * string) :=
  match fuel with
  | O => None
  | S fuel' =>
      match parse_value fuel' s with
      | Some (v, rest) =>
          match skip_ws rest with
          | String a r =>
              if Ascii.eqb a "," then
                match parse_items fuel' r with
                | Some (l, rest') => Some (v :: l, rest')
                | None => None
                end
              else if Ascii.eqb a "]" then Some ([v], r)
              else None
          | EmptyString => None
          end
      | None => None
      end
  end
with parse_members (fuel : nat) (s : string) : option (list (string * value) * string) :=
  match fuel with
  | O => None
  | S fuel' =>
      match skip_ws s with
      | String q r =>
          if Ascii.eqb q dquote then
            match scan_string r with
            | Some (k, rest) =>
                match skip_ws rest with
                | String c r1 =>
                    if Ascii.eqb c ":" then
                      match parse_value fuel' r1 with
                      | Some (v, rest1) =>
                          match skip_ws rest1 with
                          | String a r2 =>
                              if Ascii.eqb a "," then
                                match parse_members fuel' r2 with
                                | Some (l, rest2) => Some ((k, v) :: l, rest2)
                                | None => None
                                end
                              else if Ascii.eqb a "}" then Some ([(k, v)], r2)
                              else None
                          | EmptyString => None
                          end
                      | None => None
                      end
                    else None
                | EmptyString => None
                end
            | None => None
            end
          else None
      | EmptyString => None
      end
  end.

Definition loads (s : string) : result value :=
  match parse_value (S (String.length s)) s with
  | Some (v, rest) =>
      match skip_ws rest with
      | EmptyString => Ok v
      | String _ _ => Raise JSONDecodeError
      end
  | None => Raise JSONDecodeError
  end.

#[global] Instance json : Json :=
  {| pyobj := value; empty_dict := Dict []; json_dumps := dumps; json_loads := loads |}.

(** [{"tasks": [{"id": "TASK-1"}]}] *)
Definition tasks_record : value :=
  Dict [("tasks", List [Dict [("id", Str "TASK-1")]])].

End MiniJson.

(** ** [class StorageBackend(ABC)]

    The seven operations every backend implements, over the state [S] the
    backend works on: the disk for [LocalStorage], the backend object and
    the drive for [GoogleDriveStorage]. *)

Module StorageBackend.

Class t `{Json} (S : Type) : Type := {
  load_json : string → PyM S pyobj;
  save_json : string → pyobj → PyM S unit;
  read_text : string → PyM S (option string);
  write_text : string → string → PyM S unit;
  append_text : string → string → PyM S unit;
  list_files : string → string → PyM S (list string);
  file_exists : string → PyM S bool
}.

Definition local `{Json} (self : LocalStorage.self_) : t Posix.filesystem :=
  {| load_json := LocalStorage.load_json self;
     save_json := LocalStorage.save_json self;
     read_text := LocalStorage.read_text self;
     write_text := LocalStorage.write_text self;
     append_text := LocalStorage.append_text self;
     list_files := LocalStorage.list_files self;
     file_exists := LocalStorage.file_exists self |}.

Definition drive `{Json} : t GoogleDriveStorage.self_ :=
  {| load_json := GoogleDriveStorage.load_json;
     save_json := GoogleDriveStorage.save_json;
     read_text := GoogleDriveStorage.read_text;
     write_text := GoogleDriveStorage.write_text;
     append_text := GoogleDriveStorage.append_text;
     list_files := GoogleDriveStorage.list_files;
     file_exists := GoogleDriveStorage.file_exists |}.

End StorageBackend.

(** ** [tools/context.py]: the identifier of a new decision

    The JSON-file branch of the [add_decision] tool numbers a new
    decision one above the largest number found in the identifiers
    "TECH-n" of the decisions on file.  [existing_ids] is the list
    [[d.get("id", "") for d in decisions]], for decisions whose
    identifiers are strings. *)

Module ContextTools.

(** ["0" * k] *)
Fixpoint zeros (k : nat) : string :=
  match k with
  | O => ""
  | S k' => String "0" (zeros k')
  end.

(** [f"{n:03d}"]: the decimal digits of [n], after the sign when [n] is
    negative, filled with zeros to a width of three. *)
Definition format_03d (n : Z) : string :=
  let sign := if (n <? 0)%Z then "-" else "" in
  let digits := pretty (Z.abs_N n) in
  sign +:+ zeros (3 - String.length sign - String.length digits) +:+ digits.

(** [l[1]]; Python raises [IndexError] on a shorter list, which does not
    happen where [add_decision] evaluates it: a string that starts with
    "TECH-" splits at "-" into two pieces or more. *)
Definition item1 (l : list string) : string := nth 1 l "".

Section add_decision.

(** [int(s)], with [None] for [ValueError]. *)
Variable py_int : string → option Z.

(** The body of [for did in existing_ids: ...]. *)
Definition scan_id (max_num : Z) (did : string) : Z :=
  if PyStr.startswith did "TECH-" then
    match py_int (item1 (PyStr.split "-" did)) with
    | Some n => Z.max max_num n
    | None => max_num
    end
  else max_num.

Definition max_num (existing_ids : list string) : Z :=
  fold_left scan_id existing_ids 0%Z.

Definition new_id (existing_ids : list string) : string :=
  "TECH-" +:+ format_03d (max_num existing_ids + 1).

End add_decision.

End ContextTools.

(** ** A sample deployment

    One shared drive seen through both backends: the records under
    "mcp-data", a dated log directory, and a few files the scenarios
    below need. *)

Module Examples.
Import PurePath Posix Drive.

Definition local : LocalStorage.self_ :=
  {| LocalStorage.data_dir := ["drive"; "mcp-data"];
     LocalStorage.shared_drive_root := ["drive"] |}.

(** "café" in Latin-1: the last byte is not UTF-8. *)
Definition latin1_bytes : string := "caf" +:+ String (ascii_of_nat 233) "".

Definition disk : filesystem :=
  list_to_map
    [ (["drive"], Dir);
      (["drive"; "mcp-data"], Dir);
      (["drive"; "mcp-data"; "broken.json"], File true true "{");
      (["drive"; "mcp-data"; "state.tmp"], File true true "{}");
      (["drive"; "logs"], Dir);
      (["drive"; "logs"; "2026-01-01.md"], File true true "one");
      (["drive"; "logs"; "2026-01-03.md"], File true true "three");
      (["drive"; "logs"; "2026-01-02.md"], File true true "two");
      (["drive"; "latin.txt"], File true true latin1_bytes) ].

(** The same disk after an interrupted save by another user: the
    temporary file of "tasks.json" is there, writable but not readable. *)
Definition disk_with_leftover : filesystem :=
  <[["drive"; "mcp-data"; "tasks.tmp"] := File false true "old"]> disk.

Definition folder (i : N) (n : string) (p : N) : file :=
  {| id := i; name := n; parent := p; mime_type := folder_mime;
     trashed := false; data := "" |}.

Definition text_file (i : N) (n : string) (p : N) (d : string) : file :=
  {| id := i; name := n; parent := p; mime_type := "text/plain";
     trashed := false; data := d |}.

Definition remote : GoogleDriveStorage.self_ :=
  {| GoogleDriveStorage.service_files :=
       [ folder 1 "mcp-data" 0;
         folder 2 "logs" 0;
         text_file 3 "2026-01-01.md" 2 "one";
         text_file 4 "2026-01-03.md" 2 "three";
         text_file 5 "2026-01-02.md" 2 "two";
         folder 6 "notes" 0;
         text_file 7 "foo.md.bak" 6 "old";
         text_file 8 "a.md" 6 "new";
         folder 9 "a" 0;
         folder 10 "b" 9;
         text_file 11 "broken.json" 1 "{";
         text_file 12 "latin.txt" 0 latin1_bytes ];
     GoogleDriveStorage.page_size := 1;
     GoogleDriveStorage.requests := [];
     GoogleDriveStorage.shared_drive_id := 0;
     GoogleDriveStorage._file_id_cache := ∅;
     GoogleDriveStorage._folder_id_cache := ∅ |}.

(** [int] on the strings of ASCII digits, which it reads as a decimal
    number; every other string is refused here. *)
Definition int_decimal (s : string) : option Z :=
  match MiniJson.scan_digits s None with
  | (Some n, EmptyString) => Some n
  | _ => None
  end.

End Examples.

(** * Properties *)

Import PurePath Posix.

(** ** Running monadic code *)

Ltac py_unfold :=
  cbv [mbind mret PyM_bind PyM_ret bind ret raise get put modify lift try_except] in *.

Lemma try_except_reraise {S A} (m : PyM S A) (s : S) :
  try_except m (λ e, raise e) s = m s.
Proof. py_unfold. by destruct (m s) as [[a|e] s']. Qed.

Lemma bind_ok {S A B} (m : PyM S A) (k : A → PyM S B) s a s' :
  m s = (Ok a, s') → (x ← m; k x) s = k a s'.
Proof. intros Hm. py_unfold. by rewrite Hm. Qed.

Lemma bind_raise {S A B} (m : PyM S A) (k : A → PyM S B) s e s' :
  m s = (Raise e, s') → (x ← m; k x) s = (Raise e, s').
Proof. intros Hm. py_unfold. by rewrite Hm. Qed.

(** ** Strings and paths *)

Lemma string_app_cons (a : ascii) (s t : string) :
  String a s +:+ t = String a (s +:+ t).
Proof. reflexivity. Qed.

Lemma string_app_nil_l (s : string) : "" +:+ s = s.
Proof. reflexivity. Qed.

Lemma string_app_nil_r (s : string) : s +:+ "" = s.
Proof.
  induction s as [|a s IH]; [done |].
  by rewrite string_app_cons, IH.
Qed.

Lemma string_app_assoc (a b c : string) : (a +:+ b) +:+ c = a +:+ (b +:+ c).
Proof.
  induction a as [|x a IH]; [done |].
  by rewrite !string_app_cons, IH.
Qed.

Lemma string_app_length (a b : string) :
  String.length (a +:+ b) = String.length a + String.length b.
Proof.
  induction a as [|x a IH]; [done |].
  rewrite string_app_cons. simpl. by rewrite IH.
Qed.

Lemma rpartition_tmp (stem : string) :
  PyStr.rpartition "." (stem +:+ ".tmp") = Some (stem, "tmp").
Proof.
  induction stem as [|a stem IH]; [reflexivity |].
  rewrite string_app_cons. simpl. by rewrite IH.
Qed.

Lemma name_stem_tmp (stem : string) :
  stem ≠ "" → name_stem (stem +:+ ".tmp") = stem.
Proof.
  intros Hne. unfold name_stem. rewrite rpartition_tmp.
  rewrite bool_decide_eq_true_2; [done | by split].
Qed.

Lemma name_suffix_tmp (stem : string) :
  stem ≠ "" → name_suffix (stem +:+ ".tmp") = ".tmp".
Proof.
  intros Hne. unfold name_suffix. rewrite rpartition_tmp.
  rewrite bool_decide_eq_true_2; [done | by split].
Qed.

Lemma name_nonempty_path (p : path) : name p ≠ "" → p ≠ [].
Proof. by intros Hn ->. Qed.

Lemma parent_name (p : path) : p ≠ [] → parent p ++ [name p] = p.
Proof. intros Hp. symmetry. by apply app_removelast_last. Qed.

Lemma name_snoc (d : path) (n : string) : name (d ++ [n]) = n.
Proof. unfold name. apply last_last. Qed.

Lemma parent_snoc (d : path) (n : string) : parent (d ++ [n]) = d.
Proof. unfold parent. apply removelast_last. Qed.

Lemma with_suffix_ok (p : path) (suf : string) :
  name p ≠ "" →
  with_suffix p suf = Ok (parent p ++ [name_stem (name p) +:+ suf]).
Proof. intros Hn. unfold with_suffix. by rewrite bool_decide_eq_false_2. Qed.

(** ** Files *)

Lemma stat_cons (fs : filesystem) (x : string) (p : path) :
  stat fs (x :: p) = fs !! (x :: p).
Proof. done. Qed.

Lemma stat_nonroot (fs : filesystem) (p : path) : p ≠ [] → stat fs p = fs !! p.
Proof. by destruct p. Qed.

Lemma open_write_with_ok (upd : string → string) (p : path) (fs fs' : filesystem) :
  open_write_with upd p fs = (Ok tt, fs') →
  p ≠ [] ∧ ∃ r w old, fs' = <[p := File r w (upd old)]> fs
    ∧ (stat fs p = Some (File r true old) ∧ w = true
       ∨ stat fs p = None ∧ r = true ∧ w = true ∧ old = "").
Proof.
  unfold open_write_with. intros Hw.
  destruct (stat fs (parent p)) as [[]|] eqn:Hpar; try done.
  destruct p as [|x p]; [done |]. split; [done |].
  destruct (stat fs (x :: p)) as [[r w old|]|] eqn:Hst; try done.
  - destruct w; [|done]. injection Hw as <-. exists r, true, old. auto.
  - injection Hw as <-. exists true, true, "". auto 10.
Qed.

Lemma open_write_with_stat (upd : string → string) (p : path) (fs fs' : filesystem) :
  open_write_with upd p fs = (Ok tt, fs') →
  ∃ r w old, stat fs' p = Some (File r w (upd old)).
Proof.
  intros Hw. apply open_write_with_ok in Hw as (Hp & r & w & old & -> & _).
  exists r, w, old. rewrite stat_nonroot by done. apply lookup_insert_eq.
Qed.

Lemma replace_same (p : path) (fs : filesystem) r w d :
  stat fs p = Some (File r w d) → replace p p fs = (Ok tt, fs).
Proof. intros Hst. unfold replace. rewrite Hst. by rewrite bool_decide_eq_true_2. Qed.

Lemma mkdir_from_frame (todo : list string) (base : path) (fs : filesystem) (q : path) :
  length (base ++ todo) < length q →
  (mkdir_from base todo fs).2 !! q = fs !! q.
Proof.
  revert base fs. induction todo as [|x todo IH]; intros base fs Hlen; [done |].
  simpl. rewrite length_app in Hlen. simpl in Hlen.
  assert (length ((base ++ [x]) ++ todo) < length q) as Hlen'.
  { rewrite !length_app. simpl. lia. }
  destruct (stat fs (base ++ [x])) as [[]|]; simpl; auto.
  rewrite IH by done. apply lookup_insert_ne.
  intros <-. rewrite length_app in Hlen. simpl in Hlen. lia.
Qed.

Lemma mkdir_trace_frame `{Json} (self : LocalStorage.self_)
    (todo : list string) (base : path) (fs fs' : filesystem) (q : path) :
  length (base ++ todo) < length q →
  fs' ∈ LocalStorage.mkdir_trace base todo fs →
  fs' !! q = fs !! q.
Proof.
  revert base fs. induction todo as [|x todo IH]; intros base fs Hlen Hin.
  { by apply elem_of_nil in Hin. }
  simpl in Hin. rewrite length_app in Hlen. simpl in Hlen.
  assert (length ((base ++ [x]) ++ todo) < length q) as Hlen'.
  { rewrite !length_app. simpl. lia. }
  assert (<[base ++ [x] := Dir]> fs !! q = fs !! q) as Hfresh.
  { apply lookup_insert_ne. intros <-. rewrite length_app in Hlen. simpl in Hlen. lia. }
  destruct (stat fs (base ++ [x])) as [[]|].
  - by apply elem_of_nil in Hin.
  - eauto.
  - apply elem_of_cons in Hin as [-> | Hin]; [done |].
    rewrite <- Hfresh. eauto.
Qed.

Lemma parent_shorter (p : path) : p ≠ [] → length (parent p) < length p.
Proof.
  intros Hp. rewrite <- (parent_name p Hp) at 2.
  rewrite length_app. simpl. lia.
Qed.

(** ** Atomicity of the local [save_json] (C2, C10) *)

(** Whenever the temporary path differs from the destination, a crash of
    [save_json] at any point leaves the destination as it was or holding
    the whole new text. *)
Lemma save_json_atomic_distinct_temp `{Json} (self : LocalStorage.self_)
    (filename : string) (data : pyobj) (fs fs' : filesystem) :
  let filepath := joinpath (LocalStorage.data_dir self) filename in
  with_suffix filepath ".tmp" ≠ Ok filepath →
  fs' ∈ LocalStorage.save_json_trace self filename data fs →
  stat fs' filepath = stat fs filepath
  ∨ ∃ r w, stat fs' filepath = Some (File r w (json_dumps false data)).
Proof.
  intros filepath Htmp Hin. unfold LocalStorage.save_json_trace in Hin.
  fold filepath in Hin.
  destruct (decide (filepath = [])) as [Hnil | Hne].
  { left. by rewrite Hnil. }
  rewrite !(stat_nonroot _ filepath) by done.
  assert (length (([] : path) ++ parent filepath) < length filepath) as Hlen.
  { simpl. by apply parent_shorter. }
  apply elem_of_cons in Hin as [-> | Hin]; [by left |].
  apply elem_of_app in Hin as [Hin | Hin].
  { left. by eapply mkdir_trace_frame. }
  pose proof (mkdir_from_frame (parent filepath) [] fs filepath Hlen) as Hmk.
  unfold mkdir_parents in Hin.
  destruct (mkdir_from [] (parent filepath) fs) as [[[]|e] fs1]; simpl in Hmk;
    [| by apply elem_of_nil in Hin].
  destruct (with_suffix filepath ".tmp") as [temp_path|] eqn:Hws;
    [| by apply elem_of_nil in Hin].
  assert (temp_path ≠ filepath) as Hdiff by congruence.
  destruct (open_write_text temp_path (json_dumps false data) fs1)
    as [[[]|e] fs2] eqn:Hw; [| by apply elem_of_nil in Hin].
  apply elem_of_app in Hin as [Hin | Hin].
  - left. apply list_elem_of_fmap in Hin as (k & -> & _).
    rewrite <- Hmk. unfold open_write_text, open_write_with.
    destruct (stat fs1 (parent temp_path)) as [[]|]; try done.
    destruct (stat fs1 temp_path) as [[r w old|]|]; try done.
    + destruct w; [|done]. simpl. by rewrite lookup_insert_ne.
    + simpl. by rewrite lookup_insert_ne.
  - apply list_elem_of_singleton in Hin as ->.
    pose proof Hw as Hst. apply open_write_with_stat in Hst as (r & w & old & Hst).
    apply open_write_with_ok in Hw as (Htne & r' & w' & old' & -> & _).
    unfold replace. rewrite Hst. rewrite bool_decide_eq_false_2 by done.
    set (fs2 := <[temp_path := _]> fs1) in *.
    assert (fs2 !! filepath = fs !! filepath) as Hkeep.
    { unfold fs2. rewrite lookup_insert_ne by done. done. }
    destruct (stat fs2 (parent filepath)) as [[]|]; simpl; [by left | | by left].
    rewrite (stat_nonroot _ filepath) by done.
    destruct (fs2 !! filepath) as [[]|] eqn:Hdst; simpl.
    + right. exists r, w. apply lookup_insert_eq.
    + left. congruence.
    + right. exists r, w. apply lookup_insert_eq.
Qed.

(** C2 (failing input).  [save_json("state.tmp", ...)] over an existing
    record "state.tmp" holding "{}": the temporary path is the destination
    itself, and after the first byte of the new text has been written the
    destination holds "{", which is neither the prior content nor the new
    one. *)
Theorem save_json_tmp_name_exposes_partial_write :
  let self := {| LocalStorage.data_dir := ["data"];
                 LocalStorage.shared_drive_root := [] |} in
  let fs : filesystem :=
    <[ ["data"; "state.tmp"] := File true true "{}" ]> {[ ["data"] := Dir ]} in
  let new_text := json_dumps false MiniJson.tasks_record in
  ∃ fs', fs' ∈ LocalStorage.save_json_trace self "state.tmp" MiniJson.tasks_record fs
    ∧ stat fs' ["data"; "state.tmp"] = Some (File true true "{")
    ∧ "{" ≠ "{}" ∧ "{" ≠ new_text.
Proof.
  intros self fs new_text.
  exists (<[ ["data"; "state.tmp"] := File true true "{" ]> {[ ["data"] := Dir ]}).
  split; [| split; [| split]].
  - apply list_elem_of_lookup. exists 2. vm_compute. reflexivity.
  - vm_compute. reflexivity.
  - discriminate.
  - vm_compute. discriminate.
Qed.

(** ** The temporary path of [save_json] (C10) *)

(** C10 (amended).  The temporary path of [save_json] is the destination
    with the final suffix of its last component replaced by ".tmp"
    ("tasks.json" gives "tasks.tmp").  When the last component is a
    non-empty stem followed by ".tmp", the temporary path is the
    destination, and [save_json] is the direct write to the destination
    (the rename that follows is the identity).  Two record names with the
    same directory and the same stem have the same temporary path. *)
Theorem save_json_temp_path `{Json} (self : LocalStorage.self_)
    (filename : string) (data : pyobj) (fs : filesystem) :
  let filepath := joinpath (LocalStorage.data_dir self) filename in
  name filepath ≠ "" →
  with_suffix filepath ".tmp"
    = Ok (parent filepath ++ [name_stem (name filepath) +:+ ".tmp"])
  ∧ with_suffix (joinpath (LocalStorage.data_dir self) "tasks.json") ".tmp"
    = Ok (LocalStorage.data_dir self ++ ["tasks.tmp"])
  ∧ (∀ stem, stem ≠ "" → name filepath = stem +:+ ".tmp" →
       with_suffix filepath ".tmp" = Ok filepath
       ∧ LocalStorage.save_json self filename data fs
         = (mkdir_parents (parent filepath);;
            open_write_text filepath (json_dumps false data)) fs)
  ∧ (∀ filename',
       let filepath' := joinpath (LocalStorage.data_dir self) filename' in
       name filepath' ≠ "" →
       parent filepath' = parent filepath →
       name_stem (name filepath') = name_stem (name filepath) →
       with_suffix filepath' ".tmp" = with_suffix filepath ".tmp").
Proof.
  intros filepath Hname. split; [by apply with_suffix_ok |]. split.
  { change (joinpath (LocalStorage.data_dir self) "tasks.json")
      with (LocalStorage.data_dir self ++ ["tasks.json"]).
    rewrite with_suffix_ok; rewrite name_snoc; [| done].
    by rewrite parent_snoc. }
  split.
  - intros stem Hstem Hn.
    assert (with_suffix filepath ".tmp" = Ok filepath) as Hws.
    { rewrite with_suffix_ok by done. rewrite Hn, name_stem_tmp by done.
      rewrite <- Hn. f_equal. apply parent_name. by apply name_nonempty_path. }
    split; [done |].
    unfold LocalStorage.save_json. fold filepath.
    rewrite try_except_reraise, Hws. py_unfold.
    destruct (mkdir_parents (parent filepath) fs) as [[[]|e] fs1]; [| done].
    destruct (open_write_text filepath (json_dumps false data) fs1)
      as [[[]|e] fs2] eqn:Hw; [| done].
    apply open_write_with_stat in Hw as (r & w & old & Hst).
    by erewrite replace_same.
  - intros filename' filepath' Hname' Hpar Hstem.
    rewrite !with_suffix_ok by done. by rewrite Hpar, Hstem.
Qed.

Lemma save_json_temp_path_witness :
  with_suffix ["data"; "state.tmp"] ".tmp" = Ok ["data"; "state.tmp"].
Proof.
  pose (self := {| LocalStorage.data_dir := ["data"];
                   LocalStorage.shared_drive_root := [] |}).
  destruct (@save_json_temp_path MiniJson.json self "state.tmp" MiniJson.tasks_record ∅)
    as (_ & _ & Hin_place & _).
  - vm_compute. discriminate.
  - destruct (Hin_place "state") as [Hws _]; [discriminate | reflexivity |].
    exact Hws.
Defined.

(** C10 (counterexample).  The record name ".tmp" ends in ".tmp", but
    [pathlib] sees a name without suffix there: the temporary path is
    ".tmp.tmp", not the destination. *)
Lemma dot_tmp_has_distinct_temp_path :
  ¬ (∀ (d : path) (n : string),
       PyStr.endswith n ".tmp" = true →
       with_suffix (joinpath d n) ".tmp" = Ok (joinpath d n)).
Proof.
  intros Hall. specialize (Hall ["data"] ".tmp" eq_refl).
  vm_compute in Hall. discriminate.
Qed.

(** ** Reading on the local backend (C3, C7) *)

Lemma read_bytes_state (p : path) (fs : filesystem) : (read_bytes p fs).2 = fs.
Proof.
  unfold read_bytes. destruct (stat fs p) as [[[] w d|]|]; reflexivity.
Qed.

Lemma open_read_text_state (p : path) (enc : Codec.encoding) (fs : filesystem) :
  (open_read_text p enc fs).2 = fs.
Proof.
  unfold open_read_text. py_unfold.
  pose proof (read_bytes_state p fs) as Hrb.
  destruct (read_bytes p fs) as [[b|e] fs1]; simpl in *; subst; [| done].
  by destruct (Codec.decode enc b).
Qed.

Lemma open_read_text_file (p : path) (enc : Codec.encoding) (fs : filesystem) w d :
  stat fs p = Some (File true w d) →
  open_read_text p enc fs
  = (match Codec.decode enc d with
     | Ok t => Ok (Codec.universal_newlines t)
     | Raise e => Raise e
     end, fs).
Proof.
  intros Hst. unfold open_read_text, read_bytes. py_unfold. rewrite Hst.
  by destruct (Codec.decode enc d).
Qed.

Lemma path_exists_true (fs : filesystem) (p : path) n :
  stat fs p = Some n → path_exists fs p = true.
Proof. intros Hst. unfold path_exists. rewrite Hst. by apply bool_decide_eq_true_2. Qed.

Lemma path_exists_false (fs : filesystem) (p : path) :
  stat fs p = None → path_exists fs p = false.
Proof.
  intros Hst. unfold path_exists. rewrite Hst.
  apply bool_decide_eq_false_2. by intros [? ?].
Qed.

(** The local [load_json] never raises and never changes the disk. *)
Lemma local_load_json_total `{Json} (self : LocalStorage.self_)
    (filename : string) (fs : filesystem) :
  ∃ v, LocalStorage.load_json self filename fs = (Ok v, fs).
Proof.
  unfold LocalStorage.load_json.
  unfold try_except, mbind, mret, PyM_bind, PyM_ret, bind, ret, get, lift.
  destruct (path_exists fs _); [| eauto].
  rewrite (surjective_pairing (open_read_text _ _ fs)), open_read_text_state.
  destruct (open_read_text _ _ fs).1 as [t|e]; simpl.
  - destruct (json_loads t) as [v|e]; [eauto |]. destruct e; eauto.
  - destruct e; eauto.
Qed.

(** The local [load_json] gives the empty mapping for a record that is
    absent, that cannot be read (no permission, a directory, bytes that
    are not UTF-8) or whose text is not JSON. *)
Lemma local_load_json_forgiving `{Json} (self : LocalStorage.self_)
    (filename : string) (fs : filesystem) :
  let filepath := joinpath (LocalStorage.data_dir self) filename in
  (stat fs filepath = None
   ∨ stat fs filepath = Some Dir
   ∨ (∃ w d, stat fs filepath = Some (File false w d))
   ∨ (∃ w d, stat fs filepath = Some (File true w d) ∧ Codec.valid_utf8 d = false)
   ∨ (∃ w d e, stat fs filepath = Some (File true w d) ∧ Codec.valid_utf8 d = true
        ∧ json_loads (Codec.universal_newlines d) = Raise e)) →
  LocalStorage.load_json self filename fs = (Ok empty_dict, fs).
Proof.
  intros filepath Hcase. unfold LocalStorage.load_json. fold filepath.
  destruct Hcase as [Hst | [Hst | [(w & d & Hst) | [(w & d & Hst & Hbad) | (w & d & e & Hst & Hgood & Hjson)]]]].
  - py_unfold. by rewrite (path_exists_false _ _ Hst).
  - py_unfold. rewrite (path_exists_true _ _ _ Hst).
    unfold open_read_text, read_bytes. py_unfold. by rewrite Hst.
  - py_unfold. rewrite (path_exists_true _ _ _ Hst).
    unfold open_read_text, read_bytes. py_unfold. by rewrite Hst.
  - unfold try_except, mbind, PyM_bind, bind, get.
    rewrite (path_exists_true _ _ _ Hst), (open_read_text_file _ _ _ _ _ Hst).
    simpl. by rewrite Hbad.
  - unfold try_except, mbind, PyM_bind, bind, get.
    rewrite (path_exists_true _ _ _ Hst), (open_read_text_file _ _ _ _ _ Hst).
    simpl. rewrite Hgood. unfold lift. rewrite Hjson. by destruct e.
Qed.

(** The local [read_text]: none for an absent file; the UTF-8 text when
    the bytes decode; otherwise one more attempt, as Latin-1, whose
    result is returned; none when the file cannot be opened. *)
Lemma local_read_text_spec (self : LocalStorage.self_) (path : string) (fs : filesystem) :
  let filepath := joinpath (LocalStorage.shared_drive_root self) path in
  LocalStorage.read_text self path fs
  = (Ok (match stat fs filepath with
         | None => None
         | Some Dir => None
         | Some (File false _ _) => None
         | Some (File true _ d) =>
             if Codec.valid_utf8 d then Some (Codec.universal_newlines d)
             else match (open_read_text filepath Codec.Latin1 fs).1 with
                  | Ok t => Some t
                  | Raise _ => None
                  end
         end), fs).
Proof.
  intros filepath. unfold LocalStorage.read_text. fold filepath.
  destruct (stat fs filepath) as [[[] w d|]|] eqn:Hst.
  - unfold try_except at 1. unfold mbind, PyM_bind, bind, get.
    rewrite (path_exists_true _ _ _ Hst), (open_read_text_file _ _ _ _ _ Hst).
    simpl. destruct (Codec.valid_utf8 d); [done |].
    unfold try_except. unfold mret, PyM_ret, ret.
    rewrite (surjective_pairing (open_read_text filepath Codec.Latin1 fs)).
    rewrite open_read_text_state.
    by destruct (open_read_text filepath Codec.Latin1 fs).1.
  - py_unfold. rewrite (path_exists_true _ _ _ Hst).
    unfold open_read_text, read_bytes. py_unfold. by rewrite Hst.
  - py_unfold. rewrite (path_exists_true _ _ _ Hst).
    unfold open_read_text, read_bytes. py_unfold. by rewrite Hst.
  - py_unfold. by rewrite (path_exists_false _ _ Hst).
Qed.

Lemma local_read_text_fallback (self : LocalStorage.self_) (path : string)
    (fs : filesystem) w d :
  let filepath := joinpath (LocalStorage.shared_drive_root self) path in
  stat fs filepath = Some (File true w d) →
  Codec.valid_utf8 d = false →
  LocalStorage.read_text self path fs
  = (Ok (Some (Codec.universal_newlines (Codec.latin1_to_text d))), fs).
Proof.
  intros filepath Hst Hbad. rewrite local_read_text_spec. fold filepath.
  rewrite Hst, Hbad. by rewrite (open_read_text_file _ _ _ _ _ Hst).
Qed.

(** ** Writing on the local backend (C1, C4, C8) *)

Lemma prefix_cons_nonempty (x : string) (todo k : list string) :
  k ≠ [] → k `prefix_of` (x :: todo) → ∃ k', k = x :: k' ∧ k' `prefix_of` todo.
Proof.
  intros Hk [j Hj]. destruct k as [|y k']; [done |].
  simpl in Hj. injection Hj as -> ->. exists k'. split; [done |]. by exists j.
Qed.

Lemma snoc_app_cons (base : path) (x : string) (k : list string) :
  (base ++ [x]) ++ k = base ++ x :: k.
Proof. by rewrite <- app_assoc. Qed.

Lemma snoc_ne_longer (base : path) (x : string) (k : list string) :
  k ≠ [] → base ++ [x] ≠ (base ++ [x]) ++ k.
Proof.
  intros Hk Heq. apply (f_equal length) in Heq.
  rewrite !length_app in Heq. destruct k; [done |]. simpl in Heq. lia.
Qed.

(** With no regular file in the way, [mkdir(parents=True, exist_ok=True)]
    succeeds, leaves a directory at every step of the path and touches
    nothing else. *)
Lemma mkdir_from_ok (todo : list string) (base : path) (fs : filesystem) :
  (∀ k r w d, k ≠ [] → k `prefix_of` todo → fs !! (base ++ k) ≠ Some (File r w d)) →
  ∃ fs1, mkdir_from base todo fs = (Ok tt, fs1)
    ∧ (∀ k, k ≠ [] → k `prefix_of` todo → fs1 !! (base ++ k) = Some Dir)
    ∧ (∀ q, (∀ k, k ≠ [] → k `prefix_of` todo → q ≠ base ++ k) → fs1 !! q = fs !! q).
Proof.
  revert base fs. induction todo as [|x todo IH]; intros base fs Hfree.
  { exists fs. split; [done |]. split; [| done].
    intros k Hk Hpre. apply prefix_nil_inv in Hpre. done. }
  simpl. rewrite stat_nonroot by (by destruct base).
  assert (∀ fs0 : filesystem,
            (∀ q, q ≠ base ++ [x] → fs0 !! q = fs !! q) →
            fs0 !! (base ++ [x]) = Some Dir →
            ∃ fs1, mkdir_from (base ++ [x]) todo fs0 = (Ok tt, fs1)
              ∧ (∀ k, k ≠ [] → k `prefix_of` (x :: todo) → fs1 !! (base ++ k) = Some Dir)
              ∧ (∀ q, (∀ k, k ≠ [] → k `prefix_of` (x :: todo) → q ≠ base ++ k)
                      → fs1 !! q = fs !! q)) as Hstep.
  { intros fs0 Hsame Hdir.
    destruct (IH (base ++ [x]) fs0) as (fs1 & Hrun & Hdirs & Hframe).
    { intros k r w d Hk Hpre. rewrite Hsame by (by apply not_eq_sym, snoc_ne_longer).
      rewrite snoc_app_cons. apply Hfree; [done |]. by apply prefix_cons. }
    exists fs1. split; [done |]. split.
    - intros k Hk Hpre. apply prefix_cons_nonempty in Hpre as (k' & -> & Hpre'); [| done].
      rewrite <- snoc_app_cons. destruct (decide (k' = [])) as [-> | Hk'].
      + rewrite app_nil_r. rewrite Hframe; [done |].
        intros j Hj _. by apply snoc_ne_longer.
      + by apply Hdirs.
    - intros q Hq. rewrite Hframe.
      + apply Hsame. apply (Hq [x]); [done |]. apply prefix_cons, prefix_nil.
      + intros k Hk Hpre. rewrite snoc_app_cons. apply Hq; [done |]. by apply prefix_cons. }
  destruct (fs !! (base ++ [x])) as [[r w d|]|] eqn:Hst.
  - exfalso. eapply (Hfree [x]); [done | apply prefix_cons, prefix_nil | done].
  - by apply Hstep.
  - apply Hstep.
    + intros q Hq. by rewrite lookup_insert_ne.
    + apply lookup_insert_eq.
Qed.


(** On the disks modelled here (every name is acceptable, every
    directory may be written) the local [write_text] creates the missing
    directories and writes the file, unless a regular file stands where a
    directory is needed, or the target is a directory or a file that may
    not be written. *)
Lemma local_write_text_creates_parents (self : LocalStorage.self_)
    (path content : string) (fs : filesystem) :
  let filepath := joinpath (LocalStorage.shared_drive_root self) path in
  filepath ≠ [] →
  (∀ k r w d, k ≠ [] → k `prefix_of` parent filepath → fs !! k ≠ Some (File r w d)) →
  (fs !! filepath = None ∨ ∃ r d, fs !! filepath = Some (File r true d)) →
  ∃ fs' r,
    LocalStorage.write_text self path content fs = (Ok tt, fs')
    ∧ fs' !! filepath = Some (File r true content)
    ∧ (∀ k, k ≠ [] → k `prefix_of` parent filepath → fs' !! k = Some Dir)
    ∧ (∀ q, ¬ q `prefix_of` filepath → fs' !! q = fs !! q).
Proof.
  intros filepath Hne Hfree Htarget.
  destruct (mkdir_from_ok (parent filepath) [] fs Hfree) as (fs1 & Hmk & Hdirs & Hframe).
  simpl in Hdirs, Hframe.
  assert (parent filepath `prefix_of` filepath) as Hpp.
  { exists [name filepath]. symmetry. by apply parent_name. }
  assert (fs1 !! filepath = fs !! filepath) as Hsame.
  { apply Hframe. intros k _ Hpre Heq. simpl in Heq.
    apply prefix_length in Hpre. rewrite <- Heq in Hpre.
    pose proof (parent_shorter filepath Hne). lia. }
  assert (stat fs1 (parent filepath) = Some Dir) as Hpar.
  { destruct (parent filepath) as [|y l] eqn:Hp; [done |].
    rewrite stat_cons. by apply Hdirs. }
  assert (∀ r,
             <[filepath := File r true content]> fs1 !! filepath
             = Some (File r true content)
             ∧ (∀ k, k ≠ [] → k `prefix_of` parent filepath →
                     <[filepath := File r true content]> fs1 !! k = Some Dir)
             ∧ (∀ q, ¬ q `prefix_of` filepath →
                     <[filepath := File r true content]> fs1 !! q = fs !! q)) as Hpost.
  { intros r. split; [apply lookup_insert_eq |]. split.
    - intros k Hk Hpre. rewrite lookup_insert_ne; [by apply Hdirs |].
      intros <-. apply prefix_length in Hpre.
      pose proof (parent_shorter filepath Hne). lia.
    - intros q Hq. rewrite lookup_insert_ne by (by intros <-).
      apply Hframe. intros k _ Hpre Heq. simpl in Heq. apply Hq.
      rewrite Heq. by etrans. }
  unfold LocalStorage.write_text. fold filepath.
  rewrite try_except_reraise. unfold mbind, PyM_bind, bind, mkdir_parents.
  rewrite Hmk. unfold open_write_text, open_write_with.
  rewrite Hpar, stat_nonroot, Hsame by done.
  destruct Htarget as [-> | (r & d & ->)].
  - exists (<[filepath := File true true content]> fs1), true. by split.
  - exists (<[filepath := File r true content]> fs1), r. by split.
Qed.

(** A [mkdir] that returns has left a directory at every step, and has
    touched nothing else. *)
Lemma mkdir_from_post (todo : list string) (base : path) (fs fs1 : filesystem) :
  mkdir_from base todo fs = (Ok tt, fs1) →
  (∀ k, k ≠ [] → k `prefix_of` todo → fs1 !! (base ++ k) = Some Dir)
  ∧ (∀ q, (∀ k, k ≠ [] → k `prefix_of` todo → q ≠ base ++ k) → fs1 !! q = fs !! q).
Proof.
  revert base fs. induction todo as [|x todo IH]; intros base fs Hrun.
  { injection Hrun as <-. split; [| done].
    intros k Hk Hpre. by apply prefix_nil_inv in Hpre. }
  simpl in Hrun. rewrite stat_nonroot in Hrun by (by destruct base).
  assert (∀ fs0 : filesystem,
            mkdir_from (base ++ [x]) todo fs0 = (Ok tt, fs1) →
            fs0 !! (base ++ [x]) = Some Dir →
            (∀ q, q ≠ base ++ [x] → fs0 !! q = fs !! q) →
            (∀ k, k ≠ [] → k `prefix_of` (x :: todo) → fs1 !! (base ++ k) = Some Dir)
            ∧ (∀ q, (∀ k, k ≠ [] → k `prefix_of` (x :: todo) → q ≠ base ++ k)
                    → fs1 !! q = fs !! q)) as Hstep.
  { intros fs0 Hrun0 Hdir Hsame. destruct (IH _ _ Hrun0) as [Hdirs Hframe]. split.
    - intros k Hk Hpre. apply prefix_cons_nonempty in Hpre as (k' & -> & Hpre'); [| done].
      rewrite <- snoc_app_cons. destruct (decide (k' = [])) as [-> | Hk'].
      + rewrite app_nil_r. rewrite Hframe; [done |].
        intros j Hj _. by apply snoc_ne_longer.
      + by apply Hdirs.
    - intros q Hq. rewrite Hframe.
      + apply Hsame. apply (Hq [x]); [done |]. apply prefix_cons, prefix_nil.
      + intros k Hk Hpre. rewrite snoc_app_cons. apply Hq; [done |]. by apply prefix_cons. }
  destruct (fs !! (base ++ [x])) as [[r w d|]|] eqn:Hst; [done | |].
  - by apply (Hstep fs).
  - apply (Hstep _ Hrun).
    + apply lookup_insert_eq.
    + intros q Hq. by rewrite lookup_insert_ne.
Qed.

(** Where the directories are, [mkdir] does nothing. *)
Lemma mkdir_from_idem (todo : list string) (base : path) (fs : filesystem) :
  (∀ k, k ≠ [] → k `prefix_of` todo → fs !! (base ++ k) = Some Dir) →
  mkdir_from base todo fs = (Ok tt, fs).
Proof.
  revert base. induction todo as [|x todo IH]; intros base Hdirs; [done |].
  simpl. rewrite stat_nonroot by (by destruct base).
  rewrite (Hdirs [x]) by (done || apply prefix_cons, prefix_nil).
  apply IH. intros k Hk Hpre. rewrite snoc_app_cons.
  apply Hdirs; [done |]. by apply prefix_cons.
Qed.

Lemma filepath_not_parent_prefix (filepath k : path) :
  filepath ≠ [] → k `prefix_of` PurePath.parent filepath → filepath ≠ k.
Proof.
  intros Hne Hpre ->. apply prefix_length in Hpre.
  pose proof (parent_shorter k Hne). lia.
Qed.

(** What a [write_text] or [append_text] that returns has done. *)
Lemma local_write_with_ok (upd : string → string) (filepath : path) (fs fs' : filesystem) :
  (mkdir_parents (PurePath.parent filepath);; open_write_with upd filepath) fs = (Ok tt, fs') →
  filepath ≠ []
  ∧ ∃ fs1 r old,
      mkdir_parents (PurePath.parent filepath) fs = (Ok tt, fs1)
      ∧ fs' = <[filepath := File r true (upd old)]> fs1
      ∧ fs1 !! filepath = fs !! filepath
      ∧ (fs !! filepath = Some (File r true old)
         ∨ fs !! filepath = None ∧ r = true ∧ old = "").
Proof.
  unfold mbind, PyM_bind, bind. intros Hrun.
  destruct (mkdir_parents (PurePath.parent filepath) fs) as [[[]|e] fs1] eqn:Hmk; [| done].
  apply open_write_with_ok in Hrun as (Hne & r & w & old & -> & Hcase).
  split; [done |]. exists fs1, r, old. split; [done |].
  assert (fs1 !! filepath = fs !! filepath) as Hsame.
  { pose proof (mkdir_from_frame (PurePath.parent filepath) [] fs filepath) as Hfr.
    unfold mkdir_parents in Hmk. rewrite Hmk in Hfr. apply Hfr. simpl.
    by apply parent_shorter. }
  rewrite stat_nonroot, Hsame in Hcase by done.
  destruct Hcase as [[Hold ->] | (Hnone & -> & -> & ->)]; by repeat split; auto.
Qed.

Lemma mkdir_parents_dirs (filepath : path) (fs fs1 : filesystem) :
  mkdir_parents (PurePath.parent filepath) fs = (Ok tt, fs1) →
  stat fs1 (PurePath.parent filepath) = Some Dir
  ∧ (∀ k, k ≠ [] → k `prefix_of` PurePath.parent filepath → fs1 !! k = Some Dir)
  ∧ (∀ q, ¬ q `prefix_of` PurePath.parent filepath → fs1 !! q = fs !! q).
Proof.
  intros Hmk. apply mkdir_from_post in Hmk as [Hdirs Hframe]. simpl in *.
  split; [| split; [done |]].
  - destruct (PurePath.parent filepath) as [|y l] eqn:Hp; [done |].
    rewrite stat_cons. by apply Hdirs.
  - intros q Hq. apply Hframe. by intros k _ Hpre ->.
Qed.


Lemma replace_ok (src dst : path) (fs fs' : filesystem) r w d :
  stat fs src = Some (File r w d) →
  replace src dst fs = (Ok tt, fs') →
  stat fs' dst = Some (File r w d).
Proof.
  intros Hsrc. unfold replace. rewrite Hsrc.
  case_bool_decide as Heq.
  - intros [= <-]. by rewrite <- Heq.
  - destruct (stat fs (parent dst)) as [[]|]; try done.
    destruct dst as [|x dst]; [done |]. rewrite !stat_cons.
    destruct (fs !! (x :: dst)) as [[]|]; try done;
      intros [= <-]; apply lookup_insert_eq.
Qed.

Lemma local_load_json_file `{Json} (self : LocalStorage.self_)
    (filename : string) (fs : filesystem) w d :
  stat fs (joinpath (LocalStorage.data_dir self) filename) = Some (File true w d) →
  Codec.valid_utf8 d = true →
  LocalStorage.load_json self filename fs
  = (Ok (match json_loads (Codec.universal_newlines d) with
         | Ok v => v
         | Raise _ => empty_dict
         end), fs).
Proof.
  intros Hst Hvalid. unfold LocalStorage.load_json.
  unfold try_except, mbind, PyM_bind, bind, get.
  rewrite (path_exists_true _ _ _ Hst), (open_read_text_file _ _ _ _ _ Hst).
  simpl. rewrite Hvalid. unfold lift.
  destruct (json_loads (Codec.universal_newlines d)) as [v|e]; [done |].
  by destruct e.
Qed.

(** On the local backend, a record saved without error is the record
    loaded next. *)
Lemma local_save_then_load `{Json} (self : LocalStorage.self_)
    (filename : string) (data : pyobj) (fs : filesystem) :
  let filepath := joinpath (LocalStorage.data_dir self) filename in
  let saved := LocalStorage.save_json self filename data fs in
  Codec.valid_utf8 (json_dumps false data) = true →
  json_loads (Codec.universal_newlines (json_dumps false data)) = Ok data →
  (∀ t w d, with_suffix filepath ".tmp" = Ok t → stat fs t ≠ Some (File false w d)) →
  saved.1 = Ok tt →
  LocalStorage.load_json self filename saved.2 = (Ok data, saved.2).
Proof.
  intros filepath saved Hvalid Hjson Hreadable Hsaved.
  assert (∃ w, stat saved.2 filepath = Some (File true w (json_dumps false data)))
    as [w Hst].
  { revert Hsaved. unfold saved, LocalStorage.save_json. fold filepath.
    rewrite try_except_reraise. unfold mbind, PyM_bind, bind, lift, mkdir_parents.
    pose proof (λ q, mkdir_from_frame (parent filepath) [] fs q) as Hmk.
    destruct (mkdir_from [] (parent filepath) fs) as [[[]|e] fs1]; [| done].
    destruct (with_suffix filepath ".tmp") as [temp_path|e] eqn:Hws; [| done].
    destruct (open_write_text temp_path (json_dumps false data) fs1)
      as [[[]|e] fs2] eqn:Hw; [| done].
    pose proof Hw as Hw'.
    apply open_write_with_ok in Hw' as (Htne & r & w & old & Hfs2 & Hcase).
    assert (r = true) as ->.
    { destruct Hcase as [[Hold _] | (_ & -> & _)]; [| done].
      destruct r; [done |]. exfalso.
      apply (Hreadable temp_path true old eq_refl).
      rewrite stat_nonroot in Hold |- * by done. rewrite <- Hold. symmetry.
      apply Hmk. simpl.
      assert (name filepath ≠ "") as Hn.
      { intros Hn. unfold with_suffix in Hws. by rewrite bool_decide_eq_true_2 in Hws. }
      rewrite with_suffix_ok in Hws by done. injection Hws as <-.
      rewrite length_app. simpl. lia. }
    apply open_write_with_stat in Hw as (r' & w' & old' & Hst2).
    assert (stat fs2 temp_path = Some (File true w (json_dumps false data))) as Hst.
    { rewrite Hfs2, stat_nonroot by done. apply lookup_insert_eq. }
    destruct (replace temp_path filepath fs2) as [[[]|e] fs3] eqn:Hrep; [| done].
    intros _. exists w. simpl. by eapply replace_ok. }
  rewrite (local_load_json_file _ _ _ _ _ Hst Hvalid). by rewrite Hjson.
Qed.

(** ** The remote backend: outcomes do not depend on the request log *)

Import Drive GoogleDriveStorage.

Lemma store_eq_fields (st st' : self_) :
  store st = store st' →
  service_files st = service_files st' ∧ page_size st = page_size st'
  ∧ shared_drive_id st = shared_drive_id st'
  ∧ _file_id_cache st = _file_id_cache st'
  ∧ _folder_id_cache st = _folder_id_cache st'.
Proof. unfold store. intros [= -> -> -> -> ->]. done. Qed.

Lemma store_with_request (r : request) (st : self_) :
  store (with_request r st) = store st.
Proof. done. Qed.

Lemma same_outcome_refl {A} (x : result A * self_) : same_outcome x x.
Proof. done. Qed.

Lemma same_outcome_trans {A} (x y z : result A * self_) :
  same_outcome x y → same_outcome y z → same_outcome x z.
Proof. intros [] []. split; congruence. Qed.

Lemma same_outcome_sym {A} (x y : result A * self_) :
  same_outcome x y → same_outcome y x.
Proof. intros []. by split. Qed.

Lemma respects_ret {A} (a : A) : respects (mret a).
Proof. intros st st' Hst. by split. Qed.

Lemma respects_raise {A} (e : exn) : respects (@raise self_ A e).
Proof. intros st st' Hst. by split. Qed.

Lemma respects_lift {A} (r : result A) : respects (lift r).
Proof. intros st st' Hst. by split. Qed.

Lemma respects_bind {A B} (m : PyM self_ A) (k : A → PyM self_ B) :
  respects m → (∀ a, respects (k a)) → respects (x ← m; k x).
Proof.
  intros Hm Hk st st' Hst. unfold mbind, PyM_bind, bind.
  destruct (Hm st st' Hst) as [Hr Hs].
  destruct (m st) as [[a|e] s1], (m st') as [[a'|e'] s1']; simpl in *; try done.
  - injection Hr as <-. by apply Hk.
  - injection Hr as <-. split; [done | exact Hs].
Qed.

Lemma respects_try_except {A} (m : PyM self_ A) (h : exn → PyM self_ A) :
  respects m → (∀ e, respects (h e)) → respects (try_except m h).
Proof.
  intros Hm Hh st st' Hst. unfold try_except.
  destruct (Hm st st' Hst) as [Hr Hs].
  destruct (m st) as [[a|e] s1], (m st') as [[a'|e'] s1']; simpl in *; try done.
  injection Hr as <-. by apply Hh.
Qed.

Lemma respects_get_bind {B} (k : self_ → PyM self_ B) :
  (∀ st st', store st = store st' → same_outcome (k st st) (k st' st')) →
  respects (st ← get; k st).
Proof. intros Hk st st' Hst. by apply Hk. Qed.

Lemma respects_modify (f : self_ → self_) :
  (∀ st st', store st = store st' → store (f st) = store (f st')) →
  respects (modify f).
Proof. intros Hf st st' Hst. split; [done |]. by apply Hf. Qed.

Lemma respects_cache_file (path : string) (i : N) : respects (modify (cache_file path i)).
Proof.
  apply respects_modify. intros st st' Hst.
  apply store_eq_fields in Hst as (? & ? & ? & ? & ?). unfold store. simpl. congruence.
Qed.

Lemma respects_cache_folder (path : string) (i : N) :
  respects (modify (cache_folder path i)).
Proof.
  apply respects_modify. intros st st' Hst.
  apply store_eq_fields in Hst as (? & ? & ? & ? & ?). unfold store. simpl. congruence.
Qed.

Lemma respects_files_list (q : query) : respects (files_list q).
Proof.
  intros st st' Hst. pose proof Hst as Hst'.
  apply store_eq_fields in Hst as (Hf & _). unfold files_list. split; simpl.
  - by rewrite Hf.
  - done.
Qed.

Lemma respects_files_get_media (i : N) : respects (files_get_media i).
Proof.
  intros st st' Hst. pose proof Hst as Hst'.
  apply store_eq_fields in Hst as (Hf & _). unfold files_get_media. rewrite Hf.
  destruct (lookup_id (service_files st') i) as [f|]; [| by split].
  destruct (is_folder f); by split.
Qed.

Lemma respects_files_update (i : N) (content : string) : respects (files_update i content).
Proof.
  intros st st' Hst. pose proof Hst as Hst'.
  apply store_eq_fields in Hst as (Hf & ? & ? & ? & ?). unfold files_update. rewrite Hf.
  destruct (lookup_id (service_files st') i) as [f|]; [| by split].
  destruct (is_folder f); [by split |].
  split; [done |]. unfold store. simpl. congruence.
Qed.

Lemma respects_files_create (n : string) (parent_id : N) (mime content : string) :
  respects (files_create n parent_id mime content).
Proof.
  intros st st' Hst. pose proof Hst as Hst'.
  apply store_eq_fields in Hst as (Hf & ? & Hd & ? & ?).
  unfold files_create, folder_exists. rewrite Hf, Hd.
  destruct (_ || _); [| by split].
  split; [done |]. unfold store. simpl. congruence.
Qed.

Lemma respects_resolve_parts (folder_path : string) (parts rest : list string) (parent_id : N) :
  respects (resolve_parts folder_path parts rest parent_id).
Proof.
  revert parent_id. induction rest as [|part rest IH]; intros parent_id.
  { apply respects_ret. }
  simpl. apply respects_get_bind. intros st st' Hst.
  pose proof Hst as Hfields. apply store_eq_fields in Hfields as (_ & _ & _ & _ & ->).
  destruct (_folder_id_cache st' !! _) as [cached|]; [by apply IH |].
  revert st st' Hst. apply respects_bind; [apply respects_files_list |].
  intros [|f files]; [apply respects_raise |].
  apply respects_bind; [apply respects_cache_folder | intros _; apply IH].
Qed.

Lemma respects_resolve_folder_id (folder_path : string) :
  respects (_resolve_folder_id folder_path).
Proof.
  unfold _resolve_folder_id. apply respects_get_bind. intros st st' Hst.
  pose proof Hst as Hfields. apply store_eq_fields in Hfields as (_ & _ & -> & _ & ->).
  case_bool_decide; [by split |].
  destruct (_folder_id_cache st' !! folder_path); [by split |].
  by apply respects_resolve_parts.
Qed.

Lemma respects_unless_not_found {A} (m : PyM self_ A) :
  respects m → respects (unless_not_found m).
Proof.
  intros Hm. unfold unless_not_found. apply respects_try_except.
  - apply respects_bind; [done | intros a; apply respects_ret].
  - intros []; first [apply respects_ret | apply respects_raise].
Qed.

Lemma respects_resolve_file_id (path : string) : respects (_resolve_file_id path).
Proof.
  unfold _resolve_file_id. apply respects_get_bind. intros st st' Hst.
  pose proof Hst as Hfields. apply store_eq_fields in Hfields as (_ & _ & _ & -> & _).
  destruct (_file_id_cache st' !! path); [by split |].
  destruct (folder_and_name path) as [folder_path filename].
  revert st st' Hst. apply respects_bind.
  { apply respects_unless_not_found, respects_resolve_folder_id. }
  intros [parent_id|]; [| apply respects_ret].
  apply respects_bind; [apply respects_files_list |].
  intros [|f files]; [apply respects_ret |].
  apply respects_bind; [apply respects_cache_file | intros _; apply respects_ret].
Qed.

Lemma respects_upload_content (path content mime : string) :
  respects (_upload_content path content mime).
Proof.
  unfold _upload_content. apply respects_bind; [apply respects_resolve_file_id |].
  intros [i|].
  - apply respects_bind; [apply respects_files_update | intros _; apply respects_ret].
  - destruct (folder_and_name path) as [folder_path filename].
    apply respects_bind; [apply respects_resolve_folder_id |]. intros parent_id.
    apply respects_bind; [apply respects_files_create |]. intros new_id.
    apply respects_bind; [apply respects_cache_file | intros _; apply respects_ret].
Qed.

(** ** Splitting and joining *)

Lemma split_nonempty (c : ascii) (s : string) : PyStr.split c s ≠ [].
Proof.
  destruct s as [|a r]; [done |]. simpl.
  destruct (Ascii.eqb a c); [done |]. by destruct (PyStr.split c r).
Qed.

Lemma join_cons (sep x : string) (y : string) (r : list string) :
  PyStr.join sep (x :: y :: r) = x +:+ sep +:+ PyStr.join sep (y :: r).
Proof. reflexivity. Qed.

Lemma join_split (c : ascii) (s : string) :
  PyStr.join (String c "") (PyStr.split c s) = s.
Proof.
  induction s as [|a r IH]; [done |]. simpl.
  pose proof (split_nonempty c r) as Hne.
  destruct (Ascii.eqb_spec a c) as [-> | Hac].
  - destruct (PyStr.split c r) as [|h t]; [done |].
    rewrite join_cons, IH. reflexivity.
  - destruct (PyStr.split c r) as [|h t]; [done |].
    destruct t as [|h' t].
    + simpl in *. by rewrite IH.
    + rewrite join_cons in *. rewrite string_app_cons. by rewrite IH.
Qed.

Lemma lstrip_length (c : ascii) (s : string) :
  (String.length (PyStr.lstrip c s) ≤ String.length s)%nat.
Proof.
  induction s as [|a r IH]; [done |]. simpl.
  destruct (Ascii.eqb a c); simpl; lia.
Qed.

Lemma rstrip_length (c : ascii) (s : string) :
  (String.length (PyStr.rstrip c s) ≤ String.length s)%nat.
Proof.
  induction s as [|a r IH]; [done |]. simpl.
  destruct (PyStr.rstrip c r); [destruct (Ascii.eqb a c) |]; simpl in *; lia.
Qed.

Lemma strip_length (c : ascii) (s : string) :
  (String.length (PyStr.strip c s) ≤ String.length s)%nat.
Proof.
  unfold PyStr.strip. pose proof (rstrip_length c (PyStr.lstrip c s)).
  pose proof (lstrip_length c s). lia.
Qed.

Lemma join_take_shorter (sep : string) (l : list string) (m : nat) :
  sep ≠ "" → (1 ≤ m)%nat → m < length l →
  String.length (PyStr.join sep (take m l)) < String.length (PyStr.join sep l).
Proof.
  intros Hsep. revert m. induction l as [|x r IH]; intros m Hm Hlen; [simpl in Hlen; lia |].
  destruct m as [|m']; [lia |]. simpl in Hlen.
  destruct r as [|y r]; [simpl in Hlen; lia |].
  rewrite join_cons, !string_app_length.
  assert (0 < String.length sep) by (destruct sep; [done | simpl; lia]).
  destruct m' as [|m''].
  - simpl. lia.
  - change (take (S (S m'')) (x :: y :: r)) with (x :: y :: take m'' r).
    rewrite join_cons, !string_app_length.
    specialize (IH (S m'') ltac:(lia) ltac:(lia)).
    change (take (S m'') (y :: r)) with (y :: take m'' r) in IH. lia.
Qed.

Lemma index_lt (x : string) (l : list string) : x ∈ l → PyStr.index x l < length l.
Proof.
  induction l as [|y r IH]; intros Hin; [by apply elem_of_nil in Hin |].
  simpl. destruct (String.eqb_spec y x) as [-> | Hne]; [lia |].
  apply elem_of_cons in Hin as [-> | Hin]; [done |].
  specialize (IH Hin). lia.
Qed.

Lemma index_lookup (x : string) (l : list string) : x ∈ l → l !! PyStr.index x l = Some x.
Proof.
  induction l as [|y r IH]; intros Hin; [by apply elem_of_nil in Hin |].
  simpl. destruct (String.eqb_spec y x) as [-> | Hne]; [done |].
  apply elem_of_cons in Hin as [-> | Hin]; [done |]. by apply IH.
Qed.

Lemma index_removelast (x : string) (l : list string) :
  x ∈ removelast l → PyStr.index x l + 1 < length l.
Proof.
  induction l as [|y r IH]; intros Hin; [by apply elem_of_nil in Hin |].
  destruct r as [|z r]; [by apply elem_of_nil in Hin |].
  change (removelast (y :: z :: r)) with (y :: removelast (z :: r)) in Hin.
  change (PyStr.index x (y :: z :: r))
    with (if String.eqb y x then 0 else S (PyStr.index x (z :: r))).
  destruct (String.eqb_spec y x) as [-> | Hne]; [simpl; lia |].
  apply elem_of_cons in Hin as [-> | Hin]; [done |].
  specialize (IH Hin). simpl in *. lia.
Qed.

Lemma index_last (x : string) (l : list string) :
  x ∈ l → PyStr.index x l + 1 = length l → last l = Some x.
Proof.
  intros Hin Hlen. rewrite last_lookup.
  replace (pred (length l)) with (PyStr.index x l) by lia.
  by apply index_lookup.
Qed.

(** A cache key of the walk that is the folder path itself belongs to
    the last part. *)
Lemma current_path_is_folder_path (folder_path part : string) :
  let parts := PyStr.split "/" (PyStr.strip "/" folder_path) in
  part ∈ parts →
  current_path parts part = folder_path →
  PyStr.index part parts + 1 = length parts.
Proof.
  intros parts Hin Hcp. unfold current_path in Hcp.
  pose proof (index_lt part parts Hin) as Hlt.
  destruct (decide (PyStr.index part parts + 1 = length parts)) as [|Hne]; [done |].
  exfalso.
  pose proof (join_take_shorter "/" parts (PyStr.index part parts + 1)
                ltac:(done) ltac:(lia) ltac:(lia)) as Hshort.
  rewrite Hcp in Hshort. unfold parts in Hshort.
  rewrite (join_split "/") in Hshort.
  pose proof (strip_length "/" folder_path). lia.
Qed.

(** ** Folder resolution *)

Lemma resolve_parts_cons (fp : string) (parts : list string) (part : string)
    (rest : list string) (p : N) (st : self_) :
  resolve_parts fp parts (part :: rest) p st
  = match _folder_id_cache st !! current_path parts part with
    | Some cached => resolve_parts fp parts rest cached st
    | None =>
        let q := NameInParent part p true in
        match select q (service_files st) with
        | [] => (Raise (folder_not_found fp part), with_request (FilesList q 0) st)
        | f :: _ =>
            resolve_parts fp parts rest (id f)
              (cache_folder (current_path parts part) (id f)
                 (with_request (FilesList q 0) st))
        end
    end.
Proof.
  simpl. unfold mbind, PyM_bind, bind, get, files_list, modify, raise.
  destruct (_folder_id_cache st !! current_path parts part); [done |].
  simpl. by destruct (select _ _).
Qed.

(** The walk changes nothing but the request log and the folder cache,
    which only grows. *)
Lemma resolve_parts_frame (fp : string) (parts rest : list string) (p : N) (st : self_) :
  let out := resolve_parts fp parts rest p st in
  service_files out.2 = service_files st
  ∧ page_size out.2 = page_size st
  ∧ shared_drive_id out.2 = shared_drive_id st
  ∧ _file_id_cache out.2 = _file_id_cache st
  ∧ _folder_id_cache st ⊆ _folder_id_cache out.2.
Proof.
  revert p st. induction rest as [|part rest IH]; intros p st; [done |].
  cbv zeta. rewrite resolve_parts_cons.
  destruct (_folder_id_cache st !! current_path parts part) eqn:Hc; [apply IH |].
  simpl. destruct (select _ _) as [|f files]; [done |].
  destruct (IH (id f) (cache_folder (current_path parts part) (id f)
                         (with_request (FilesList (NameInParent part p true) 0) st)))
    as (-> & -> & -> & -> & Hsub).
  repeat split; try done.
  etrans; [| exact Hsub]. simpl. by apply insert_subseteq.
Qed.

(** A walk that succeeds returns what the cache now holds for its last
    key. *)
Lemma resolve_parts_result (fp : string) (parts rest : list string) (p : N)
    (st : self_) (v : N) (part : string) :
  let out := resolve_parts fp parts rest p st in
  out.1 = Ok v → last rest = Some part →
  _folder_id_cache out.2 !! current_path parts part = Some v.
Proof.
  revert p st. induction rest as [|part0 rest IH]; intros p st; [done |].
  cbv zeta. intros Hok Hlast. rewrite resolve_parts_cons in Hok |- *.
  assert (rest = [] ∧ part0 = part ∨ last rest = Some part) as Hcase.
  { destruct rest as [|y rest]; [left; split; [done | by injection Hlast] |].
    right. by rewrite last_cons_cons in Hlast. }
  destruct (_folder_id_cache st !! current_path parts part0) as [c|] eqn:Hc.
  - destruct Hcase as [[-> ->] | Hl]; [| by apply IH].
    simpl in *. by injection Hok as <-.
  - simpl in *. destruct (select _ _) as [|f files]; [done |].
    destruct Hcase as [[-> ->] | Hl]; [| by apply IH].
    simpl in *. injection Hok as <-. apply lookup_insert_eq.
Qed.

(** Every key the walk adds is the key of one of its parts, and of one
    before the last when the walk fails. *)
Lemma resolve_parts_new_key (fp : string) (parts rest : list string) (p : N)
    (st : self_) (k : string) (c : N) :
  let out := resolve_parts fp parts rest p st in
  _folder_id_cache st !! k = None →
  _folder_id_cache out.2 !! k = Some c →
  ∃ part, part ∈ rest ∧ k = current_path parts part
    ∧ (∀ e, out.1 = Raise e → part ∈ removelast rest).
Proof.
  revert p st. induction rest as [|part0 rest IH]; intros p st.
  { simpl. congruence. }
  cbv zeta. intros Hnone Hsome. rewrite resolve_parts_cons in Hsome |- *.
  assert (∀ part, part ∈ removelast rest → part ∈ removelast (part0 :: rest)) as Hrl.
  { intros part Hin. destruct rest as [|y rest]; [done |].
    change (removelast (part0 :: y :: rest)) with (part0 :: removelast (y :: rest)).
    by apply elem_of_cons; right. }
  destruct (_folder_id_cache st !! current_path parts part0) as [c0|] eqn:Hc.
  - destruct (IH _ _ Hnone Hsome) as (part & Hin & Hk & Hraise).
    exists part. split; [by apply elem_of_cons; right |]. split; [done |].
    intros e He. apply Hrl. by eapply Hraise.
  - simpl in *. destruct (select _ _) as [|f files]; [simpl in Hsome; congruence |].
    destruct (decide (k = current_path parts part0)) as [Hk | Hk].
    + exists part0. split; [by apply elem_of_cons; left |]. split; [done |].
      intros e He. destruct rest as [|y rest]; [done |].
      change (removelast (part0 :: y :: rest)) with (part0 :: removelast (y :: rest)).
      by apply elem_of_cons; left.
    + destruct (IH (id f) (cache_folder (current_path parts part0) (id f)
                            (with_request (FilesList (NameInParent part0 p true) 0) st)))
        as (part & Hin & Hk' & Hraise); [| done |].
      { simpl. by rewrite lookup_insert_ne. }
      exists part. split; [by apply elem_of_cons; right |]. split; [done |].
      intros e He. apply Hrl. by eapply Hraise.
Qed.

(** Walking again, from any state with the drive and caches the first
    walk left, ends the same way and leaves them unchanged. *)
Lemma resolve_parts_stable (fp : string) (parts rest : list string) (p : N)
    (st st' : self_) :
  let out := resolve_parts fp parts rest p st in
  store st' = store out.2 →
  same_outcome (resolve_parts fp parts rest p st') out.
Proof.
  revert p st st'. induction rest as [|part rest IH]; intros p st st'.
  { simpl. intros Hst. by split. }
  cbv zeta. rewrite !resolve_parts_cons. intros Hst.
  destruct (_folder_id_cache st !! current_path parts part) as [c|] eqn:Hc.
  - pose proof (resolve_parts_frame fp parts rest c st) as (_ & _ & _ & _ & Hsub).
    pose proof Hst as Hf. apply store_eq_fields in Hf as (_ & _ & _ & _ & ->).
    rewrite (lookup_weaken _ _ _ _ Hc Hsub). by apply IH.
  - simpl in *. destruct (select _ (service_files st)) as [|f files] eqn:Hsel.
    + simpl in Hst. apply store_eq_fields in Hst as (Hf & Hp & Hd & Hfc & Hdc).
      simpl in *. rewrite Hdc, Hc, Hf, Hsel.
      split; [done |]. unfold store. simpl. congruence.
    + set (st1 := cache_folder _ _ _) in *.
      pose proof (resolve_parts_frame fp parts rest (id f) st1) as (_ & _ & _ & _ & Hsub).
      pose proof Hst as Hf. apply store_eq_fields in Hf as (_ & _ & _ & _ & ->).
      assert (_folder_id_cache st1 !! current_path parts part = Some (id f)) as Hnew
        by apply lookup_insert_eq.
      rewrite (lookup_weaken _ _ _ _ Hnew Hsub). by apply IH.
Qed.

Lemma resolve_folder_id_frame (fp : string) (st : self_) :
  let out := _resolve_folder_id fp st in
  service_files out.2 = service_files st
  ∧ page_size out.2 = page_size st
  ∧ shared_drive_id out.2 = shared_drive_id st
  ∧ _file_id_cache out.2 = _file_id_cache st
  ∧ _folder_id_cache st ⊆ _folder_id_cache out.2.
Proof.
  unfold _resolve_folder_id, mbind, PyM_bind, bind, get.
  case_bool_decide; [done |].
  destruct (_folder_id_cache st !! fp); [done |].
  apply resolve_parts_frame.
Qed.

(** Resolving a folder a second time gives the same answer: the same
    identifier, or the same folder-not-found error. *)
Lemma resolve_folder_id_stable (fp : string) (st st' : self_) :
  let out := _resolve_folder_id fp st in
  store st' = store out.2 →
  same_outcome (_resolve_folder_id fp st') out.
Proof.
  cbv zeta. intros Hst. revert Hst.
  unfold _resolve_folder_id, mbind, PyM_bind, bind, get.
  case_bool_decide as Hroot.
  { simpl. intros Hst. pose proof Hst as Hf.
    apply store_eq_fields in Hf as (_ & _ & -> & _). by split. }
  destruct (_folder_id_cache st !! fp) as [c|] eqn:Hc.
  { simpl. intros Hst. pose proof Hst as Hf.
    apply store_eq_fields in Hf as (_ & _ & _ & _ & ->). rewrite Hc. by split. }
  set (parts := PyStr.split "/" (PyStr.strip "/" fp)).
  intros Hst.
  pose proof (resolve_parts_frame fp parts parts (shared_drive_id st) st)
    as (_ & _ & Hd & _ & _).
  pose proof Hst as Hf. apply store_eq_fields in Hf as (_ & _ & Hd' & _ & Hdc).
  rewrite Hd', Hd.
  destruct (_folder_id_cache st' !! fp) as [c|] eqn:Hc'; [| by apply resolve_parts_stable].
  rewrite Hdc in Hc'.
  destruct (resolve_parts_new_key fp parts parts (shared_drive_id st) st fp c Hc Hc')
    as (part & Hin & Hk & Hraise).
  pose proof (current_path_is_folder_path fp part Hin (eq_sym Hk)) as Hidx.
  fold parts in Hidx.
  pose proof (resolve_parts_result fp parts parts (shared_drive_id st) st) as Hres.
  destruct (resolve_parts fp parts parts (shared_drive_id st) st) as [[v|e] st1] eqn:Hrun.
  - specialize (Hres v part eq_refl (index_last _ _ Hin Hidx)).
    simpl in Hres, Hc'. rewrite <- Hk, Hc' in Hres. injection Hres as ->.
    by split.
  - exfalso. specialize (Hraise e eq_refl).
    apply index_removelast in Hraise. lia.
Qed.

Lemma resolve_parts_raises (fp : string) (parts rest : list string) (p : N)
    (st : self_) (e : exn) :
  (resolve_parts fp parts rest p st).1 = Raise e →
  ∃ part, part ∈ rest ∧ e = folder_not_found fp part.
Proof.
  revert p st. induction rest as [|part rest IH]; intros p st; [done |].
  rewrite resolve_parts_cons. intros Hr.
  assert (∀ p' st', (resolve_parts fp parts rest p' st').1 = Raise e →
                    ∃ part', part' ∈ part :: rest ∧ e = folder_not_found fp part') as Hrec.
  { intros p' st' Hr'. destruct (IH _ _ Hr') as (part' & Hin & He).
    exists part'. split; [by apply elem_of_cons; right | done]. }
  destruct (_folder_id_cache st !! current_path parts part); [by eapply Hrec |].
  simpl in Hr. destruct (select _ _) as [|f files]; [| by eapply Hrec].
  injection Hr as <-. exists part. split; [by apply elem_of_cons; left | done].
Qed.

Lemma resolve_folder_id_raises (fp : string) (st : self_) (e : exn) :
  (_resolve_folder_id fp st).1 = Raise e →
  ∃ part, part ∈ PyStr.split "/" (PyStr.strip "/" fp) ∧ e = folder_not_found fp part.
Proof.
  unfold _resolve_folder_id, mbind, PyM_bind, bind, get.
  case_bool_decide; [done |].
  destruct (_folder_id_cache st !! fp); [done |].
  apply resolve_parts_raises.
Qed.

(** ** File resolution *)

Lemma resolve_file_id_unfold (path : string) (st : self_) :
  _resolve_file_id path st
  = match _file_id_cache st !! path with
    | Some cached => (Ok (Some cached), st)
    | None =>
        let q parent_id := NameInParent (folder_and_name path).2 parent_id false in
        match _resolve_folder_id (folder_and_name path).1 st with
        | (Ok parent_id, s1) =>
            match select (q parent_id) (service_files s1) with
            | [] => (Ok None, with_request (FilesList (q parent_id) 0) s1)
            | f :: _ =>
                (Ok (Some (id f)),
                 cache_file path (id f) (with_request (FilesList (q parent_id) 0) s1))
            end
        | (Raise e, s1) => (Ok None, s1)
        end
    end.
Proof.
  unfold _resolve_file_id. unfold mbind at 1. unfold PyM_bind, bind, get.
  destruct (_file_id_cache st !! path); [done |].
  destruct (folder_and_name path) as [folder_path filename]. simpl.
  unfold unless_not_found, try_except, mbind, PyM_bind, bind, mret, PyM_ret, ret.
  pose proof (resolve_folder_id_raises folder_path st) as Hraise.
  destruct (_resolve_folder_id folder_path st) as [[parent_id|e] s1]; simpl.
  - unfold files_list, modify. by destruct (select _ _).
  - destruct (Hraise e eq_refl) as (part & _ & ->). done.
Qed.

Lemma resolve_file_id_frame (path : string) (st : self_) :
  let out := _resolve_file_id path st in
  service_files out.2 = service_files st
  ∧ page_size out.2 = page_size st
  ∧ shared_drive_id out.2 = shared_drive_id st.
Proof.
  cbv zeta. rewrite resolve_file_id_unfold.
  destruct (_file_id_cache st !! path); [done |].
  pose proof (resolve_folder_id_frame (folder_and_name path).1 st) as (Hf & Hp & Hd & _).
  destruct (_resolve_folder_id _ st) as [[parent_id|e] s1]; simpl in *; [| done].
  by destruct (select _ _).
Qed.

(** A path that resolves is in the file cache afterwards. *)
Lemma resolve_file_id_cached (path : string) (st : self_) (i : N) :
  let out := _resolve_file_id path st in
  out.1 = Ok (Some i) → _file_id_cache out.2 !! path = Some i.
Proof.
  cbv zeta. rewrite resolve_file_id_unfold.
  destruct (_file_id_cache st !! path) as [c|] eqn:Hc.
  { simpl. by intros [= <-]. }
  destruct (_resolve_folder_id _ st) as [[parent_id|e] s1]; simpl; [| done].
  destruct (select _ _) as [|f files]; simpl; [done |].
  intros [= <-]. apply lookup_insert_eq.
Qed.


Lemma bind_same_outcome {A B} (m m' : PyM self_ A) (k : A → PyM self_ B) (st st' : self_) :
  same_outcome (m st) (m' st') →
  (∀ a, respects (k a)) →
  same_outcome ((x ← m; k x) st) ((x ← m'; k x) st').
Proof.
  intros [Hr Hs] Hk. unfold mbind, PyM_bind, bind.
  destruct (m st) as [[a|e] s1], (m' st') as [[a'|e'] s1']; simpl in *; try done.
  - injection Hr as <-. by apply Hk.
  - injection Hr as <-. split; [done | exact Hs].
Qed.

(** ** Appending to an absent remote file (C8) *)






(** ** Uploads (C1, C4) *)

Lemma set_data_id (i : N) (d : string) (g : file) : id (set_data i d g) = id g.
Proof. unfold set_data. by case_bool_decide. Qed.

Lemma lookup_id_set_data (files : list file) (i : N) (d : string) (f : file) :
  lookup_id files i = Some f →
  lookup_id (set_data i d <$> files) i
  = Some {| id := id f; name := name f; parent := parent f;
            mime_type := mime_type f; trashed := trashed f; data := d |}.
Proof.
  unfold lookup_id. induction files as [|g files IH]; [done |].
  simpl. rewrite set_data_id. case_bool_decide as Hg; [| exact IH].
  intros [= ->]. unfold set_data. by case_bool_decide.
Qed.

Lemma fresh_id_above (files : list file) (g : file) :
  g ∈ files → (id g < fresh_id files)%N.
Proof.
  unfold fresh_id. induction files as [|h files IH]; intros Hin.
  { by apply elem_of_nil in Hin. }
  simpl. apply elem_of_cons in Hin as [-> | Hin]; [lia |].
  specialize (IH Hin). lia.
Qed.

Lemma lookup_id_fresh (files : list file) (f : file) :
  id f = fresh_id files → lookup_id (files ++ [f]) (fresh_id files) = Some f.
Proof.
  intros Hid. unfold lookup_id.
  assert (∀ g, g ∈ files → id g ≠ fresh_id files) as Hne.
  { intros g Hin. pose proof (fresh_id_above files g Hin). lia. }
  generalize dependent (fresh_id files). intros n Hid Hne.
  induction files as [|g files IH]; simpl.
  - by rewrite bool_decide_eq_true_2.
  - rewrite bool_decide_eq_false_2 by (apply Hne, elem_of_cons; by left).
    apply IH. intros h Hin. apply Hne, elem_of_cons. by right.
Qed.

(** After an upload that succeeds, the path is cached and its identifier
    holds the content. *)
Lemma upload_content_ok (path content mime : string) (st st' : self_) (i : N) :
  mime ≠ folder_mime →
  _upload_content path content mime st = (Ok i, st') →
  _file_id_cache st' !! path = Some i
  ∧ ∃ f, lookup_id (service_files st') i = Some f
         ∧ is_folder f = false ∧ data f = content.
Proof.
  intros Hmime. unfold _upload_content. unfold mbind at 1. unfold PyM_bind, bind at 1.
  pose proof (resolve_file_id_cached path st) as Hcached.
  destruct (_resolve_file_id path st) as [[[j|]|e] s1] eqn:Hres; [| | done].
  - specialize (Hcached j eq_refl). simpl in Hcached.
    unfold mbind, PyM_bind, bind, files_update, mret, PyM_ret, ret.
    destruct (lookup_id (service_files s1) j) as [f|] eqn:Hf; [| done].
    destruct (is_folder f) eqn:Hfolder; [done |].
    intros [= <- <-]. simpl. split; [done |].
    eexists. split; [by apply lookup_id_set_data |]. by split.
  - destruct (folder_and_name path) as [folder_path filename].
    unfold mbind, PyM_bind, bind, files_create, modify, mret, PyM_ret, ret.
    destruct (_resolve_folder_id folder_path s1) as [[parent_id|e] s2]; [| done].
    destruct (folder_exists s2 parent_id); [| done].
    intros [= <- <-]. simpl. split; [apply lookup_insert_eq |].
    eexists. split; [by apply lookup_id_fresh |].
    split; [| done]. unfold is_folder. simpl. by apply bool_decide_eq_false_2.
Qed.

(** On the remote backend, a record saved without error is the record
    loaded next. *)
Lemma remote_save_then_load `{Json} (filename : string) (d : pyobj) (st : self_) :
  let saved := save_json filename d st in
  Codec.valid_utf8 (json_dumps true d) = true →
  json_loads (json_dumps true d) = Ok d →
  saved.1 = Ok tt →
  (load_json filename saved.2).1 = Ok d.
Proof.
  intros saved Hvalid Hjson Hsaved.
  assert (∃ i f, _file_id_cache saved.2 !! ("mcp-data/" +:+ filename) = Some i
                 ∧ lookup_id (service_files saved.2) i = Some f
                 ∧ is_folder f = false ∧ data f = json_dumps true d)
    as (i & f & Hcache & Hid & Hfolder & Hdata).
  { revert Hsaved. unfold saved, save_json.
    unfold mbind, PyM_bind, bind, mret, PyM_ret, ret.
    destruct (_upload_content _ _ _ st) as [[i|e] st'] eqn:Hup; [| done].
    intros _. apply upload_content_ok in Hup as (Hc & f & Hf); [| done].
    exists i, f. by split. }
  unfold load_json. unfold mbind at 1. unfold PyM_bind, bind at 1.
  rewrite resolve_file_id_unfold, Hcache.
  unfold _download_content, files_get_media, mbind, PyM_bind, bind, lift. simpl.
  rewrite Hid, Hfolder, Hdata. simpl. rewrite Hvalid. simpl. by rewrite Hjson.
Qed.

(** C1 (amended).  A record that the [json] module prints and reads
    back unchanged is read back unchanged by [load_json] after a
    [save_json] that returned: on the remote backend, and on the local
    backend when the temporary path does not hold a file the process may
    write but not read. *)
Theorem save_json_then_load_json `{Json} (self : LocalStorage.self_)
    (fs : filesystem) (st : self_) (filename : string) (d : pyobj) :
  let filepath := joinpath (LocalStorage.data_dir self) filename in
  (∀ ensure_ascii, Codec.valid_utf8 (json_dumps ensure_ascii d) = true) →
  json_loads (Codec.universal_newlines (json_dumps false d)) = Ok d →
  json_loads (json_dumps true d) = Ok d →
  (∀ t w old, with_suffix filepath ".tmp" = Ok t → stat fs t ≠ Some (File false w old)) →
  (LocalStorage.save_json self filename d fs).1 = Ok tt →
  (save_json filename d st).1 = Ok tt →
  (LocalStorage.load_json self filename (LocalStorage.save_json self filename d fs).2).1
  = Ok d
  ∧ (load_json filename (save_json filename d st).2).1 = Ok d.
Proof.
  intros filepath Hvalid Hlocal Hremote Hreadable Hsaved Hsaved'. split.
  - by rewrite local_save_then_load.
  - by apply remote_save_then_load.
Qed.

Lemma save_json_then_load_json_witness :
  (LocalStorage.load_json Examples.local "tasks.json"
     (LocalStorage.save_json Examples.local "tasks.json"
        MiniJson.tasks_record Examples.disk).2).1
  = Ok MiniJson.tasks_record
  ∧ (load_json "tasks.json"
       (save_json "tasks.json" MiniJson.tasks_record Examples.remote).2).1
    = Ok MiniJson.tasks_record.
Proof.
  apply (@save_json_then_load_json MiniJson.json Examples.local Examples.disk
           Examples.remote "tasks.json" MiniJson.tasks_record).
  - intros []; vm_compute; reflexivity.
  - vm_compute. reflexivity.
  - vm_compute. reflexivity.
  - intros t w old Hws. vm_compute in Hws. injection Hws as <-.
    vm_compute. discriminate.
  - vm_compute. reflexivity.
  - vm_compute. reflexivity.
Defined.

(** C1 (counterexample).  The temporary path "tasks.tmp" holds a file
    left behind that the process may write but not read.  The local
    [save_json] of "tasks.json" writes the record into it and renames it
    over the destination, which so gets its mode; [load_json] cannot open
    the record and returns the empty mapping, not the record saved. *)
Lemma save_json_over_unreadable_temp_file :
  (LocalStorage.save_json Examples.local "tasks.json" MiniJson.tasks_record
     Examples.disk_with_leftover).1 = Ok tt
  ∧ (LocalStorage.save_json Examples.local "tasks.json" MiniJson.tasks_record
       Examples.disk_with_leftover).2 !! ["drive"; "mcp-data"; "tasks.json"]
    = Some (File false true (MiniJson.dumps false MiniJson.tasks_record))
  ∧ (LocalStorage.load_json Examples.local "tasks.json"
       (LocalStorage.save_json Examples.local "tasks.json" MiniJson.tasks_record
          Examples.disk_with_leftover).2).1
    = Ok (MiniJson.Dict [])
  ∧ MiniJson.tasks_record ≠ MiniJson.Dict [].
Proof. vm_compute. repeat split; discriminate. Qed.

(** On the remote backend a write below a folder that does not resolve
    raises the folder-not-found error and leaves the drive as it was. *)
Lemma remote_write_text_missing_folder (path content : string) (st : self_) (e : exn) :
  _file_id_cache st !! path = None →
  (_resolve_folder_id (folder_and_name path).1 st).1 = Raise e →
  (write_text path content st).1 = Raise e
  ∧ service_files (write_text path content st).2 = service_files st.
Proof.
  intros Hmiss Hraise.
  assert (∃ s2, write_text path content st = (Raise e, s2)
                ∧ service_files s2 = service_files st) as (s2 & -> & Hs2);
    [| by split].
  unfold write_text, _upload_content, mbind, PyM_bind, bind.
  rewrite resolve_file_id_unfold, Hmiss.
  pose proof (resolve_folder_id_frame (folder_and_name path).1 st) as (Hf & _).
  pose proof (resolve_folder_id_stable (folder_and_name path).1 st) as Hstable.
  destruct (_resolve_folder_id (folder_and_name path).1 st) as [[p|e'] s1] eqn:Hrun;
    simpl in Hraise; [done |].
  injection Hraise as ->. simpl in Hf, Hstable. cbv zeta.
  specialize (Hstable s1 eq_refl) as [Hr Hs]. simpl in Hr, Hs.
  destruct (folder_and_name path) as [folder_path filename]. simpl in *.
  destruct (_resolve_folder_id folder_path s1) as [[p|e'] s2]; simpl in *; [done |].
  injection Hr as ->. exists s2. split; [done |].
  apply store_eq_fields in Hs as (-> & _). done.
Qed.




(** ** What the remote reads do with content they cannot use (C3, C7) *)

Lemma remote_read_text_absent (path : string) (st : self_) :
  (_resolve_file_id path st).1 = Ok None → (read_text path st).1 = Ok None.
Proof.
  unfold read_text, mbind, PyM_bind, bind, mret, PyM_ret, ret.
  by destruct (_resolve_file_id path st) as [[[i|]|e] s1].
Qed.

(** The remote [read_text] of a known file decodes its bytes as UTF-8
    and raises when they are not: there is no second attempt. *)
Lemma remote_read_text_known (path : string) (st : self_) (i : N) (f : file) :
  _file_id_cache st !! path = Some i →
  lookup_id (service_files st) i = Some f →
  is_folder f = false →
  (read_text path st).1
  = if Codec.valid_utf8 (data f) then Ok (Some (data f)) else Raise UnicodeDecodeError.
Proof.
  intros Hcache Hid Hfolder.
  unfold read_text. unfold mbind at 1. unfold PyM_bind, bind at 1.
  rewrite resolve_file_id_unfold, Hcache.
  unfold _download_content, files_get_media, mbind, PyM_bind, bind, lift, mret, PyM_ret, ret.
  rewrite Hid, Hfolder. simpl. by destruct (Codec.valid_utf8 (data f)).
Qed.

(** The remote [load_json] of a known record raises what decoding or
    parsing raises. *)
Lemma remote_load_json_known `{Json} (filename : string) (st : self_) (i : N) (f : file) :
  _file_id_cache st !! ("mcp-data/" +:+ filename) = Some i →
  lookup_id (service_files st) i = Some f →
  is_folder f = false →
  (load_json filename st).1
  = if Codec.valid_utf8 (data f) then json_loads (data f) else Raise UnicodeDecodeError.
Proof.
  intros Hcache Hid Hfolder.
  unfold load_json. unfold mbind at 1. unfold PyM_bind, bind at 1.
  rewrite resolve_file_id_unfold, Hcache.
  unfold _download_content, files_get_media, mbind, PyM_bind, bind, lift.
  rewrite Hid, Hfolder. simpl. by destruct (Codec.valid_utf8 (data f)).
Qed.

(** A cached identifier whose object is gone makes both reads raise. *)
Lemma remote_reads_raise_on_stale_id `{Json} (filename : string) (st : self_) (i : N) :
  _file_id_cache st !! ("mcp-data/" +:+ filename) = Some i →
  lookup_id (service_files st) i = None →
  (load_json filename st).1 = Raise HttpError
  ∧ (read_text ("mcp-data/" +:+ filename) st).1 = Raise HttpError.
Proof.
  intros Hcache Hid. split.
  - unfold load_json. unfold mbind at 1. unfold PyM_bind, bind at 1.
    rewrite resolve_file_id_unfold, Hcache.
    unfold _download_content, files_get_media, mbind, PyM_bind, bind, lift.
    by rewrite Hid.
  - unfold read_text. unfold mbind at 1. unfold PyM_bind, bind at 1.
    rewrite resolve_file_id_unfold, Hcache.
    unfold _download_content, files_get_media, mbind, PyM_bind, bind, lift.
    by rewrite Hid.
Qed.

(** ** Reading through the remote backend (C3, C7) *)

(** C3 (failing input).  The record "broken.json" holds the text "{".
    The local [load_json] gives the empty mapping; the remote
    [load_json] raises the decoding error of [json.loads] to its caller. *)
Theorem remote_load_json_raises_on_malformed :
  (LocalStorage.load_json Examples.local "broken.json" Examples.disk).1
  = Ok (MiniJson.Dict [])
  ∧ (load_json "broken.json" Examples.remote).1 = Raise JSONDecodeError.
Proof. vm_compute. done. Qed.

(** C7 (failing input).  The file "latin.txt" holds bytes that are not
    UTF-8.  The local [read_text] falls back to Latin-1 and returns the
    text; the remote [read_text] has no second attempt and raises. *)
Theorem remote_read_text_has_no_fallback :
  Codec.valid_utf8 Examples.latin1_bytes = false
  ∧ (LocalStorage.read_text Examples.local "latin.txt" Examples.disk).1
    = Ok (Some (Codec.latin1_to_text Examples.latin1_bytes))
  ∧ (read_text "latin.txt" Examples.remote).1 = Raise UnicodeDecodeError.
Proof. vm_compute. done. Qed.

(** ** Folder resolution against the walk of the design (C5) *)

Lemma join_take_mono (sep : string) (l : list string) (m m' : nat) :
  sep ≠ "" → (1 ≤ m)%nat → m < m' → (m' ≤ length l)%nat →
  String.length (PyStr.join sep (take m l)) < String.length (PyStr.join sep (take m' l)).
Proof.
  intros Hsep Hm Hlt Hle.
  replace (take m l) with (take m (take m' l)).
  - apply join_take_shorter; [done | done |]. rewrite length_take. lia.
  - rewrite take_take. f_equal. lia.
Qed.

(** Parts with different names have different cache keys. *)
Lemma current_path_inj (parts : list string) (part part' : string) :
  part ∈ parts → part' ∈ parts →
  current_path parts part = current_path parts part' → part = part'.
Proof.
  intros Hin Hin' Hkey. unfold current_path in Hkey.
  pose proof (index_lt _ _ Hin) as Hi. pose proof (index_lt _ _ Hin') as Hi'.
  pose proof (index_lookup _ _ Hin) as Hl. pose proof (index_lookup _ _ Hin') as Hl'.
  destruct (decide (PyStr.index part parts = PyStr.index part' parts)) as [Heq | Hne].
  { rewrite Heq in Hl. congruence. }
  exfalso. apply (f_equal String.length) in Hkey.
  destruct (decide (PyStr.index part parts < PyStr.index part' parts)).
  - pose proof (join_take_mono "/" parts (PyStr.index part parts + 1)
                  (PyStr.index part' parts + 1) ltac:(done)). lia.
  - pose proof (join_take_mono "/" parts (PyStr.index part' parts + 1)
                  (PyStr.index part parts + 1) ltac:(done)). lia.
Qed.

(** When the parts still to visit have pairwise different names and
    none of their keys is cached, the loop of [_resolve_folder_id] is the
    walk of the design. *)
Lemma resolve_parts_is_walk (fp : string) (parts rest : list string) (p : N) (st : self_) :
  rest ⊆ parts → NoDup rest →
  (∀ part, part ∈ rest → _folder_id_cache st !! current_path parts part = None) →
  (resolve_parts fp parts rest p st).1 = walk_folders (service_files st) fp p rest.
Proof.
  revert p st. induction rest as [|part rest IH]; intros p st Hsub Hnd Hfresh; [done |].
  rewrite resolve_parts_cons. cbn [walk_folders].
  rewrite Hfresh by (apply elem_of_cons; by left). cbv zeta.
  destruct (select _ (service_files st)) as [|f files]; [done |].
  apply NoDup_cons in Hnd as [Hnotin Hnd].
  rewrite IH; [done | | done |].
  - intros x Hx. apply Hsub, elem_of_cons. by right.
  - intros part' Hin'. simpl. rewrite lookup_insert_ne.
    + apply Hfresh, elem_of_cons. by right.
    + intros Hkey. apply current_path_inj in Hkey.
      * by subst.
      * apply Hsub, elem_of_cons. by left.
      * apply Hsub, elem_of_cons. by right.
Qed.

(** On a backend that has cached nothing yet, resolving a path whose
    parts have pairwise different names is the walk of the design: in
    particular it raises the error naming the first part without a
    match. *)
Lemma resolve_folder_id_is_walk (fp : string) (st : self_) :
  let parts := PyStr.split "/" (PyStr.strip "/" fp) in
  fp ≠ "" → fp ≠ "." → NoDup parts → _folder_id_cache st = ∅ →
  (_resolve_folder_id fp st).1
  = walk_folders (service_files st) fp (shared_drive_id st) parts.
Proof.
  intros parts Hne Hdot Hnd Hempty.
  unfold _resolve_folder_id, mbind, PyM_bind, bind, get.
  rewrite bool_decide_eq_false_2 by (by intros [|]).
  rewrite Hempty, lookup_empty. apply resolve_parts_is_walk; [done | done |].
  intros part _. by rewrite Hempty, lookup_empty.
Qed.

(** The walk issues listing requests only, and only for parts whose key
    was not cached: what an earlier call has resolved is not asked for
    again. *)
Lemma resolve_parts_requests (fp : string) (parts rest : list string) (p : N) (st : self_) :
  ∃ new,
    requests (resolve_parts fp parts rest p st).2 = new ++ requests st
    ∧ ∀ r, r ∈ new →
           ∃ part p', r = FilesList (NameInParent part p' true) 0
                      ∧ part ∈ rest
                      ∧ _folder_id_cache st !! current_path parts part = None.
Proof.
  revert p st. induction rest as [|part rest IH]; intros p st.
  { exists []. split; [done |]. by intros r ?%elem_of_nil. }
  rewrite resolve_parts_cons.
  destruct (_folder_id_cache st !! current_path parts part) as [c|] eqn:Hc.
  - destruct (IH c st) as (new & Hreq & Hnew). exists new. split; [done |].
    intros r Hr. destruct (Hnew r Hr) as (part' & p' & -> & Hin & Hnone).
    exists part', p'. split; [done |]. split; [by apply elem_of_cons; right | done].
  - cbv zeta. destruct (select _ (service_files st)) as [|f files].
    + exists [FilesList (NameInParent part p true) 0]. split; [done |].
      intros r ->%list_elem_of_singleton. exists part, p.
      split; [done |]. split; [by apply elem_of_cons; left | done].
    + set (q := FilesList (NameInParent part p true) 0).
      destruct (IH (id f) (cache_folder (current_path parts part) (id f) (with_request q st)))
        as (new & Hreq & Hnew).
      exists (new ++ [q]). split; [by rewrite Hreq, <- app_assoc |].
      intros r [Hr | ->%list_elem_of_singleton]%elem_of_app.
      * destruct (Hnew r Hr) as (part' & p' & -> & Hin & Hnone).
        exists part', p'. split; [done |]. split; [by apply elem_of_cons; right |].
        simpl in Hnone. apply lookup_insert_None in Hnone as [Hnone _]. done.
      * exists part, p. split; [done |]. split; [by apply elem_of_cons; left | done].
Qed.

(** ** Resolving folders with a repeated name (C5) *)

(** C5 (failing input).  On the sample drive the folder "a" (identifier 9)
    holds a folder "b" and no folder "a".  Resolving "a/b/c" raises the
    error naming "c" and leaves "a" and "a/b" in the cache, and a second
    attempt issues a single listing request, for "c".  Resolving "a/a",
    however, raises nothing: the second part is looked up in the cache
    under the key of its first occurrence, and the call returns the
    identifier of "a". *)
Theorem resolve_folder_id_repeated_segment :
  let first := _resolve_folder_id "a/b/c" Examples.remote in
  let second := _resolve_folder_id "a/b/c" first.2 in
  first.1 = Raise (folder_not_found "a/b/c" "c")
  ∧ _folder_id_cache first.2 = {[ "a" := 9%N; "a/b" := 10%N ]}
  ∧ service_files first.2 = service_files Examples.remote
  ∧ second.1 = Raise (folder_not_found "a/b/c" "c")
  ∧ requests second.2 = FilesList (NameInParent "c" 10 true) 0 :: requests first.2
  ∧ select (NameInParent "a" 9 true) (service_files Examples.remote) = []
  ∧ (_resolve_folder_id "a/a" Examples.remote).1 = Ok 9%N.
Proof. vm_compute. done. Qed.

(** ** Sorting *)

#[local] Instance ge_transitive : Transitive PyStr.ge.
Proof. intros a b c Hab Hbc. unfold PyStr.ge in *. by etrans. Qed.

#[local] Instance ge_total : Total PyStr.ge.
Proof. intros a b. unfold PyStr.ge. destruct (total String.le a b); auto. Qed.

(** [sorted(l, reverse=True)] is in descending order and holds the
    elements of [l]. *)
Lemma sorted_reverse_sorted (l : list string) :
  StronglySorted PyStr.ge (PyStr.sorted_reverse l).
Proof. unfold PyStr.sorted_reverse. apply StronglySorted_merge_sort; apply _. Qed.

Lemma sorted_reverse_perm (l : list string) : PyStr.sorted_reverse l ≡ₚ l.
Proof. apply merge_sort_Permutation. Qed.

Lemma sorted_reverse_elem (l : list string) (s : string) :
  s ∈ PyStr.sorted_reverse l ↔ s ∈ l.
Proof. by rewrite sorted_reverse_perm. Qed.

(** ** Suffixes and globs *)

Lemma prefix_refl (s : string) : String.prefix s s = true.
Proof.
  induction s as [|a s IH]; [done |]. simpl.
  by destruct (ascii_dec a a).
Qed.

Lemma endswith_contains (s suf : string) :
  PyStr.endswith s suf = true → PyStr.contains s suf = true.
Proof.
  induction s as [|a s IH]; cbn [PyStr.endswith PyStr.contains].
  - rewrite !orb_false_r. intros Heq%String.eqb_eq. by subst.
  - intros [Heq%String.eqb_eq | Hend]%orb_true_iff.
    + subst. by rewrite (prefix_refl (String a s)).
    + rewrite IH by done. by rewrite orb_true_r.
Qed.

Lemma endswith_empty (s : string) : PyStr.endswith s "" = true.
Proof.
  induction s as [|a s IH]; [done |]. simpl. exact IH.
Qed.



(** ** Listing on the local backend (C6) *)






(** ** Listing on the remote backend (C6, C9) *)

Lemma concat_cons_head {A} (x : A) (pages : list (list A)) :
  concat (cons_head x pages) = x :: concat pages.
Proof. by destruct pages. Qed.

(** The pages of a listing hold the listing. *)
Lemma concat_paginate {A} (size room : nat) (l : list A) :
  concat (paginate size room l) = l.
Proof.
  revert room. induction l as [|x l IH]; intros room; [done |].
  simpl. destruct room as [|k]; simpl; rewrite concat_cons_head; by rewrite IH.
Qed.

Lemma scan_page_spec (directory suffix : string) (page : list file)
    (results : list string) (st : self_) :
  ∃ st',
    scan_page directory suffix page results st
    = (Ok (results ++ (rel_path directory <$> filter (λ f, keeps suffix f = true) page)), st')
    ∧ service_files st' = service_files st
    ∧ (∀ k, is_Some (_file_id_cache st !! k) ∨ (∃ f, f ∈ page ∧ k = rel_path directory f) →
            is_Some (_file_id_cache st' !! k)).
Proof.
  revert results st. induction page as [|f page IH]; intros results st.
  { exists st. split; [by rewrite app_nil_r |]. split; [done |].
    intros k [Hk | (f & Hf & _)]; [done | by apply elem_of_nil in Hf]. }
  simpl. unfold mbind, PyM_bind, bind, modify.
  destruct (IH (if keeps suffix f then results ++ [rel_path directory f] else results)
               (cache_file (rel_path directory f) (id f) st))
    as (st' & -> & Hfiles & Hcache).
  exists st'. split; [| split; [done |]].
  - rewrite filter_cons. destruct (keeps suffix f) eqn:Hkeep.
    + rewrite decide_True by done. by rewrite fmap_cons, <- app_assoc.
    + by rewrite decide_False by done.
  - intros k Hk. apply Hcache. simpl.
    destruct (decide (k = rel_path directory f)) as [-> | Hne].
    { left. rewrite lookup_insert_eq. eauto. }
    rewrite lookup_insert_ne by done.
    destruct Hk as [Hk | (g & Hg & ->)]; [by left |].
    apply elem_of_cons in Hg as [-> | Hg]; [done |]. right. eauto.
Qed.

Lemma scan_pages_spec (q : query) (directory suffix : string) (pages : list (list file))
    (page_no : nat) (results : list string) (st : self_) :
  ∃ st',
    scan_pages q directory suffix pages page_no results st
    = (Ok (results ++ (rel_path directory <$>
                       filter (λ f, keeps suffix f = true) (concat pages))), st')
    ∧ service_files st' = service_files st
    ∧ (∀ k, is_Some (_file_id_cache st !! k)
            ∨ (∃ f, f ∈ concat pages ∧ k = rel_path directory f) →
            is_Some (_file_id_cache st' !! k)).
Proof.
  revert page_no results st. induction pages as [|page pages IH]; intros page_no results st.
  { exists st. split; [by rewrite app_nil_r |]. split; [done |].
    intros k [Hk | (f & Hf & _)]; [done | by apply elem_of_nil in Hf]. }
  simpl. unfold mbind, PyM_bind, bind, modify.
  destruct (scan_page_spec directory suffix page results
              (with_request (FilesList q page_no) st)) as (st1 & -> & Hf1 & Hc1).
  destruct (IH (S page_no)
               (results ++ (rel_path directory <$> filter (λ f, keeps suffix f = true) page))
               st1) as (st' & -> & Hf' & Hc').
  exists st'. split; [| split].
  - by rewrite filter_app, fmap_app, app_assoc.
  - by rewrite Hf', Hf1.
  - intros k Hk. apply Hc'.
    destruct Hk as [Hk | (f & Hf & ->)]; [left; apply Hc1; by left |].
    apply elem_of_app in Hf as [Hf | Hf]; [left; apply Hc1; right; eauto | right; eauto].
Qed.

(** The remote [list_files]: the children of the folder that the query
    returns and whose name passes the suffix test, in descending order;
    nothing when the folder does not resolve.  Every child the query
    returns is in the file cache afterwards. *)
Lemma remote_list_files_spec (directory pattern : string) (st : self_) :
  let suffix := if PyStr.startswith pattern "*" then PyStr.tail pattern else "" in
  let q folder_id :=
    ChildrenOf folder_id (if bool_decide (suffix = "") then None else Some suffix) in
  ∃ st',
    list_files directory pattern st
    = (Ok (match (_resolve_folder_id directory st).1 with
           | Ok folder_id =>
               PyStr.sorted_reverse
                 (rel_path directory <$>
                  filter (λ f, keeps suffix f = true) (select (q folder_id) (service_files st)))
           | Raise _ => []
           end), st')
    ∧ (∀ folder_id f,
         (_resolve_folder_id directory st).1 = Ok folder_id →
         f ∈ select (q folder_id) (service_files st) →
         is_Some (_file_id_cache st' !! rel_path directory f)).
Proof.
  intros suffix q. unfold list_files. fold suffix.
  unfold mbind at 1. unfold PyM_bind, bind at 1.
  unfold unless_not_found, try_except. unfold mbind at 1. unfold PyM_bind, bind at 1.
  pose proof (resolve_folder_id_frame directory st) as (Hf & Hp & _).
  pose proof (resolve_folder_id_raises directory st) as Hraise.
  destruct (_resolve_folder_id directory st) as [[folder_id|e] s1]; simpl in *.
  - unfold mbind, PyM_bind, bind, get, mret, PyM_ret, ret.
    destruct (scan_pages_spec (q folder_id) directory suffix
                (paginate (page_size s1) (S (page_size s1))
                   (select (q folder_id) (service_files s1))) 0 [] s1)
      as (st' & Hrun & _ & Hcache).
    fold (q folder_id). rewrite Hrun. rewrite concat_paginate in *. simpl.
    rewrite Hf in *. exists st'. split; [done |].
    intros ? f [= <-] Hin. apply Hcache. right. eauto.
  - destruct (Hraise e eq_refl) as (part & _ & ->). simpl.
    exists s1. split; [done |]. intros ? ? [=].
Qed.

Lemma startswith_star (ext : string) : PyStr.startswith (String "*" ext) "*" = true.
Proof. unfold PyStr.startswith. simpl. by destruct ext. Qed.

Lemma rel_path_inj (directory : string) (f g : file) :
  rel_path directory f = rel_path directory g → Drive.name f = Drive.name g.
Proof.
  unfold rel_path. intros Heq.
  apply (inj (String.append directory)) in Heq.
  by apply (inj (String.append "/")) in Heq.
Qed.

(** What the remote [list_files] returns for a pattern "*" + suffix: the
    children of the resolved folder that are not trashed and whose name
    ends with the suffix. *)
Lemma remote_list_files_members (directory ext : string) (st : self_) (s : string) :
  s ∈ match (list_files directory (String "*" ext) st).1 with
      | Ok l => l
      | Raise _ => []
      end
  ↔ ∃ folder_id f,
      (_resolve_folder_id directory st).1 = Ok folder_id
      ∧ f ∈ service_files st ∧ Drive.parent f = folder_id ∧ trashed f = false
      ∧ PyStr.endswith (Drive.name f) ext = true
      ∧ s = rel_path directory f.
Proof.
  destruct (remote_list_files_spec directory (String "*" ext) st) as (st' & -> & _).
  rewrite startswith_star. simpl.
  assert (∀ folder_id f,
            f ∈ filter (λ f, keeps ext f = true)
                  (select (ChildrenOf folder_id
                             (if bool_decide (ext = "") then None else Some ext))
                     (service_files st))
            ↔ f ∈ service_files st ∧ Drive.parent f = folder_id ∧ trashed f = false
              ∧ PyStr.endswith (Drive.name f) ext = true) as Hmem.
  { intros folder_id f. unfold select. rewrite !list_elem_of_filter.
    unfold keeps, matches. split.
    - intros (Hkeep & Hmatch & Hin).
      apply andb_true_iff in Hmatch as [Hmatch _].
      apply andb_true_iff in Hmatch as [Hpar Htr].
      apply bool_decide_eq_true_1 in Hpar. apply negb_true_iff in Htr.
      repeat split; try done.
      apply orb_true_iff in Hkeep as [Hempty | Hend]; [| done].
      apply bool_decide_eq_true_1 in Hempty as ->. apply endswith_empty.
    - intros (Hin & Hpar & Htr & Hend). repeat split; try done.
      + rewrite Hend. apply orb_true_r.
      + rewrite bool_decide_eq_true_2, Htr by done. simpl.
        case_bool_decide; [done |]. by apply endswith_contains. }
  destruct (_resolve_folder_id directory st).1 as [folder_id|e]; simpl.
  - rewrite sorted_reverse_elem, list_elem_of_fmap. split.
    + intros (f & -> & Hf). apply Hmem in Hf as (? & ? & ? & ?).
      exists folder_id, f. by repeat split.
    + intros (? & f & [= <-] & Hin & Hpar & Htr & Hend & ->).
      exists f. split; [done |]. apply Hmem. by repeat split.
  - split; [by intros ?%elem_of_nil |]. by intros (? & ? & ? & _).
Qed.

Lemma remote_list_files_ok (directory pattern : string) (st : self_) :
  ∃ l, (list_files directory pattern st).1 = Ok l ∧ StronglySorted PyStr.ge l.
Proof.
  destruct (remote_list_files_spec directory pattern st) as (st' & -> & _).
  eexists. split; [done |].
  destruct (_resolve_folder_id directory st).1; [apply sorted_reverse_sorted |].
  constructor.
Qed.



Lemma remote_list_files_drops_other_names (directory suffix : string) (st : self_)
    (f : file) (l : list string) :
  PyStr.endswith (Drive.name f) suffix = false →
  (list_files directory (String "*" suffix) st).1 = Ok l →
  rel_path directory f ∉ l.
Proof.
  intros Hend Hl Hin.
  pose proof (remote_list_files_members directory suffix st (rel_path directory f)) as Hmem.
  rewrite Hl in Hmem. apply Hmem in Hin as (_ & g & _ & _ & _ & _ & Hg & Heq).
  apply rel_path_inj in Heq. congruence.
Qed.

(** C9 (amended).  The remote [list_files] sends a name-contains query
    built from the suffix of the pattern, and then keeps only the names
    that end with the suffix: a child whose name contains the suffix
    without ending in it (such as "foo.md.bak" for "*.md") is returned by
    the query and recorded in the file cache, but it is not in the
    results. *)
Theorem remote_list_files_suffix_filter (directory suffix : string) (st : self_) :
  let out := list_files directory (String "*" suffix) st in
  suffix ≠ "" →
  (∃ l, out.1 = Ok l
        ∧ (∀ f, PyStr.endswith (Drive.name f) suffix = false → rel_path directory f ∉ l)
        ∧ (∀ folder_id f,
             (_resolve_folder_id directory st).1 = Ok folder_id →
             f ∈ service_files st → Drive.parent f = folder_id → trashed f = false →
             PyStr.contains (Drive.name f) suffix = true →
             is_Some (_file_id_cache out.2 !! rel_path directory f)))
  ∧ (list_files "notes" "*.md" Examples.remote).1 = Ok ["notes/a.md"]
  ∧ _file_id_cache (list_files "notes" "*.md" Examples.remote).2 !! "notes/foo.md.bak"
    = Some 7%N.
Proof.
  intros out Hsuffix. split; [| by vm_compute].
  destruct (remote_list_files_ok directory (String "*" suffix) st) as (l & Hl & _).
  exists l. split; [done |]. split.
  - intros f Hend. by eapply remote_list_files_drops_other_names.
  - intros folder_id f Hres Hin Hpar Htr Hcontains.
    destruct (remote_list_files_spec directory (String "*" suffix) st)
      as (st' & Hrun & Hcache).
    unfold out. rewrite Hrun. simpl. apply (Hcache folder_id); [done |].
    rewrite startswith_star. simpl. rewrite bool_decide_eq_false_2 by done.
    unfold select. apply list_elem_of_filter. split; [| done].
    unfold matches. rewrite bool_decide_eq_true_2, Htr, Hcontains by done. done.
Qed.

Lemma remote_list_files_suffix_filter_witness :
  (list_files "notes" "*.md" Examples.remote).1 = Ok ["notes/a.md"]
  ∧ _file_id_cache (list_files "notes" "*.md" Examples.remote).2 !! "notes/foo.md.bak"
    = Some 7%N.
Proof.
  destruct (remote_list_files_suffix_filter "notes" ".md" Examples.remote)
    as [_ Hsample]; [discriminate | exact Hsample].
Defined.

(** C9 (counterexample).  No file whose name contains the suffix
    without ending in it is ever among the results. *)
Lemma remote_list_files_never_returns_over_match :
  ¬ ∃ (st : self_) (directory suffix : string) (f : file) (l : list string),
      f ∈ service_files st
      ∧ PyStr.contains (Drive.name f) suffix = true
      ∧ PyStr.endswith (Drive.name f) suffix = false
      ∧ (list_files directory (String "*" suffix) st).1 = Ok l
      ∧ rel_path directory f ∈ l.
Proof.
  intros (st & directory & suffix & f & l & _ & _ & Hend & Hl & Hin).
  by eapply remote_list_files_drops_other_names.
Qed.

(** * Further properties of the storage code *)

(** ** The local backend: reads *)

(** X1.  The four read operations of the local backend never raise and
    never change the disk, whatever the disk holds and whatever name,
    directory or pattern they are given. *)
Theorem local_reads_never_raise `{Json} (self : LocalStorage.self_)
    (fs : filesystem) (a pattern : string) :
  (∃ v, LocalStorage.load_json self a fs = (Ok v, fs))
  ∧ (∃ t, LocalStorage.read_text self a fs = (Ok t, fs))
  ∧ (∃ l, LocalStorage.list_files self a pattern fs = (Ok l, fs))
  ∧ (∃ b, LocalStorage.file_exists self a fs = (Ok b, fs)).
Proof.
  split; [apply local_load_json_total |].
  split; [rewrite local_read_text_spec; eauto |].
  split; [| unfold LocalStorage.file_exists; py_unfold; eauto].
  unfold LocalStorage.list_files.
  unfold try_except, mbind, PyM_bind, bind, get, lift, mret, PyM_ret, ret.
  destruct (path_exists fs _); simpl; [| eauto].
  destruct (traverse _ _); eauto.
Qed.



(** ** The local backend: writes *)

Lemma universal_newlines_without_cr (s : string) :
  PyStr.contains s (String Codec.CR "") = false → Codec.universal_newlines s = s.
Proof.
  induction s as [|a s IH]; [done |].
  cbn [PyStr.contains Codec.universal_newlines].
  intros [Hpre Hrest]%orb_false_iff.
  destruct (Ascii.eqb_spec a Codec.CR) as [-> | Hne].
  - exfalso. simpl in Hpre. destruct (ascii_dec Codec.CR Codec.CR); [| done].
    by destruct s.
  - by rewrite IH.
Qed.

(** X3.  What the local [write_text] has written, [read_text] reads
    back: the text with CR LF and CR turned into LF, hence the text itself
    when it holds no CR; and [file_exists] then answers true.  (The text is
    UTF-8 as every Python string is, and the file written over, if any, is
    one the process may read.) *)
Theorem local_write_text_then_read_text (self : LocalStorage.self_)
    (path content : string) (fs : filesystem) :
  let filepath := joinpath (LocalStorage.shared_drive_root self) path in
  let written := LocalStorage.write_text self path content fs in
  Codec.valid_utf8 content = true →
  (∀ w d, stat fs filepath ≠ Some (File false w d)) →
  written.1 = Ok tt →
  (LocalStorage.read_text self path written.2).1
  = Ok (Some (Codec.universal_newlines content))
  ∧ (PyStr.contains content (String Codec.CR "") = false →
     (LocalStorage.read_text self path written.2).1 = Ok (Some content))
  ∧ (LocalStorage.file_exists self path written.2).1 = Ok true.
Proof.
  intros filepath written Hvalid Hreadable Hok.
  assert (∃ w, stat written.2 filepath = Some (File true w content)) as [w Hst].
  { unfold written, LocalStorage.write_text in *. fold filepath in Hok |- *.
    rewrite try_except_reraise in Hok |- *.
    destruct ((mkdir_parents (PurePath.parent filepath);;
               open_write_text filepath content) fs) as [[[]|e] fs'] eqn:Hrun; [| done].
    apply local_write_with_ok in Hrun as (Hne & fs1 & r & old & _ & -> & _ & Hcase).
    exists true. simpl. rewrite stat_nonroot, lookup_insert_eq by done.
    destruct Hcase as [Hold | (_ & -> & _)]; [| done].
    destruct r; [done |]. exfalso. apply (Hreadable true old).
    by rewrite stat_nonroot. }
  assert ((LocalStorage.read_text self path written.2).1
          = Ok (Some (Codec.universal_newlines content))) as Hread.
  { rewrite local_read_text_spec. fold filepath. by rewrite Hst, Hvalid. }
  split; [done |]. split.
  - intros Hcr. by rewrite Hread, universal_newlines_without_cr.
  - unfold LocalStorage.file_exists. py_unfold. simpl. fold filepath.
    by rewrite (path_exists_true _ _ _ Hst).
Qed.

Lemma local_write_text_then_read_text_witness :
  (LocalStorage.read_text Examples.local "logs/new.md"
     (LocalStorage.write_text Examples.local "logs/new.md" "hi" Examples.disk).2).1
  = Ok (Some "hi").
Proof.
  destruct (local_write_text_then_read_text Examples.local "logs/new.md" "hi" Examples.disk)
    as (_ & Hread & _).
  - reflexivity.
  - intros w d. vm_compute. discriminate.
  - vm_compute. reflexivity.
  - apply Hread. vm_compute. reflexivity.
Defined.


(** X4.  On the local backend, appending after a write that returned is
    writing the two texts joined: same result, same disk. *)
Theorem local_write_text_then_append_text (self : LocalStorage.self_)
    (path c1 c2 : string) (fs : filesystem) :
  (LocalStorage.write_text self path c1 fs).1 = Ok tt →
  LocalStorage.append_text self path c2 (LocalStorage.write_text self path c1 fs).2
  = LocalStorage.write_text self path (c1 +:+ c2) fs.
Proof.
  set (filepath := joinpath (LocalStorage.shared_drive_root self) path).
  unfold LocalStorage.write_text, LocalStorage.append_text. fold filepath.
  rewrite !try_except_reraise. intros Hok.
  destruct ((mkdir_parents (PurePath.parent filepath);; open_write_text filepath c1) fs)
    as [[[]|e] fs'] eqn:Hrun; [| done].
  apply local_write_with_ok in Hrun as (Hne & fs1 & r & old & Hmk & -> & Hsame & Hcase).
  destruct (mkdir_parents_dirs _ _ _ Hmk) as (Hpar & Hdirs & _).
  assert (∀ k, k `prefix_of` PurePath.parent filepath →
               <[filepath := File r true c1]> fs1 !! k = fs1 !! k) as Hkeep.
  { intros k Hpre. apply lookup_insert_ne. by apply filepath_not_parent_prefix. }
  unfold mbind, PyM_bind, bind. rewrite Hmk. simpl.
  unfold mkdir_parents. rewrite mkdir_from_idem.
  2:{ intros k Hk Hpre. simpl. rewrite Hkeep by done. by apply Hdirs. }
  unfold open_append_text, open_write_text, open_write_with.
  assert (stat (<[filepath := File r true c1]> fs1) (PurePath.parent filepath) = Some Dir)
    as ->.
  { destruct (PurePath.parent filepath) as [|y l] eqn:Hp; [done |].
    rewrite stat_cons, Hkeep by done. exact Hpar. }
  rewrite Hpar, !stat_nonroot, lookup_insert_eq, Hsame by done.
  rewrite insert_insert_eq.
  destruct Hcase as [-> | (-> & -> & _)]; done.
Qed.

Lemma local_write_text_then_append_text_witness :
  LocalStorage.append_text Examples.local "logs/new.md" "there"
    (LocalStorage.write_text Examples.local "logs/new.md" "hi " Examples.disk).2
  = LocalStorage.write_text Examples.local "logs/new.md" ("hi " +:+ "there") Examples.disk.
Proof.
  apply (local_write_text_then_append_text Examples.local "logs/new.md" "hi " "there"
           Examples.disk).
  vm_compute. reflexivity.
Defined.

(** What a local [save_json] that returns has run through. *)
Lemma local_save_json_ok `{Json} (self : LocalStorage.self_) (filename : string)
    (d : pyobj) (fs fs' : filesystem) :
  let filepath := joinpath (LocalStorage.data_dir self) filename in
  LocalStorage.save_json self filename d fs = (Ok tt, fs') →
  ∃ temp_path fs1 fs2,
    with_suffix filepath ".tmp" = Ok temp_path
    ∧ mkdir_parents (PurePath.parent filepath) fs = (Ok tt, fs1)
    ∧ open_write_text temp_path (json_dumps false d) fs1 = (Ok tt, fs2)
    ∧ replace temp_path filepath fs2 = (Ok tt, fs').
Proof.
  intros filepath. unfold LocalStorage.save_json. fold filepath.
  rewrite try_except_reraise. unfold mbind, PyM_bind, bind, lift.
  destruct (mkdir_parents (PurePath.parent filepath) fs) as [[[]|e] fs1]; [| done].
  destruct (with_suffix filepath ".tmp") as [temp_path|e]; [| done].
  destruct (open_write_text temp_path (json_dumps false d) fs1) as [[[]|e] fs2] eqn:Hw;
    [| done].
  intros Hrep. by exists temp_path, fs1, fs2.
Qed.

(** X5.  A local [save_json] that returns, for a record whose temporary
    path is not the destination, leaves the new text at the destination
    and nothing at the temporary path, whatever was there before; every
    other path, except the directories above the destination, is as it
    was. *)
Theorem local_save_json_effect `{Json} (self : LocalStorage.self_) (filename : string)
    (d : pyobj) (fs : filesystem) (temp_path : path) :
  let filepath := joinpath (LocalStorage.data_dir self) filename in
  let saved := LocalStorage.save_json self filename d fs in
  with_suffix filepath ".tmp" = Ok temp_path →
  temp_path ≠ filepath →
  saved.1 = Ok tt →
  (∃ r w, saved.2 !! filepath = Some (File r w (json_dumps false d)))
  ∧ saved.2 !! temp_path = None
  ∧ (∀ q, q ≠ filepath → q ≠ temp_path → ¬ q `prefix_of` PurePath.parent filepath →
          saved.2 !! q = fs !! q).
Proof.
  intros filepath saved Hws Hdiff Hok. unfold saved in *.
  destruct (LocalStorage.save_json self filename d fs) as [[[]|e] fs'] eqn:Hrun; [| done].
  apply local_save_json_ok in Hrun as (t & fs1 & fs2 & Hws' & Hmk & Hw & Hrep).
  fold filepath in Hws', Hmk, Hrep. rewrite Hws in Hws'. injection Hws' as <-.
  destruct (mkdir_parents_dirs _ _ _ Hmk) as (_ & _ & Hframe).
  pose proof Hw as Hst. apply open_write_with_stat in Hst as (r & w & old & Hst).
  apply open_write_with_ok in Hw as (Htne & r' & w' & old' & -> & _).
  unfold replace in Hrep. rewrite Hst, bool_decide_eq_false_2 in Hrep by done.
  destruct (stat _ (PurePath.parent filepath)) as [[]|]; try done.
  destruct (stat _ filepath) as [[]|] eqn:Hdst; try done;
    injection Hrep as <-; simpl.
  - split; [exists r, w; apply lookup_insert_eq |]. split.
    + rewrite lookup_insert_ne by done. apply lookup_delete_eq.
    + intros q Hq Hqt Hpre.
      rewrite lookup_insert_ne, lookup_delete_ne, lookup_insert_ne by done.
      by apply Hframe.
  - split; [exists r, w; apply lookup_insert_eq |]. split.
    + rewrite lookup_insert_ne by done. apply lookup_delete_eq.
    + intros q Hq Hqt Hpre.
      rewrite lookup_insert_ne, lookup_delete_ne, lookup_insert_ne by done.
      by apply Hframe.
Qed.

Lemma local_save_json_effect_witness :
  (∃ r w,
      (LocalStorage.save_json Examples.local "state.json" MiniJson.tasks_record
         Examples.disk).2 !! ["drive"; "mcp-data"; "state.json"]
      = Some (File r w (json_dumps false MiniJson.tasks_record)))
  ∧ (LocalStorage.save_json Examples.local "state.json" MiniJson.tasks_record
       Examples.disk).2 !! ["drive"; "mcp-data"; "state.tmp"] = None
  ∧ Examples.disk !! ["drive"; "mcp-data"; "state.tmp"] = Some (File true true "{}").
Proof.
  destruct (@local_save_json_effect MiniJson.json Examples.local "state.json"
              MiniJson.tasks_record Examples.disk ["drive"; "mcp-data"; "state.tmp"])
    as (Hdest & Htemp & _).
  - vm_compute. reflexivity.
  - discriminate.
  - vm_compute. reflexivity.
  - split; [exact Hdest |]. split; [exact Htemp |]. vm_compute. reflexivity.
Defined.

(** X6.  A local [save_json] that raises, for a record whose temporary
    path is not the destination, has left the destination as it was. *)
Theorem local_save_json_failure_keeps_destination `{Json} (self : LocalStorage.self_)
    (filename : string) (d : pyobj) (fs : filesystem) (e : exn) :
  let filepath := joinpath (LocalStorage.data_dir self) filename in
  let saved := LocalStorage.save_json self filename d fs in
  with_suffix filepath ".tmp" ≠ Ok filepath →
  saved.1 = Raise e →
  stat saved.2 filepath = stat fs filepath.
Proof.
  intros filepath saved Hdiff Hraise. unfold saved in *. revert Hraise.
  unfold LocalStorage.save_json. fold filepath.
  rewrite try_except_reraise. unfold mbind, PyM_bind, bind, lift.
  destruct (decide (filepath = [])) as [Hnil | Hne].
  { intros _. by rewrite Hnil. }
  rewrite !(stat_nonroot _ filepath) by done.
  pose proof (mkdir_from_frame (PurePath.parent filepath) [] fs filepath) as Hmk.
  unfold mkdir_parents.
  destruct (mkdir_from [] (PurePath.parent filepath) fs) as [[[]|e1] fs1]; simpl in Hmk.
  2:{ intros _. simpl. apply Hmk. by apply parent_shorter. }
  rewrite <- Hmk by (by apply parent_shorter).
  destruct (with_suffix filepath ".tmp") as [temp_path|e1] eqn:Hws; [| done].
  assert (temp_path ≠ filepath) as Hneq by congruence.
  destruct (open_write_text temp_path (json_dumps false d) fs1) as [[[]|e1] fs2] eqn:Hw.
  - pose proof Hw as Hst. apply open_write_with_stat in Hst as (r & w & old & Hst).
    apply open_write_with_ok in Hw as (Htne & r' & w' & old' & -> & _).
    unfold replace. rewrite Hst, bool_decide_eq_false_2 by done.
    destruct (stat _ (PurePath.parent filepath)) as [[]|]; simpl;
      try (intros _; by rewrite lookup_insert_ne).
    destruct (stat _ filepath) as [[]|]; simpl; try done.
    intros _. by rewrite lookup_insert_ne.
  - intros _. simpl. unfold open_write_text, open_write_with in Hw.
    destruct (stat fs1 (PurePath.parent temp_path)) as [[]|]; try (by injection Hw as _ <-).
    destruct (stat fs1 temp_path) as [[r w old|]|]; try (by injection Hw as _ <-);
      [| done].
    destruct w; [done |]. by injection Hw as _ <-.
Qed.

Lemma local_save_json_failure_keeps_destination_witness :
  stat (LocalStorage.save_json Examples.local "logs" MiniJson.tasks_record
          (<[ ["drive"; "mcp-data"; "logs"] := Dir ]> Examples.disk)).2
       ["drive"; "mcp-data"; "logs"]
  = Some Dir.
Proof.
  rewrite (@local_save_json_failure_keeps_destination MiniJson.json Examples.local "logs"
             MiniJson.tasks_record (<[ ["drive"; "mcp-data"; "logs"] := Dir ]> Examples.disk)
             IsADirectoryError).
  - vm_compute. reflexivity.
  - vm_compute. discriminate.
  - vm_compute. reflexivity.
Defined.

Lemma mkdir_from_blocked (todo : list string) (base : path) (fs : filesystem)
    (k : list string) r w d :
  k ≠ [] → k `prefix_of` todo → fs !! (base ++ k) = Some (File r w d) →
  ∃ e, (mkdir_from base todo fs).1 = Raise e.
Proof.
  revert base fs k. induction todo as [|x todo IH]; intros base fs k Hk Hpre Hfile.
  { by apply prefix_nil_inv in Hpre. }
  apply prefix_cons_nonempty in Hpre as (k' & -> & Hpre'); [| done].
  simpl. rewrite stat_nonroot by (by destruct base).
  rewrite <- snoc_app_cons in Hfile.
  destruct (decide (k' = [])) as [-> | Hk'].
  { rewrite app_nil_r in Hfile. rewrite Hfile. simpl. eauto. }
  destruct (fs !! (base ++ [x])) as [[]|]; [simpl; eauto | by eapply IH |].
  eapply IH; [done | done |].
  rewrite lookup_insert_ne; [done |]. by apply snoc_ne_longer.
Qed.

(** A write that raises has left its target as it was. *)
Lemma local_write_with_failure (upd : string → string) (filepath : path)
    (fs : filesystem) (e : exn) :
  let run := (mkdir_parents (PurePath.parent filepath);; open_write_with upd filepath) fs in
  run.1 = Raise e → stat run.2 filepath = stat fs filepath.
Proof.
  cbv zeta. unfold mbind, PyM_bind, bind.
  destruct (decide (filepath = [])) as [-> | Hne]; [done |].
  pose proof (mkdir_from_frame (PurePath.parent filepath) [] fs filepath
                (parent_shorter _ Hne)) as Hmk.
  unfold mkdir_parents.
  destruct (mkdir_from [] (PurePath.parent filepath) fs) as [[[]|e1] fs1]; simpl in Hmk.
  - unfold open_write_with.
    destruct (stat fs1 (PurePath.parent filepath)) as [[]|];
      try (intros _; simpl; by rewrite !stat_nonroot).
    destruct (stat fs1 filepath) as [[r w old|]|]; simpl; try done.
    + destruct w; [done |]. intros _. simpl. by rewrite !stat_nonroot.
    + intros _. by rewrite !stat_nonroot.
  - intros _. simpl. by rewrite !stat_nonroot.
Qed.

(** X7.  The local [write_text] and [append_text] raise when the target
    is a directory or when a regular file stands where one of its parent
    directories is needed, and they leave the target as it was. *)
Theorem local_write_text_blocked (self : LocalStorage.self_) (path content : string)
    (fs : filesystem) :
  let filepath := joinpath (LocalStorage.shared_drive_root self) path in
  let written := LocalStorage.write_text self path content fs in
  let appended := LocalStorage.append_text self path content fs in
  (stat fs filepath = Some Dir
   ∨ ∃ k r w d, k ≠ [] ∧ k `prefix_of` PurePath.parent filepath
                ∧ fs !! k = Some (File r w d)) →
  (∃ e, written.1 = Raise e) ∧ (∃ e, appended.1 = Raise e)
  ∧ stat written.2 filepath = stat fs filepath
  ∧ stat appended.2 filepath = stat fs filepath.
Proof.
  intros filepath written appended Hblocked.
  assert (∀ upd, ∃ e,
            ((mkdir_parents (PurePath.parent filepath);; open_write_with upd filepath) fs).1
            = Raise e) as Hraise.
  { intros upd. unfold mbind, PyM_bind, bind.
    destruct Hblocked as [Hdir | (k & r & w & d & Hk & Hpre & Hfile)].
    - destruct (mkdir_parents (PurePath.parent filepath) fs) as [[[]|e] fs1] eqn:Hmk;
        [| simpl; eauto].
      destruct (mkdir_parents_dirs _ _ _ Hmk) as (Hpar & _ & Hframe).
      unfold open_write_with. rewrite Hpar.
      destruct (decide (filepath = [])) as [Hnil | Hne].
      { rewrite Hnil. simpl. eauto. }
      rewrite stat_nonroot, Hframe by
        (done || (intros Hpre; apply (filepath_not_parent_prefix filepath filepath); done)).
      rewrite stat_nonroot in Hdir by done. rewrite Hdir. simpl. eauto.
    - destruct (mkdir_from_blocked (PurePath.parent filepath) [] fs k r w d Hk Hpre Hfile)
        as [e He].
      unfold mkdir_parents.
      destruct (mkdir_from [] (PurePath.parent filepath) fs) as [[[]|e1] fs1]; [done |].
      simpl. eauto. }
  unfold written, appended, LocalStorage.write_text, LocalStorage.append_text.
  fold filepath. rewrite !try_except_reraise.
  destruct (Hraise (λ _, content)) as [e1 He1].
  destruct (Hraise (λ old, old +:+ content)) as [e2 He2].
  split; [by exists e1 |]. split; [by exists e2 |]. split.
  - by apply (local_write_with_failure (λ _, content) filepath fs e1).
  - by apply (local_write_with_failure (λ old, old +:+ content) filepath fs e2).
Qed.

Lemma local_write_text_blocked_witness :
  (∃ e, (LocalStorage.write_text Examples.local "latin.txt/note.md" "hi"
           Examples.disk).1 = Raise e)
  ∧ (∃ e, (LocalStorage.append_text Examples.local "latin.txt/note.md" "hi"
             Examples.disk).1 = Raise e)
  ∧ stat (LocalStorage.write_text Examples.local "latin.txt/note.md" "hi"
            Examples.disk).2 ["drive"; "latin.txt"; "note.md"]
    = stat Examples.disk ["drive"; "latin.txt"; "note.md"]
  ∧ stat (LocalStorage.append_text Examples.local "latin.txt/note.md" "hi"
            Examples.disk).2 ["drive"; "latin.txt"; "note.md"]
    = stat Examples.disk ["drive"; "latin.txt"; "note.md"].
Proof.
  apply (local_write_text_blocked Examples.local "latin.txt/note.md" "hi" Examples.disk).
  right. exists ["drive"; "latin.txt"], true, true, Examples.latin1_bytes.
  split; [done |]. split; [| by vm_compute]. by exists [].
Defined.

(** ** What the remote operations keep *)

#[local] Instance cache_grows_preorder : PreOrder cache_grows.
Proof.
  split.
  - by intros st.
  - intros s1 s2 s3 (Hp & Hd & Hfo & Hfi) (Hp' & Hd' & Hfo' & Hfi').
    repeat split; [congruence | congruence | by etrans | by etrans].
Qed.

#[local] Instance reads_only_preorder : PreOrder reads_only.
Proof.
  split.
  - by intros st.
  - intros s1 s2 s3 [Hf Hc] [Hf' Hc']. split; [congruence | by etrans].
Qed.

Lemma maintains_ret {A} (R : relation self_) `{!Reflexive R} (a : A) :
  maintains R (mret a).
Proof. by intros st. Qed.

Lemma maintains_lift {A} (R : relation self_) `{!Reflexive R} (r : result A) :
  maintains R (lift r).
Proof. by intros st. Qed.

Lemma maintains_bind {A B} (R : relation self_) `{!Transitive R}
    (m : PyM self_ A) (k : A → PyM self_ B) :
  maintains R m → (∀ a, maintains R (k a)) → maintains R (x ← m; k x).
Proof.
  intros Hm Hk st. unfold mbind, PyM_bind, bind.
  specialize (Hm st). destruct (m st) as [[a|e] s1]; simpl in *; [| done].
  etrans; [exact Hm | apply Hk].
Qed.

Lemma maintains_weaken {A} (R R' : relation self_) (m : PyM self_ A) :
  (∀ st st', R st st' → R' st st') → maintains R m → maintains R' m.
Proof. intros HR Hm st. apply HR, Hm. Qed.

Lemma reads_only_cache_grows (st st' : self_) : reads_only st st' → cache_grows st st'.
Proof. by intros []. Qed.

Lemma maintains_files_get_media (i : N) : maintains reads_only (files_get_media i).
Proof.
  intros st. unfold files_get_media.
  destruct (lookup_id _ _) as [f|]; [destruct (is_folder f) |]; done.
Qed.

Lemma maintains_files_update (i : N) (content : string) :
  maintains cache_grows (files_update i content).
Proof.
  intros st. unfold files_update.
  destruct (lookup_id _ _) as [f|]; [destruct (is_folder f) |]; done.
Qed.

Lemma maintains_files_create (n : string) (p : N) (mime content : string) :
  maintains cache_grows (files_create n p mime content).
Proof. intros st. unfold files_create. by destruct (folder_exists st p). Qed.

Lemma maintains_resolve_folder_id (fp : string) : maintains reads_only (_resolve_folder_id fp).
Proof.
  intros st. destruct (resolve_folder_id_frame fp st) as (Hf & Hp & Hd & Hfi & Hfo).
  repeat split; try done. by rewrite Hfi.
Qed.

(** A path that does not resolve is not cached, before or after. *)
Lemma resolve_file_id_none (path : string) (st : self_) :
  (_resolve_file_id path st).1 = Ok None →
  _file_id_cache st !! path = None
  ∧ _file_id_cache (_resolve_file_id path st).2 = _file_id_cache st.
Proof.
  rewrite resolve_file_id_unfold.
  destruct (_file_id_cache st !! path) as [c|] eqn:Hc; [done |].
  pose proof (resolve_folder_id_frame (folder_and_name path).1 st) as (_ & _ & _ & Hfi & _).
  destruct (_resolve_folder_id _ st) as [[parent_id|e] s1]; simpl in *; [| done].
  by destruct (select _ _).
Qed.

(** [_resolve_file_id] never raises. *)
Lemma resolve_file_id_returns (path : string) (st : self_) :
  ∃ found, (_resolve_file_id path st).1 = Ok found.
Proof.
  rewrite resolve_file_id_unfold.
  destruct (_file_id_cache st !! path) as [c|]; [by eexists |].
  destruct (_resolve_folder_id _ st) as [[parent_id|e] s1]; simpl; [| by eexists].
  destruct (select _ _); by eexists.
Qed.

Lemma maintains_resolve_file_id (path : string) : maintains reads_only (_resolve_file_id path).
Proof.
  intros st. rewrite resolve_file_id_unfold.
  destruct (_file_id_cache st !! path) as [c|] eqn:Hc; [done |].
  pose proof (maintains_resolve_folder_id (folder_and_name path).1 st)
    as (Hf & Hp & Hd & Hfo & Hfi).
  pose proof (resolve_folder_id_frame (folder_and_name path).1 st) as (_ & _ & _ & Heq & _).
  destruct (_resolve_folder_id _ st) as [[parent_id|e] s1]; simpl in *; [| done].
  destruct (select _ _) as [|f files]; [done |].
  repeat split; try done. simpl. rewrite Heq.
  by apply insert_subseteq.
Qed.

Lemma maintains_download_content (i : N) : maintains reads_only (_download_content i).
Proof.
  unfold _download_content. apply maintains_bind; [apply _ | |].
  - apply maintains_files_get_media.
  - intros buffer. apply maintains_lift, _.
Qed.

Lemma maintains_upload_content (path content mime : string) :
  maintains cache_grows (_upload_content path content mime).
Proof.
  intros st. unfold _upload_content. unfold mbind at 1. unfold PyM_bind, bind at 1.
  pose proof (maintains_resolve_file_id path st) as Hres.
  apply reads_only_cache_grows in Hres.
  pose proof (resolve_file_id_none path st) as Hnone.
  destruct (_resolve_file_id path st) as [[[i|]|e] s1]; simpl in *; [| | done].
  - etrans; [exact Hres |].
    apply (maintains_bind cache_grows); [apply maintains_files_update |].
    intros _. apply maintains_ret, _.
  - destruct (Hnone eq_refl) as [Hmiss Hsame].
    destruct (folder_and_name path) as [folder_path filename].
    unfold mbind, PyM_bind, bind.
    pose proof (maintains_resolve_folder_id folder_path s1) as Hfolder.
    pose proof (resolve_folder_id_frame folder_path s1) as (_ & _ & _ & Hfi & _).
    apply reads_only_cache_grows in Hfolder.
    destruct (_resolve_folder_id folder_path s1) as [[parent_id|e] s2]; simpl in *;
      [| by etrans].
    pose proof (maintains_files_create filename parent_id mime content s2) as Hcreate.
    assert (_file_id_cache (files_create filename parent_id mime content s2).2
            = _file_id_cache s2) as Hkeep.
    { unfold files_create. by destruct (folder_exists s2 parent_id). }
    destruct (files_create filename parent_id mime content s2) as [[new_id|e] s3];
      simpl in *; [| etrans; [exact Hres |]; by etrans].
    etrans; [exact Hres |]. etrans; [exact Hfolder |]. etrans; [exact Hcreate |].
    unfold modify, mret, PyM_ret, ret. simpl.
    repeat split; try done. simpl. apply insert_subseteq.
    by rewrite Hkeep, Hfi, Hsame.
Qed.

Lemma maintains_read_text (path : string) : maintains reads_only (read_text path).
Proof.
  unfold read_text. apply maintains_bind; [apply _ | apply maintains_resolve_file_id |].
  intros [i|]; [| apply maintains_ret, _].
  apply maintains_bind; [apply _ | apply maintains_download_content |].
  intros content. apply maintains_ret, _.
Qed.

Lemma maintains_load_json `{Json} (filename : string) :
  maintains reads_only (load_json filename).
Proof.
  unfold load_json. apply maintains_bind; [apply _ | apply maintains_resolve_file_id |].
  intros [i|]; [| apply maintains_ret, _].
  apply maintains_bind; [apply _ | apply maintains_download_content |].
  intros content. apply maintains_lift, _.
Qed.

Lemma maintains_file_exists (path : string) : maintains reads_only (file_exists path).
Proof.
  unfold file_exists. apply maintains_bind; [apply _ | apply maintains_resolve_file_id |].
  intros found. apply maintains_ret, _.
Qed.

Lemma maintains_write_text (path content : string) :
  maintains cache_grows (write_text path content).
Proof.
  unfold write_text. apply maintains_bind; [apply _ | apply maintains_upload_content |].
  intros i. apply maintains_ret, _.
Qed.

Lemma maintains_save_json `{Json} (filename : string) (d : pyobj) :
  maintains cache_grows (save_json filename d).
Proof.
  unfold save_json. apply maintains_bind; [apply _ | apply maintains_upload_content |].
  intros i. apply maintains_ret, _.
Qed.

Lemma maintains_append_text (path content : string) :
  maintains cache_grows (append_text path content).
Proof.
  unfold append_text. apply maintains_bind; [apply _ | |].
  - eapply maintains_weaken; [apply reads_only_cache_grows | apply maintains_read_text].
  - intros existing. apply maintains_bind; [apply _ | apply maintains_upload_content |].
    intros i. apply maintains_ret, _.
Qed.

(** The file cache after one response of the listing: the path of every
    child of the page maps to the identifier of a child with that path,
    every other entry is as it was. *)
Lemma scan_page_cache (directory suffix : string) (page : list file)
    (results : list string) (st : self_) :
  let st' := (scan_page directory suffix page results st).2 in
  service_files st' = service_files st
  ∧ page_size st' = page_size st
  ∧ shared_drive_id st' = shared_drive_id st
  ∧ _folder_id_cache st' = _folder_id_cache st
  ∧ requests st' = requests st
  ∧ ∀ k, (∃ f, f ∈ page ∧ rel_path directory f = k
               ∧ _file_id_cache st' !! k = Some (id f))
         ∨ ((∀ f, f ∈ page → rel_path directory f ≠ k)
            ∧ _file_id_cache st' !! k = _file_id_cache st !! k).
Proof.
  revert results st. induction page as [|f page IH]; intros results st.
  { repeat split; try done. intros k. right. split; [| done].
    intros f Hf. by apply elem_of_nil in Hf. }
  simpl. unfold mbind, PyM_bind, bind, modify. simpl.
  destruct (IH (if keeps suffix f then results ++ [rel_path directory f] else results)
               (cache_file (rel_path directory f) (id f) st))
    as (Hf & Hp & Hd & Hfo & Hrq & Hcache).
  repeat split; try done. intros k.
  destruct (Hcache k) as [(g & Hg & Hk & Hid) | [Hno Hsame]].
  { left. exists g. split; [by apply elem_of_cons; right | done]. }
  destruct (decide (rel_path directory f = k)) as [Hk | Hne].
  - left. exists f. split; [by apply elem_of_cons; left |]. split; [done |].
    rewrite Hsame. simpl. by rewrite <- Hk, lookup_insert_eq.
  - right. split.
    + intros g Hg. apply elem_of_cons in Hg as [-> | Hg]; [done | by apply Hno].
    + rewrite Hsame. simpl. by rewrite lookup_insert_ne.
Qed.

Lemma scan_pages_cache (q : query) (directory suffix : string) (pages : list (list file))
    (page_no : nat) (results : list string) (st : self_) :
  let st' := (scan_pages q directory suffix pages page_no results st).2 in
  service_files st' = service_files st
  ∧ page_size st' = page_size st
  ∧ shared_drive_id st' = shared_drive_id st
  ∧ _folder_id_cache st' = _folder_id_cache st
  ∧ ∀ k, (∃ f, f ∈ concat pages ∧ rel_path directory f = k
               ∧ _file_id_cache st' !! k = Some (id f))
         ∨ ((∀ f, f ∈ concat pages → rel_path directory f ≠ k)
            ∧ _file_id_cache st' !! k = _file_id_cache st !! k).
Proof.
  revert page_no results st. induction pages as [|page pages IH]; intros page_no results st.
  { repeat split; try done. intros k. right. split; [| done].
    intros f Hf. by apply elem_of_nil in Hf. }
  simpl. unfold mbind, PyM_bind, bind, modify.
  pose proof (scan_page_cache directory suffix page results
                (with_request (FilesList q page_no) st))
    as (Hf1 & Hp1 & Hd1 & Hfo1 & _ & Hc1).
  destruct (scan_page_spec directory suffix page results
              (with_request (FilesList q page_no) st)) as (st1 & Hrun & _).
  rewrite Hrun in *. simpl in *.
  destruct (IH (S page_no)
               (results ++ (rel_path directory <$> filter (λ f, keeps suffix f = true) page))
               st1) as (Hf & Hp & Hd & Hfo & Hcache).
  repeat split; try congruence. intros k.
  destruct (Hcache k) as [(g & Hg & Hk & Hid) | [Hno Hsame]].
  { left. exists g. split; [apply elem_of_app; by right | done]. }
  destruct (Hc1 k) as [(g & Hg & Hk & Hid) | [Hno1 Hsame1]].
  - left. exists g. split; [apply elem_of_app; by left |]. split; [done |].
    by rewrite Hsame.
  - right. split; [| by rewrite Hsame].
    intros g Hg. apply elem_of_app in Hg as [Hg | Hg]; [by apply Hno1 | by apply Hno].
Qed.

(** The state after [list_files]. *)
Lemma remote_list_files_state (directory pattern : string) (st : self_) :
  let suffix := if PyStr.startswith pattern "*" then PyStr.tail pattern else "" in
  let q folder_id :=
    ChildrenOf folder_id (if bool_decide (suffix = "") then None else Some suffix) in
  let st' := (list_files directory pattern st).2 in
  service_files st' = service_files st
  ∧ page_size st' = page_size st
  ∧ shared_drive_id st' = shared_drive_id st
  ∧ _folder_id_cache st ⊆ _folder_id_cache st'
  ∧ match (_resolve_folder_id directory st).1 with
    | Ok folder_id =>
        ∀ k, (∃ f, f ∈ select (q folder_id) (service_files st)
                   ∧ rel_path directory f = k
                   ∧ _file_id_cache st' !! k = Some (id f))
             ∨ ((∀ f, f ∈ select (q folder_id) (service_files st) →
                      rel_path directory f ≠ k)
                ∧ _file_id_cache st' !! k = _file_id_cache st !! k)
    | Raise _ => _file_id_cache st' = _file_id_cache st
    end.
Proof.
  intros suffix q. cbv zeta. unfold list_files. fold suffix.
  unfold unless_not_found, try_except, mbind, PyM_bind, bind, get, mret, PyM_ret, ret.
  pose proof (resolve_folder_id_frame directory st) as (Hf & Hp & Hd & Hfi & Hfo).
  pose proof (resolve_folder_id_raises directory st) as Hraise.
  destruct (_resolve_folder_id directory st) as [[folder_id|e] s1]; simpl in *.
  - pose proof (scan_pages_cache (q folder_id) directory suffix
                  (paginate (page_size s1) (S (page_size s1))
                     (select (q folder_id) (service_files s1))) 0 [] s1)
      as (Hf' & Hp' & Hd' & Hfo' & Hcache).
    destruct (scan_pages_spec (q folder_id) directory suffix
                (paginate (page_size s1) (S (page_size s1))
                   (select (q folder_id) (service_files s1))) 0 [] s1)
      as (st' & Hrun & _).
    fold (q folder_id). rewrite Hrun in *. simpl in *.
    rewrite concat_paginate, Hf, Hfi in Hcache.
    repeat split; [congruence | congruence | congruence | by rewrite Hfo' | exact Hcache].
  - destruct (Hraise e eq_refl) as (part & _ & ->). simpl. done.
Qed.

(** X8.  The four read operations of the remote backend ([load_json],
    [read_text], [list_files], [file_exists]) leave the drive as it
    was, whether they return or raise: no object is created, changed or
    removed. *)
Theorem remote_reads_leave_drive_unchanged `{Json} (st : self_)
    (filename path directory pattern : string) :
  service_files (load_json filename st).2 = service_files st
  ∧ service_files (read_text path st).2 = service_files st
  ∧ service_files (list_files directory pattern st).2 = service_files st
  ∧ service_files (file_exists path st).2 = service_files st.
Proof.
  split; [apply maintains_load_json |].
  split; [apply maintains_read_text |].
  split; [apply remote_list_files_state | apply maintains_file_exists].
Qed.

(** X9.  The identifier caches only grow.  Whatever their outcome,
    [load_json], [save_json], [read_text], [write_text], [append_text]
    and [file_exists] leave every entry of the folder cache and of the
    file cache as it was and only add entries; [list_files] leaves every
    entry of the folder cache as it was and removes no path from the
    file cache (it may give a path another identifier).  None of the
    seven operations changes the page size or the drive identifier. *)
Theorem remote_caches_only_grow `{Json} (st : self_) (filename : string) (d : pyobj)
    (path content directory pattern : string) :
  cache_grows st (load_json filename st).2
  ∧ cache_grows st (save_json filename d st).2
  ∧ cache_grows st (read_text path st).2
  ∧ cache_grows st (write_text path content st).2
  ∧ cache_grows st (append_text path content st).2
  ∧ cache_grows st (file_exists path st).2
  ∧ (let listed := (list_files directory pattern st).2 in
     page_size listed = page_size st
     ∧ shared_drive_id listed = shared_drive_id st
     ∧ _folder_id_cache st ⊆ _folder_id_cache listed
     ∧ ∀ k, is_Some (_file_id_cache st !! k) → is_Some (_file_id_cache listed !! k)).
Proof.
  split; [apply reads_only_cache_grows, maintains_load_json |].
  split; [apply maintains_save_json |].
  split; [apply reads_only_cache_grows, maintains_read_text |].
  split; [apply maintains_write_text |].
  split; [apply maintains_append_text |].
  split; [apply reads_only_cache_grows, maintains_file_exists |].
  cbv zeta.
  destruct (remote_list_files_state directory pattern st) as (_ & Hp & Hd & Hfo & Hfi).
  repeat split; try done. intros k Hk.
  destruct ((_resolve_folder_id directory st).1) as [folder_id|e]; [| by rewrite Hfi].
  destruct (Hfi k) as [(f & _ & _ & ->) | [_ ->]]; [by eexists | done].
Qed.

(** A write that returned has cached the path under the identifier of an
    object that is no folder and holds the content. *)
Lemma remote_write_text_ok (path content : string) (st : self_) :
  (write_text path content st).1 = Ok tt →
  ∃ i f, _file_id_cache (write_text path content st).2 !! path = Some i
         ∧ lookup_id (service_files (write_text path content st).2) i = Some f
         ∧ is_folder f = false ∧ data f = content.
Proof.
  unfold write_text, mbind, PyM_bind, bind, mret, PyM_ret, ret.
  destruct (_upload_content _ _ _ st) as [[i|e] st'] eqn:Hup; [| done].
  intros _. apply upload_content_ok in Hup as (Hc & f & Hf); [| done].
  exists i, f. by split.
Qed.

Lemma remote_file_exists_known (path : string) (st : self_) (i : N) :
  _file_id_cache st !! path = Some i → file_exists path st = (Ok true, st).
Proof.
  intros Hc. unfold file_exists, mbind, PyM_bind, bind, mret, PyM_ret, ret.
  rewrite resolve_file_id_unfold, Hc. done.
Qed.

(** X10.  What the remote [write_text] has written, [read_text] reads
    back unchanged (no newline translation on this side), provided the
    content is UTF-8; and [file_exists] answers true without a request. *)
Theorem remote_write_text_then_read_text (path content : string) (st : self_) :
  let written := write_text path content st in
  Codec.valid_utf8 content = true →
  written.1 = Ok tt →
  (read_text path written.2).1 = Ok (Some content)
  ∧ file_exists path written.2 = (Ok true, written.2).
Proof.
  intros written Hvalid Hok.
  destruct (remote_write_text_ok path content st Hok) as (i & f & Hc & Hid & Hfolder & Hdata).
  split.
  - unfold written. rewrite (remote_read_text_known path _ i f Hc Hid Hfolder).
    by rewrite Hdata, Hvalid.
  - by apply (remote_file_exists_known path _ i).
Qed.

Lemma remote_write_text_then_read_text_witness :
  (read_text "logs/2026-01-04.md"
     (write_text "logs/2026-01-04.md" "four" Examples.remote).2).1 = Ok (Some "four")
  ∧ file_exists "logs/2026-01-04.md"
      (write_text "logs/2026-01-04.md" "four" Examples.remote).2
    = (Ok true, (write_text "logs/2026-01-04.md" "four" Examples.remote).2).
Proof.
  apply (remote_write_text_then_read_text "logs/2026-01-04.md" "four" Examples.remote).
  - vm_compute. reflexivity.
  - vm_compute. reflexivity.
Defined.

Lemma folder_exists_store (st st' : self_) (p : N) :
  store st = store st' → folder_exists st p = folder_exists st' p.
Proof.
  intros Hst. apply store_eq_fields in Hst as (Hf & _ & Hd & _).
  unfold folder_exists. by rewrite Hf, Hd.
Qed.

(** What an upload that returned has done to the drive. *)
Lemma upload_content_upsert (path content mime : string) (st : self_) (i : N) :
  let uploaded := _upload_content path content mime st in
  uploaded.1 = Ok i →
  match (_resolve_file_id path st).1 with
  | Ok (Some j) =>
      i = j ∧ service_files uploaded.2 = set_data j content <$> service_files st
  | _ =>
      ∃ parent_id,
        (_resolve_folder_id (folder_and_name path).1 st).1 = Ok parent_id
        ∧ folder_exists st parent_id = true
        ∧ i = fresh_id (service_files st)
        ∧ service_files uploaded.2
          = service_files st ++
            [{| id := fresh_id (service_files st); name := (folder_and_name path).2;
                parent := parent_id; mime_type := mime; trashed := false;
                data := content |}]
  end.
Proof.
  cbv zeta. unfold _upload_content, mbind, PyM_bind, bind, mret, PyM_ret, ret, modify.
  rewrite !resolve_file_id_unfold.
  destruct (_file_id_cache st !! path) as [c|] eqn:Hc.
  { simpl. unfold files_update.
    destruct (lookup_id (service_files st) c) as [f|]; [| done].
    destruct (is_folder f); [done |]. simpl. by intros [= <-]. }
  pose proof (resolve_folder_id_frame (folder_and_name path).1 st) as (Hf & Hp & Hd & _).
  pose proof (resolve_folder_id_stable (folder_and_name path).1 st) as Hstable.
  destruct (folder_and_name path) as [folder_path filename]. simpl in *.
  destruct (_resolve_folder_id folder_path st) as [[p|e] s1] eqn:Hrun; simpl in *.
  - destruct (select _ (service_files s1)) as [|f files] eqn:Hsel; simpl.
    + specialize (Hstable (with_request (FilesList (NameInParent filename p false) 0) s1)
                    eq_refl) as [Hr Hs].
      pose proof (resolve_folder_id_frame folder_path
                    (with_request (FilesList (NameInParent filename p false) 0) s1))
        as (Hf2 & _).
      destruct (_resolve_folder_id folder_path
                  (with_request (FilesList (NameInParent filename p false) 0) s1))
        as [[p'|e'] s2]; simpl in *; [| done].
      injection Hr as ->. unfold files_create.
      assert (folder_exists s2 p = folder_exists st p) as ->.
      { unfold folder_exists.
        apply store_eq_fields in Hs as (-> & _ & -> & _). by rewrite Hf, Hd. }
      destruct (folder_exists st p) eqn:Hex; [| done].
      simpl. intros [= <-]. exists p. rewrite Hf2. simpl. rewrite Hf. done.
    + unfold files_update. simpl.
      destruct (lookup_id (service_files s1) (id f)) as [g|]; [| done].
      destruct (is_folder g); [done |]. simpl. intros [= <-]. by rewrite Hf.
  - specialize (Hstable s1 eq_refl) as [Hr Hs].
    destruct (_resolve_folder_id folder_path s1) as [[p'|e'] s2]; simpl in *; done.
Qed.



Lemma set_data_same (i : N) (d : string) (g : file) :
  (id g = i → data g = d) → set_data i d g = g.
Proof.
  intros Hd. unfold set_data. case_bool_decide as Hi; [| done].
  destruct g as [gi gn gp gm gt gd]. simpl in *. by rewrite Hd.
Qed.

Lemma fmap_set_data_same (i : N) (d : string) (files : list file) :
  (∀ g, g ∈ files → id g = i → data g = d) → set_data i d <$> files = files.
Proof.
  induction files as [|g files IH]; intros Hall; [done |].
  rewrite fmap_cons, set_data_same, IH; [done | |].
  - intros h Hh. apply Hall, elem_of_cons. by right.
  - apply Hall, elem_of_cons. by left.
Qed.

(** After an upload that returned, every object that carries the
    identifier holds the content. *)
Lemma upload_content_all (path content mime : string) (st : self_) (i : N) (g : file) :
  let uploaded := _upload_content path content mime st in
  uploaded.1 = Ok i → g ∈ service_files uploaded.2 → id g = i → data g = content.
Proof.
  intros uploaded Hok Hg Hid.
  pose proof (upload_content_upsert path content mime st i Hok) as Hupsert.
  assert (∀ p, g ∈ service_files st ++
                 [{| id := fresh_id (service_files st); name := (folder_and_name path).2;
                     parent := p; mime_type := mime; trashed := false; data := content |}] →
               i = fresh_id (service_files st) → data g = content) as Hcreate.
  { intros p Hin ->. apply elem_of_app in Hin as [Hin | Hin].
    - pose proof (fresh_id_above _ _ Hin). lia.
    - apply list_elem_of_singleton in Hin. by subst g. }
  fold uploaded in Hupsert.
  destruct ((_resolve_file_id path st).1) as [[j|]|e].
  - destruct Hupsert as [-> Hfiles]. rewrite Hfiles in Hg.
    apply list_elem_of_fmap in Hg as (h & -> & _).
    rewrite set_data_id in Hid. unfold set_data. by rewrite bool_decide_eq_true_2.
  - destruct Hupsert as (p & _ & _ & Hi & Hfiles). rewrite Hfiles in Hg. by eapply Hcreate.
  - destruct Hupsert as (p & _ & _ & Hi & Hfiles). rewrite Hfiles in Hg. by eapply Hcreate.
Qed.

(** X12.  The remote [write_text] can be repeated.  After a write that
    returned, a second write to the same path returns too and adds no
    object: it replaces the content under the identifier the first write
    has cached.  With the same content it changes nothing: the drive and
    the caches are as the first write left them. *)
Theorem remote_write_text_repeated (path content content' : string) (st : self_) :
  let once := write_text path content st in
  let twice := write_text path content' once.2 in
  once.1 = Ok tt →
  twice.1 = Ok tt
  ∧ (∃ i, _file_id_cache once.2 !! path = Some i
          ∧ service_files twice.2 = set_data i content' <$> service_files once.2)
  ∧ _file_id_cache twice.2 = _file_id_cache once.2
  ∧ _folder_id_cache twice.2 = _folder_id_cache once.2
  ∧ (content' = content → service_files twice.2 = service_files once.2).
Proof.
  intros once twice Hok.
  assert (∃ i s1, _upload_content path content "text/plain" st = (Ok i, s1)
                  ∧ once.2 = s1) as (i & s1 & Hup & Hs1).
  { revert Hok. unfold once, write_text, mbind, PyM_bind, bind, mret, PyM_ret, ret.
    destruct (_upload_content _ _ _ st) as [[i|e] st']; [| done]. by exists i, st'. }
  pose proof (upload_content_all path content "text/plain" st i) as Hall.
  rewrite Hup in Hall. simpl in Hall.
  apply upload_content_ok in Hup as (Hc & f & Hf & Hfolder & _); [| done].
  assert (twice = (Ok tt, with_files (set_data i content' <$> service_files s1)
                            (with_request (FilesUpdate i) s1))) as ->.
  { unfold twice. rewrite Hs1.
    unfold write_text, _upload_content, mbind, PyM_bind, bind, mret, PyM_ret, ret.
    rewrite resolve_file_id_unfold, Hc. unfold files_update. by rewrite Hf, Hfolder. }
  rewrite Hs1. simpl. split; [done |]. split; [by exists i |].
  split; [done |]. split; [done |].
  intros ->. apply fmap_set_data_same. intros g Hg Hid. by apply Hall.
Qed.

Lemma remote_write_text_repeated_witness :
  let once := write_text "logs/2026-01-04.md" "four" Examples.remote in
  let twice := write_text "logs/2026-01-04.md" "four" once.2 in
  twice.1 = Ok tt
  ∧ (∃ i, _file_id_cache once.2 !! "logs/2026-01-04.md" = Some i
          ∧ service_files twice.2 = set_data i "four" <$> service_files once.2)
  ∧ _file_id_cache twice.2 = _file_id_cache once.2
  ∧ _folder_id_cache twice.2 = _folder_id_cache once.2
  ∧ ("four" = "four" → service_files twice.2 = service_files once.2).
Proof.
  apply (remote_write_text_repeated "logs/2026-01-04.md" "four" "four" Examples.remote).
  vm_compute. reflexivity.
Defined.

Lemma resolve_file_id_found (path : string) (st : self_) (i : N) :
  (_resolve_file_id path st).1 = Ok (Some i) →
  ∀ r, _resolve_file_id path (with_request r (_resolve_file_id path st).2)
       = (Ok (Some i), with_request r (_resolve_file_id path st).2).
Proof.
  intros Hfound r. apply resolve_file_id_cached in Hfound.
  rewrite (resolve_file_id_unfold path (with_request _ _)). simpl. by rewrite Hfound.
Qed.

Lemma remote_read_text_found (path : string) (st : self_) (i : N) (f : file) :
  (_resolve_file_id path st).1 = Ok (Some i) →
  lookup_id (service_files st) i = Some f →
  is_folder f = false →
  read_text path st
  = (if Codec.valid_utf8 (data f) then Ok (Some (data f)) else Raise UnicodeDecodeError,
     with_request (FilesGetMedia i) (_resolve_file_id path st).2).
Proof.
  intros Hfound Hid Hfolder.
  pose proof (resolve_file_id_frame path st) as (Hfiles & _).
  unfold read_text, _download_content, mbind, PyM_bind, bind, mret, PyM_ret, ret, lift.
  destruct (_resolve_file_id path st) as [[[j|]|e] s1]; simpl in *; try done.
  injection Hfound as ->. unfold files_get_media. rewrite Hfiles, Hid, Hfolder.
  unfold Codec.decode. by destruct (Codec.valid_utf8 (data f)).
Qed.

(** X13.  The remote [append_text] on a path that resolves to a file is
    read, concatenate, write.  When the bytes of the file are UTF-8 it ends
    as [write_text] of the old content followed by the new one does (same
    outcome, same drive, same caches); when they are not, it raises the
    decoding error and the drive and the caches are as the resolution
    left them: nothing is written. *)
Theorem remote_append_text_known (path content : string) (st : self_) (i : N) (f : file) :
  (_resolve_file_id path st).1 = Ok (Some i) →
  lookup_id (service_files st) i = Some f →
  is_folder f = false →
  if Codec.valid_utf8 (data f)
  then same_outcome (append_text path content st)
         (write_text path (data f +:+ content) st)
  else (append_text path content st).1 = Raise UnicodeDecodeError
       ∧ store (append_text path content st).2 = store (_resolve_file_id path st).2.
Proof.
  intros Hfound Hid Hfolder.
  pose proof (resolve_file_id_found path st i Hfound (FilesGetMedia i)) as Hagain.
  pose proof (remote_read_text_found path st i f Hfound Hid Hfolder) as Hread.
  destruct (Codec.valid_utf8 (data f)).
  - unfold append_text. unfold mbind at 1. unfold PyM_bind, bind at 1.
    rewrite Hread.
    assert (match data f with
            | String a e => String a e +:+ content
            | EmptyString => content
            end = data f +:+ content) as -> by (by destruct (data f)).
    unfold write_text. apply bind_same_outcome; [| intros a; apply respects_ret].
    unfold _upload_content. apply bind_same_outcome.
    + rewrite Hagain. split; [by rewrite Hfound | done].
    + intros [j|].
      * apply respects_bind; [apply respects_files_update | intros _; apply respects_ret].
      * destruct (folder_and_name path) as [folder_path filename].
        apply respects_bind; [apply respects_resolve_folder_id |]. intros parent_id.
        apply respects_bind; [apply respects_files_create |]. intros new_id.
        apply respects_bind; [apply respects_cache_file | intros _; apply respects_ret].
  - unfold append_text, mbind, PyM_bind, bind. rewrite Hread. done.
Qed.

Lemma remote_append_text_known_witness :
  same_outcome (append_text "logs/2026-01-02.md" "!" Examples.remote)
    (write_text "logs/2026-01-02.md" ("two" +:+ "!") Examples.remote).
Proof.
  apply (remote_append_text_known "logs/2026-01-02.md" "!" Examples.remote 5
           (Examples.text_file 5 "2026-01-02.md" 2 "two")).
  - vm_compute. reflexivity.
  - vm_compute. reflexivity.
  - vm_compute. reflexivity.
Defined.

(** X14.  A cached identifier is never checked again.  When the file
    cache holds an identifier for the path and the drive has no object
    with it (the file was removed by someone else), [file_exists] still
    answers true, [read_text], [write_text] and [append_text] raise the
    HTTP error of the request, and each of them leaves the drive and both
    caches as they were: the stale entry stays and no file is created. *)
Theorem remote_stale_cached_id (path content : string) (st : self_) (i : N) :
  _file_id_cache st !! path = Some i →
  lookup_id (service_files st) i = None →
  file_exists path st = (Ok true, st)
  ∧ read_text path st = (Raise HttpError, with_request (FilesGetMedia i) st)
  ∧ write_text path content st = (Raise HttpError, with_request (FilesUpdate i) st)
  ∧ append_text path content st = (Raise HttpError, with_request (FilesGetMedia i) st).
Proof.
  intros Hc Hid.
  assert (read_text path st = (Raise HttpError, with_request (FilesGetMedia i) st)) as Hread.
  { unfold read_text, _download_content, mbind, PyM_bind, bind.
    rewrite resolve_file_id_unfold, Hc. unfold files_get_media. by rewrite Hid. }
  split; [by apply (remote_file_exists_known path st i) |].
  split; [done |]. split.
  - unfold write_text, _upload_content, mbind, PyM_bind, bind.
    rewrite resolve_file_id_unfold, Hc. unfold files_update. by rewrite Hid.
  - unfold append_text, mbind, PyM_bind, bind. by rewrite Hread.
Qed.

Lemma remote_stale_cached_id_witness :
  let st := cache_file "gone.txt" 99 Examples.remote in
  file_exists "gone.txt" st = (Ok true, st)
  ∧ read_text "gone.txt" st = (Raise HttpError, with_request (FilesGetMedia 99) st)
  ∧ write_text "gone.txt" "hi" st = (Raise HttpError, with_request (FilesUpdate 99) st)
  ∧ append_text "gone.txt" "hi" st = (Raise HttpError, with_request (FilesGetMedia 99) st).
Proof.
  apply (remote_stale_cached_id "gone.txt" "hi" (cache_file "gone.txt" 99 Examples.remote) 99).
  - vm_compute. reflexivity.
  - vm_compute. reflexivity.
Defined.

(** X15.  On the remote backend a missing folder looks like a missing
    file to the readers.  When a record is not cached and the folder of
    its path does not resolve, [file_exists] answers false, [read_text]
    gives [None] and [load_json] the empty mapping, where [save_json] to
    the same path raises the folder error. *)
Theorem remote_missing_folder_is_missing_file `{Json} (filename : string) (d : pyobj)
    (st : self_) (e : exn) :
  let path := "mcp-data/" +:+ filename in
  _file_id_cache st !! path = None →
  (_resolve_folder_id (folder_and_name path).1 st).1 = Raise e →
  (file_exists path st).1 = Ok false
  ∧ (read_text path st).1 = Ok None
  ∧ (load_json filename st).1 = Ok empty_dict
  ∧ (save_json filename d st).1 = Raise e.
Proof.
  intros path Hmiss Hraise.
  assert (∃ s1, _resolve_file_id path st = (Ok None, s1)) as [s1 Hres].
  { rewrite resolve_file_id_unfold, Hmiss.
    destruct (_resolve_folder_id _ st) as [[p|e'] s1]; [done | by exists s1]. }
  split; [| split; [| split]].
  - unfold file_exists, mbind, PyM_bind, bind. by rewrite Hres.
  - unfold read_text, mbind, PyM_bind, bind. by rewrite Hres.
  - unfold load_json. fold path. unfold mbind, PyM_bind, bind. by rewrite Hres.
  - destruct (remote_write_text_missing_folder path (json_dumps true d) st e Hmiss Hraise)
      as [Hw _].
    revert Hw. unfold write_text, save_json. fold path.
    unfold _upload_content, mbind, PyM_bind, bind, mret, PyM_ret, ret. rewrite Hres.
    destruct (folder_and_name path) as [folder_path name_]. simpl.
    destruct (_resolve_folder_id folder_path s1) as [[p|e'] s2]; [| done].
    unfold files_create. destruct (folder_exists s2 p); simpl; done.
Qed.

Lemma remote_missing_folder_is_missing_file_witness :
  let st := with_files [] Examples.remote in
  (file_exists "mcp-data/tasks.json" st).1 = Ok false
  ∧ (read_text "mcp-data/tasks.json" st).1 = Ok None
  ∧ (load_json "tasks.json" st).1 = Ok (MiniJson.Dict [])
  ∧ (save_json "tasks.json" MiniJson.tasks_record st).1
    = Raise (folder_not_found "mcp-data" "mcp-data").
Proof.
  apply (@remote_missing_folder_is_missing_file MiniJson.json "tasks.json"
           MiniJson.tasks_record (with_files [] Examples.remote)
           (folder_not_found "mcp-data" "mcp-data")).
  - vm_compute. reflexivity.
  - vm_compute. reflexivity.
Defined.

Lemma select_elem (q : query) (files : list file) (f : file) :
  f ∈ select q files ↔ f ∈ files ∧ matches q f = true.
Proof. unfold select. rewrite list_elem_of_filter. tauto. Qed.

(** X16.  [list_files] fills the file cache with what it saw.  Every
    path it returns is cached afterwards under the identifier of an object
    of the listed folder that is not trashed and has the path's name; so
    [file_exists] on a returned path answers true without a request, and
    [read_text] goes straight to the download of that identifier. *)
Theorem remote_list_files_caches_results (directory pattern : string) (st : self_)
    (l : list string) (s : string) :
  let out := list_files directory pattern st in
  out.1 = Ok l → s ∈ l →
  ∃ folder_id f,
    (_resolve_folder_id directory st).1 = Ok folder_id
    ∧ f ∈ service_files st ∧ Drive.parent f = folder_id ∧ trashed f = false
    ∧ rel_path directory f = s
    ∧ _file_id_cache out.2 !! s = Some (id f)
    ∧ file_exists s out.2 = (Ok true, out.2)
    ∧ requests (read_text s out.2).2 = FilesGetMedia (id f) :: requests out.2.
Proof.
  intros out Hok Hs.
  destruct (remote_list_files_spec directory pattern st) as (st' & Hrun & _).
  pose proof (remote_list_files_state directory pattern st) as (_ & _ & _ & _ & Hcache).
  fold out in Hcache. unfold out in Hok. rewrite Hrun in Hok. simpl in Hok.
  destruct ((_resolve_folder_id directory st).1) as [folder_id|e];
    [| injection Hok as <-; by apply elem_of_nil in Hs].
  injection Hok as <-. apply (proj1 (sorted_reverse_elem _ _)) in Hs.
  apply list_elem_of_fmap in Hs as (f' & -> & Hf').
  apply list_elem_of_filter in Hf' as [_ Hf'].
  destruct (Hcache (rel_path directory f')) as [(f & Hf & Hk & Hid) | [Hno _]];
    [| by destruct (Hno f' Hf')].
  apply select_elem in Hf as [Hf Hm]. simpl in Hm.
  apply andb_prop in Hm as [Hm _]. apply andb_prop in Hm as [Hp Ht].
  apply bool_decide_eq_true_1 in Hp. apply negb_true_iff in Ht.
  exists folder_id, f. repeat split; try done.
  - by apply (remote_file_exists_known _ _ (id f)).
  - unfold read_text, _download_content, mbind, PyM_bind, bind, mret, PyM_ret, ret, lift.
    rewrite resolve_file_id_unfold, Hid. unfold files_get_media.
    destruct (lookup_id _ _) as [g|]; [| done].
    destruct (is_folder g); [done |]. simpl.
    by destruct (Codec.valid_utf8 (data g)).
Qed.

Lemma remote_list_files_caches_results_witness :
  ∃ folder_id f,
    (_resolve_folder_id "logs" Examples.remote).1 = Ok folder_id
    ∧ f ∈ service_files Examples.remote ∧ Drive.parent f = folder_id ∧ trashed f = false
    ∧ rel_path "logs" f = "logs/2026-01-03.md"
    ∧ _file_id_cache (list_files "logs" "*.md" Examples.remote).2 !! "logs/2026-01-03.md"
      = Some (id f)
    ∧ file_exists "logs/2026-01-03.md" (list_files "logs" "*.md" Examples.remote).2
      = (Ok true, (list_files "logs" "*.md" Examples.remote).2)
    ∧ requests (read_text "logs/2026-01-03.md"
                  (list_files "logs" "*.md" Examples.remote).2).2
      = FilesGetMedia (id f) :: requests (list_files "logs" "*.md" Examples.remote).2.
Proof.
  apply (remote_list_files_caches_results "logs" "*.md" Examples.remote
           ["logs/2026-01-03.md"; "logs/2026-01-02.md"; "logs/2026-01-01.md"]).
  - vm_compute. reflexivity.
  - apply elem_of_cons. by left.
Defined.

(** After [resolve_parts] has returned, the key of each part is cached. *)
Lemma resolve_parts_all_cached (fp : string) (parts rest : list string) (p : N)
    (st : self_) (v : N) (part : string) :
  (resolve_parts fp parts rest p st).1 = Ok v → part ∈ rest →
  is_Some (_folder_id_cache (resolve_parts fp parts rest p st).2 !! current_path parts part).
Proof.
  revert p st. induction rest as [|x rest IH]; intros p st Hok Hin.
  { by apply elem_of_nil in Hin. }
  rewrite resolve_parts_cons in Hok |- *.
  assert (∀ p' s', is_Some (_folder_id_cache s' !! current_path parts x) →
                   (resolve_parts fp parts rest p' s').1 = Ok v →
                   is_Some (_folder_id_cache (resolve_parts fp parts rest p' s').2
                              !! current_path parts part)) as Hstep.
  { intros p' s' Hx Hok'. apply elem_of_cons in Hin as [-> | Hin]; [| by apply IH].
    destruct (resolve_parts_frame fp parts rest p' s') as (_ & _ & _ & _ & Hsub).
    destruct Hx as [c Hc]. exists c. by eapply lookup_weaken. }
  destruct (_folder_id_cache st !! current_path parts x) as [c|] eqn:Hc.
  { apply Hstep; [by rewrite Hc | done]. }
  cbv zeta in *. destruct (select _ (service_files st)) as [|f files]; [done |].
  apply Hstep; [| done]. simpl. rewrite lookup_insert_eq. by eexists.
Qed.

Lemma self_eq (st st' : self_) :
  store st = store st' → requests st = requests st' → st = st'.
Proof.
  destruct st, st'. unfold store. simpl. intros [= -> -> -> -> ->] ->. done.
Qed.

Lemma resolve_folder_id_unfold (fp : string) (st : self_) :
  _resolve_folder_id fp st
  = if bool_decide (fp = "" ∨ fp = ".") then (Ok (shared_drive_id st), st)
    else match _folder_id_cache st !! fp with
         | Some cached => (Ok cached, st)
         | None =>
             resolve_parts fp (PyStr.split "/" (PyStr.strip "/" fp))
               (PyStr.split "/" (PyStr.strip "/" fp)) (shared_drive_id st) st
         end.
Proof.
  unfold _resolve_folder_id, mbind, PyM_bind, bind, get, mret, PyM_ret, ret.
  case_bool_decide; [done |]. by destruct (_folder_id_cache st !! fp).
Qed.

(** X17.  A folder path that has resolved is answered from the cache
    from then on: the next [_resolve_folder_id] of the same path returns
    the same identifier and issues no request; the backend object is
    exactly as the first call left it. *)
Theorem resolve_folder_id_second_call (fp : string) (st : self_) (v : N) :
  let first := _resolve_folder_id fp st in
  first.1 = Ok v →
  _resolve_folder_id fp first.2 = (Ok v, first.2).
Proof.
  intros first Hok.
  pose proof (resolve_folder_id_stable fp st first.2 eq_refl) as [Hr Hs].
  fold first in Hr, Hs. rewrite Hok in Hr.
  assert (requests (_resolve_folder_id fp first.2).2 = requests first.2) as Hreq.
  { clear Hr Hs. revert Hok. unfold first. rewrite (resolve_folder_id_unfold fp st).
    case_bool_decide as Hroot.
    { intros _. simpl. rewrite resolve_folder_id_unfold.
      by rewrite bool_decide_eq_true_2. }
    destruct (_folder_id_cache st !! fp) as [c|] eqn:Hc.
    { intros _. simpl. rewrite resolve_folder_id_unfold.
      rewrite bool_decide_eq_false_2 by done. by rewrite Hc. }
    set (parts := PyStr.split "/" (PyStr.strip "/" fp)).
    set (out := resolve_parts fp parts parts (shared_drive_id st) st).
    intros Hok. rewrite resolve_folder_id_unfold.
    rewrite bool_decide_eq_false_2 by done.
    destruct (_folder_id_cache out.2 !! fp) as [c|]; [done |].
    fold parts.
    destruct (resolve_parts_requests fp parts parts (shared_drive_id out.2) out.2)
      as (new & Hnew & Hall).
    rewrite Hnew. destruct new as [|r new]; [done |]. exfalso.
    destruct (Hall r) as (part & p' & _ & Hin & Hnone); [apply elem_of_cons; by left |].
    destruct (resolve_parts_all_cached fp parts parts (shared_drive_id st) st v part
                Hok Hin) as [c Hc'].
    fold out in Hc'. by rewrite Hc' in Hnone. }
  destruct (_resolve_folder_id fp first.2) as [r s2]. simpl in *. subst r.
  f_equal. by apply self_eq.
Qed.

Lemma resolve_folder_id_second_call_witness :
  _resolve_folder_id "a/b" (_resolve_folder_id "a/b" Examples.remote).2
  = (Ok 10%N, (_resolve_folder_id "a/b" Examples.remote).2).
Proof.
  apply (resolve_folder_id_second_call "a/b" Examples.remote 10).
  vm_compute. reflexivity.
Defined.

(** What the walk of the design returns: the identifier of a folder
    that is not trashed and carries the name of the last part. *)
Lemma walk_folders_ok (files : list file) (fp : string) (p : N) (parts : list string)
    (v : N) (part : string) :
  walk_folders files fp p parts = Ok v → last parts = Some part →
  ∃ f, f ∈ files ∧ id f = v ∧ Drive.name f = part ∧ is_folder f = true
       ∧ trashed f = false.
Proof.
  revert p. induction parts as [|x parts IH]; intros p Hwalk Hlast; [done |].
  simpl in Hwalk.
  destruct (select (NameInParent x p true) files) as [|f fs] eqn:Hsel; [done |].
  destruct parts as [|y parts].
  - simpl in Hwalk, Hlast. injection Hwalk as <-. injection Hlast as <-.
    assert (f ∈ select (NameInParent x p true) files) as Hf
      by (rewrite Hsel; apply elem_of_cons; by left).
    apply select_elem in Hf as [Hf Hm]. simpl in Hm.
    apply andb_prop in Hm as [Hm Ht]. apply andb_prop in Hm as [Hm Hfo].
    apply andb_prop in Hm as [Hn _].
    apply bool_decide_eq_true_1 in Hn. apply negb_true_iff in Ht.
    exists f. by repeat split.
  - apply (IH (id f)); [done |]. by rewrite last_cons_cons in Hlast.
Qed.

(** X18.  On an empty cache, for a folder path whose segments have
    pairwise different names, [_resolve_folder_id] is the walk the design
    describes: from the drive root, the first folder among the children of
    the folder reached so far that has the name of the next segment, and
    the folder-not-found error naming the first segment without one.  It
    creates nothing; and the identifier it returns is that of a folder of
    the drive which is not trashed and has the name of the last segment. *)
Theorem resolve_folder_id_refines_walk (fp : string) (st : self_) :
  let parts := PyStr.split "/" (PyStr.strip "/" fp) in
  let out := _resolve_folder_id fp st in
  fp ≠ "" → fp ≠ "." → NoDup parts → _folder_id_cache st = ∅ →
  out.1 = walk_folders (service_files st) fp (shared_drive_id st) parts
  ∧ service_files out.2 = service_files st
  ∧ ∀ v, out.1 = Ok v →
         ∃ f part, f ∈ service_files st ∧ id f = v ∧ last parts = Some part
                   ∧ Drive.name f = part ∧ is_folder f = true ∧ trashed f = false.
Proof.
  intros parts out Hne Hdot Hdup Hempty.
  pose proof (resolve_folder_id_is_walk fp st Hne Hdot Hdup Hempty) as Hwalk.
  fold parts out in Hwalk.
  split; [done |]. split; [apply resolve_folder_id_frame |].
  intros v Hok. rewrite Hwalk in Hok.
  destruct (last parts) as [part|] eqn:Hlast.
  - destruct (walk_folders_ok _ _ _ _ _ _ Hok Hlast) as (f & Hf & Hid & Hn & Hfo & Ht).
    by exists f, part.
  - apply last_None in Hlast. pose proof (split_nonempty "/" (PyStr.strip "/" fp)).
    by fold parts in H.
Qed.

Lemma resolve_folder_id_refines_walk_witness :
  let out := _resolve_folder_id "a/b" Examples.remote in
  out.1 = walk_folders (service_files Examples.remote) "a/b"
            (shared_drive_id Examples.remote) ["a"; "b"]
  ∧ service_files out.2 = service_files Examples.remote
  ∧ ∀ v, out.1 = Ok v →
         ∃ f part, f ∈ service_files Examples.remote ∧ id f = v
                   ∧ last ["a"; "b"] = Some part
                   ∧ Drive.name f = part ∧ is_folder f = true ∧ trashed f = false.
Proof.
  apply (resolve_folder_id_refines_walk "a/b" Examples.remote).
  - done.
  - done.
  - apply NoDup_cons. split; [| apply NoDup_singleton].
    intros Hin. apply list_elem_of_singleton in Hin. done.
  - reflexivity.
Defined.

(** ** The identifier of a new decision *)

Import ContextTools.

Lemma scan_id_ge (py_int : string → option Z) (m : Z) (did : string) :
  (m ≤ scan_id py_int m did)%Z.
Proof.
  unfold scan_id. destruct (PyStr.startswith did "TECH-"); [| lia].
  destruct (py_int _); lia.
Qed.

Lemma fold_scan_id_ge (py_int : string → option Z) (ids : list string) (m : Z) :
  (m ≤ fold_left (scan_id py_int) ids m)%Z.
Proof.
  revert m. induction ids as [|did ids IH]; intros m; simpl; [lia |].
  etrans; [apply (scan_id_ge py_int m did) | apply IH].
Qed.

(** The largest number is at least every number read from an identifier. *)
Lemma fold_scan_id_bound (py_int : string → option Z) (ids : list string) (m : Z)
    (did : string) (k : Z) :
  did ∈ ids → PyStr.startswith did "TECH-" = true →
  py_int (item1 (PyStr.split "-" did)) = Some k →
  (k ≤ fold_left (scan_id py_int) ids m)%Z.
Proof.
  revert m. induction ids as [|x ids IH]; intros m Hin Hstart Hint.
  { by apply elem_of_nil in Hin. }
  simpl. apply elem_of_cons in Hin as [<- | Hin]; [| by apply IH].
  etrans; [| apply fold_scan_id_ge]. unfold scan_id. rewrite Hstart, Hint. lia.
Qed.

Lemma split_cons_other (c a : ascii) (s : string) :
  a ≠ c → PyStr.split c s = [s] → PyStr.split c (String a s) = [String a s].
Proof.
  intros Hne Hs. simpl. rewrite Hs.
  destruct (Ascii.eqb_spec a c); [done | done].
Qed.

Lemma split_pretty_N_go (x : N) (s : string) :
  PyStr.split "-" s = [s] → PyStr.split "-" (pretty_N_go x s) = [pretty_N_go x s].
Proof.
  revert s. induction (N.lt_wf_0 x) as [x _ IH]; intros s Hs.
  assert (x = 0 ∨ 0 < x)%N as [-> | Hpos] by lia.
  { by rewrite pretty_N_go_0. }
  rewrite pretty_N_go_step by done. apply IH; [by apply N.div_lt |].
  apply split_cons_other; [| done].
  unfold pretty_N_char. by repeat case_match.
Qed.

Lemma split_zeros (k : nat) (s : string) :
  PyStr.split "-" s = [s] → PyStr.split "-" (zeros k +:+ s) = [zeros k +:+ s].
Proof.
  intros Hs. induction k as [|k IH]; [done |].
  cbn [zeros]. rewrite string_app_cons. by apply split_cons_other.
Qed.

(** The text of a number that is not negative has no "-". *)
Lemma split_format_03d (n : Z) :
  (0 ≤ n)%Z → PyStr.split "-" (format_03d n) = [format_03d n].
Proof.
  intros Hn. unfold format_03d.
  replace (n <? 0)%Z with false by (symmetry; apply Z.ltb_ge; lia).
  rewrite string_app_nil_l. apply split_zeros.
  unfold pretty, pretty_N. case_decide; [done |]. by apply split_pretty_N_go.
Qed.

Lemma split_tech (s : string) :
  PyStr.split "-" ("TECH-" +:+ s) = "TECH" :: PyStr.split "-" s.
Proof.
  rewrite !string_app_cons, string_app_nil_l. simpl.
  by destruct (PyStr.split "-" s).
Qed.

Lemma startswith_tech (s : string) : PyStr.startswith ("TECH-" +:+ s) "TECH-" = true.
Proof.
  rewrite !string_app_cons, string_app_nil_l. unfold PyStr.startswith. simpl.
  by destruct s.
Qed.

Lemma prefix_app (p s : string) : String.prefix p s = true → ∃ r, s = p +:+ r.
Proof.
  revert s. induction p as [|a p IH]; intros s.
  { exists s. by rewrite string_app_nil_l. }
  destruct s as [|b s]; simpl; [done |].
  destruct (ascii_dec a b) as [-> | Hne]; [| done].
  intros Hp. destruct (IH s Hp) as [r ->]. exists r. by rewrite string_app_cons.
Qed.

(** [did.split("-")[1]] is there for every identifier the loop looks at. *)
Lemma split_tech_has_second (did : string) :
  PyStr.startswith did "TECH-" = true → (2 ≤ length (PyStr.split "-" did))%nat.
Proof.
  intros Hstart. apply prefix_app in Hstart as [r ->]. rewrite split_tech.
  pose proof (split_nonempty "-" r) as Hne.
  destruct (PyStr.split "-" r); [done | simpl; lia].
Qed.

(** X19.  The identifier [add_decision] gives a new decision on the
    JSON-file branch is new.  Provided [int] reads back the number that was
    just formatted, the identifier is none of the existing ones, its
    number is above every number [int] reads from an existing "TECH-"
    identifier, and once it is on file the next decision is numbered one
    higher. *)
Theorem new_decision_id_fresh (py_int : string → option Z) (existing_ids : list string) :
  let n := (max_num py_int existing_ids + 1)%Z in
  py_int (format_03d n) = Some n →
  (new_id py_int existing_ids ∉ existing_ids)
  ∧ (∀ did k, did ∈ existing_ids → PyStr.startswith did "TECH-" = true →
              py_int (item1 (PyStr.split "-" did)) = Some k → (k < n)%Z)
  ∧ max_num py_int (existing_ids ++ [new_id py_int existing_ids]) = n
  ∧ new_id py_int (existing_ids ++ [new_id py_int existing_ids])
    = "TECH-" +:+ format_03d (n + 1).
Proof.
  intros n Hint.
  assert (0 ≤ max_num py_int existing_ids)%Z as Hpos by apply fold_scan_id_ge.
  assert (py_int (item1 (PyStr.split "-" (new_id py_int existing_ids))) = Some n) as Hnew.
  { unfold new_id. fold n. rewrite split_tech, split_format_03d by (unfold n; lia). done. }
  assert (∀ did k, did ∈ existing_ids → PyStr.startswith did "TECH-" = true →
                   py_int (item1 (PyStr.split "-" did)) = Some k → (k < n)%Z) as Hbound.
  { intros did k Hin Hstart Hk.
    pose proof (fold_scan_id_bound py_int existing_ids 0 did k Hin Hstart Hk) as Hle.
    fold (max_num py_int existing_ids) in Hle. unfold n. lia. }
  assert (max_num py_int (existing_ids ++ [new_id py_int existing_ids]) = n) as Hnext.
  { unfold max_num. rewrite fold_left_app. simpl.
    fold (max_num py_int existing_ids). unfold scan_id.
    unfold new_id at 1. rewrite startswith_tech. rewrite Hnew. unfold n. lia. }
  split; [| split; [done | split; [done |]]].
  - intros Hin. specialize (Hbound _ n Hin). unfold new_id in Hbound at 1.
    rewrite startswith_tech in Hbound. specialize (Hbound eq_refl Hnew). lia.
  - unfold new_id at 1. by rewrite Hnext.
Qed.

Lemma new_decision_id_fresh_witness :
  let existing_ids := ["TECH-001"; "TECH-007"; "TECH-draft"; "NOTE-9"; ""] in
  (new_id Examples.int_decimal existing_ids ∉ existing_ids)
  ∧ (∀ did k, did ∈ existing_ids → PyStr.startswith did "TECH-" = true →
              Examples.int_decimal (item1 (PyStr.split "-" did)) = Some k → (k < 8)%Z)
  ∧ max_num Examples.int_decimal (existing_ids ++ [new_id Examples.int_decimal existing_ids])
    = 8%Z
  ∧ new_id Examples.int_decimal (existing_ids ++ [new_id Examples.int_decimal existing_ids])
    = "TECH-" +:+ format_03d (8 + 1).
Proof.
  apply (new_decision_id_fresh Examples.int_decimal
           ["TECH-001"; "TECH-007"; "TECH-draft"; "NOTE-9"; ""]).
  vm_compute. reflexivity.
Defined.
